(** * k8s_diagnostics_agent/app.py: text extraction, JSON splitting and
      work-note rendering

    A shallow embedding of the pure parts of [app.py] and the properties
    of them that the design document states.

    Conventions.
    - A Python [str] is a [string]; its characters are the 256 code points
      of [ascii] (Latin-1).  Character classes ([\s], [\w], line
      boundaries) are the restrictions of Python's to those code points.
    - Slices [s[a:b]] are [slice a b s]; indices are [nat].
    - Regular expressions are values of [regex], run by a backtracking
      matcher with Python's priorities (leftmost start, greedy or lazy
      repetition in order).
    - Dynamically typed values are [pyval]; an operation that can raise
      returns [result]. *)

From Stdlib Require Import Strings.String Strings.Ascii Lists.List.
From Stdlib Require Import Arith.PeanoNat NArith.BinNat ZArith.ZArith.
From Stdlib Require Import Bool.Bool micromega.Lia.
From Stdlib Require Import Numbers.DecimalString.
Import ListNotations.

Local Open Scope list_scope.
Local Open Scope string_scope.

Set Warnings "-register-all".

(* ================================================================= *)
(** ** Python [str] operations *)

Module PyStr.

Definition code (c : ascii) : N := N_of_ascii c.

(** The double quote. *)
Definition dquote : ascii := "034"%char.

(** [str.isspace] on one character; also the regex class [\s]. *)
Definition is_space (c : ascii) : bool :=
  let n := code c in
  ((9 <=? n) && (n <=? 13) || (28 <=? n) && (n <=? 32)
   || (n =? 133) || (n =? 160))%N.

(** The characters [str.splitlines] breaks at. *)
Definition is_linebreak (c : ascii) : bool :=
  let n := code c in
  ((10 <=? n) && (n <=? 13) || (28 <=? n) && (n <=? 30) || (n =? 133))%N.

(** The regex class [\w]: [str.isalnum] characters and the underscore. *)
Definition is_word (c : ascii) : bool :=
  let n := code c in
  ((48 <=? n) && (n <=? 57) || (65 <=? n) && (n <=? 90)
   || (97 <=? n) && (n <=? 122) || (n =? 95)
   || (n =? 170) || (n =? 178) || (n =? 179) || (n =? 181)
   || (n =? 185) || (n =? 186) || (188 <=? n) && (n <=? 190)
   || (192 <=? n) && (n <=? 214) || (216 <=? n) && (n <=? 246)
   || (248 <=? n))%N.

Definition is_empty (s : string) : bool :=
  match s with EmptyString => true | String _ _ => false end.

(** [bool(s)] for a string. *)
Definition nonempty (s : string) : bool := negb (is_empty s).

(** [s[a:b]] for [0 <= a], [0 <= b]. *)
Definition slice (a b : nat) (s : string) : string := substring a (b - a) s.

(** [s[a:]]. *)
Fixpoint drop (a : nat) (s : string) : string :=
  match a, s with
  | O, _ => s
  | S a', String _ s' => drop a' s'
  | S _, EmptyString => EmptyString
  end.

(** [s[:b]]. *)
Fixpoint take (b : nat) (s : string) : string :=
  match b, s with
  | S b', String c s' => String c (take b' s')
  | _, _ => EmptyString
  end.

Fixpoint lstrip_by (p : ascii -> bool) (s : string) : string :=
  match s with
  | String c s' => if p c then lstrip_by p s' else s
  | EmptyString => EmptyString
  end.

Fixpoint rstrip_by (p : ascii -> bool) (s : string) : string :=
  match s with
  | String c s' =>
      match rstrip_by p s' with
      | EmptyString => if p c then EmptyString else String c EmptyString
      | r => String c r
      end
  | EmptyString => EmptyString
  end.

(** [s.strip()]. *)
Definition strip (s : string) : string :=
  rstrip_by is_space (lstrip_by is_space s).

(** [s.rstrip("\r")]. *)
Definition rstrip_cr (s : string) : string :=
  rstrip_by (Ascii.eqb "013"%char) s.

(** [s.startswith(p)]. *)
Definition startswith (p s : string) : bool := prefix p s.

Fixpoint rev_acc (s acc : string) : string :=
  match s with
  | EmptyString => acc
  | String c s' => rev_acc s' (String c acc)
  end.

Definition rev (s : string) : string := rev_acc s EmptyString.

(** [s.endswith(p)]. *)
Definition endswith (p s : string) : bool := prefix (rev p) (rev s).

(** [s.find(p)]: [None] stands for [-1]. *)
Fixpoint find_from (pos : nat) (p s : string) : option nat :=
  if prefix p s then Some pos
  else match s with
       | String _ s' => find_from (S pos) p s'
       | EmptyString => None
       end.

Definition find (p s : string) : option nat := find_from 0 p s.

(** [p in s]. *)
Definition contains (p s : string) : bool :=
  match find p s with Some _ => true | None => false end.

(** [s.replace(old, new)] for a non-empty [old]: [skip] counts the
    characters of a match that are still to be passed over. *)
Fixpoint replace_from (skip : nat) (old new s : string) : string :=
  match s with
  | EmptyString => EmptyString
  | String c s' =>
      match skip with
      | S k => replace_from k old new s'
      | O =>
          if prefix old s
          then new ++ replace_from (String.length old - 1) old new s'
          else String c (replace_from 0 old new s')
      end
  end.

Definition replace (old new s : string) : string := replace_from 0 old new s.

(** [sep.join(parts)]. *)
Definition join (sep : string) (parts : list string) : string :=
  String.concat sep parts.

(** [s.splitlines()]: [line] is the line read so far. *)
Fixpoint splitlines_from (line s : string) : list string :=
  match s with
  | EmptyString => if is_empty line then [] else [line]
  | String c s' =>
      if Ascii.eqb c "013"%char then
        match s' with
        | String "010"%char s'' => line :: splitlines_from EmptyString s''
        | _ => line :: splitlines_from EmptyString s'
        end
      else if is_linebreak c then line :: splitlines_from EmptyString s'
      else splitlines_from (line ++ String c EmptyString) s'
  end.

Definition splitlines (s : string) : list string :=
  splitlines_from EmptyString s.

End PyStr.

(* ================================================================= *)
(** ** Regular expressions ([re]) *)

Module Re.

(** The patterns of [app.py] are sequences of single characters,
    character classes, starred classes and one capture group. *)
Inductive atom : Type :=
| Chr (p : ascii -> bool)                 (* one character of a class *)
| Star (greedy : bool) (p : ascii -> bool) (* [p*] or [p*?] *)
| Open                                    (* [(] of group 1 *)
| Close.                                  (* [)] of group 1 *)

Definition regex := list atom.

(** Start and end of group 1. *)
Definition caps : Type := (option nat * option nat)%type.

(** A match: [start], [end], group 1. *)
Record rmatch : Type := mkMatch {
  m_start : nat;
  m_end : nat;
  m_caps : caps
}.

Section Repeat.
Variable p : ascii -> bool.
Variable k : string -> nat -> option (nat * caps).

(** [p*] then [k]: longest run first, then shorter ones. *)
Fixpoint greedy (s : string) (pos : nat) : option (nat * caps) :=
  match s with
  | String c s' =>
      if p c then
        match greedy s' (S pos) with
        | Some r => Some r
        | None => k s pos
        end
      else k s pos
  | EmptyString => k s pos
  end.

(** [p*?] then [k]: shortest run first, then longer ones. *)
Fixpoint lazy (s : string) (pos : nat) : option (nat * caps) :=
  match k s pos with
  | Some r => Some r
  | None =>
      match s with
      | String c s' => if p c then lazy s' (S pos) else None
      | EmptyString => None
      end
  end.
End Repeat.

(** [run r s pos g]: match [r] against [s], which starts at offset
    [pos] of the subject; the end offset and the group. *)
Fixpoint run (r : regex) (g : caps) (s : string) (pos : nat)
  : option (nat * caps) :=
  match r with
  | [] => Some (pos, g)
  | Chr p :: r' =>
      match s with
      | String c s' => if p c then run r' g s' (S pos) else None
      | EmptyString => None
      end
  | Star true p :: r' => greedy p (run r' g) s pos
  | Star false p :: r' => lazy p (run r' g) s pos
  | Open :: r' => run r' (Some pos, snd g) s pos
  | Close :: r' => run r' (fst g, Some pos) s pos
  end.

(** [re.search] from offset [pos]: the leftmost start that matches. *)
Fixpoint search_from (r : regex) (s : string) (pos : nat) : option rmatch :=
  match run r (None, None) s pos with
  | Some (e, g) => Some (mkMatch pos e g)
  | None =>
      match s with
      | String _ s' => search_from r s' (S pos)
      | EmptyString => None
      end
  end.

Definition search (r : regex) (s : string) : option rmatch :=
  search_from r s 0.

(** [re.finditer]: the matches from left to right, none overlapping;
    [skip] counts the characters of the last match still to pass. *)
Fixpoint finditer_from (r : regex) (skip : nat) (s : string) (pos : nat)
  : list rmatch :=
  match skip with
  | S k =>
      match s with
      | String _ s' => finditer_from r k s' (S pos)
      | EmptyString => []
      end
  | O =>
      match run r (None, None) s pos with
      | Some (e, g) =>
          mkMatch pos e g ::
          match s with
          | String _ s' => finditer_from r (e - pos - 1) s' (S pos)
          | EmptyString => []
          end
      | None =>
          match s with
          | String _ s' => finditer_from r 0 s' (S pos)
          | EmptyString => []
          end
      end
  end.

Definition finditer (r : regex) (s : string) : list rmatch :=
  finditer_from r 0 s 0.

(** [m.group(1)] on subject [s]. *)
Definition group1 (s : string) (m : rmatch) : string :=
  match m_caps m with
  | (Some a, Some b) => PyStr.slice a b s
  | _ => EmptyString
  end.

(** [re.sub(r, "", s)] through the matches of [finditer]. *)
Fixpoint delete_spans (ms : list rmatch) (last : nat) (s : string) : string :=
  match ms with
  | [] => PyStr.drop last s
  | m :: ms' =>
      PyStr.slice last (m_start m) s ++ delete_spans ms' (m_end m) s
  end.

Definition sub_empty (r : regex) (s : string) : string :=
  delete_spans (finditer r s) 0 s.

(** Pattern builders. *)
Definition only (c : ascii) : ascii -> bool := Ascii.eqb c.
Definition except (c : ascii) : ascii -> bool :=
  fun x => negb (Ascii.eqb c x).
Definition anychar : ascii -> bool := fun _ => true.

Fixpoint lit (s : string) : regex :=
  match s with
  | EmptyString => []
  | String c s' => Chr (only c) :: lit s'
  end.

End Re.

(* ================================================================= *)
(** ** [html.escape] (quote=True) *)

Module Html.

(** [s.replace(c, new)] for a one-character [c]. *)
Fixpoint replace_char (c : ascii) (new s : string) : string :=
  match s with
  | EmptyString => EmptyString
  | String x s' =>
      if Ascii.eqb x c then new ++ replace_char c new s'
      else String x (replace_char c new s')
  end.

(** The five replacements, the ampersand first. *)
Definition escape (s : string) : string :=
  let s := replace_char "&"%char "&amp;" s in
  let s := replace_char "<"%char "&lt;" s in
  let s := replace_char ">"%char "&gt;" s in
  let s := replace_char PyStr.dquote "&quot;" s in
  replace_char "'"%char "&#x27;" s.

End Html.

(* ================================================================= *)
(** ** The markdown renderer (app.py, lines 42-107) *)

Definition backtick : ascii := "`"%char.

(** [parts.append(p)]. *)
Definition push (parts : list string) (p : string) : list string :=
  (parts ++ [p])%list.

(** The pattern [`([^`]+)`]. *)
Definition inline_code_re : Re.regex :=
  [Re.Chr (Re.only backtick); Re.Open;
   Re.Chr (Re.except backtick); Re.Star true (Re.except backtick);
   Re.Close; Re.Chr (Re.only backtick)].

(** The body of the loop over [re.finditer]: [parts] and [last]. *)
Definition inline_step (text : string) (st : list string * nat) (m : Re.rmatch)
  : list string * nat :=
  let '(parts, last) := st in
  let normal := PyStr.slice last (Re.m_start m) text in
  let parts := push parts (Html.escape normal) in
  let parts :=
    push parts ("<code>" ++ Html.escape (Re.group1 text m) ++ "</code>") in
  (parts, Re.m_end m).

Definition _render_inline_code_escaped (text : string) : string :=
  let '(parts, last) :=
    fold_left (inline_step text) (Re.finditer inline_code_re text) ([], 0) in
  let parts := push parts (Html.escape (PyStr.drop last text)) in
  PyStr.join "" parts.

(** The renderer's loop state. *)
Record md_state : Type := mkMd {
  html_parts : list string;
  in_list : bool;
  in_code : bool
}.

Definition emit (st : md_state) (p : string) : md_state :=
  mkMd (push (html_parts st) p) (in_list st) (in_code st).

Definition set_list (b : bool) (st : md_state) : md_state :=
  mkMd (html_parts st) b (in_code st).

Definition set_code (b : bool) (st : md_state) : md_state :=
  mkMd (html_parts st) (in_list st) b.

(** One turn of [for raw in lines]. *)
Definition md_line (st : md_state) (raw : string) : md_state :=
  let line := PyStr.rstrip_cr raw in
  if PyStr.startswith "```" (PyStr.strip line) then
    if in_code st then set_code false (emit st "</code></pre>")
    else
      let st := if in_list st then set_list false (emit st "</ul>") else st in
      set_code true (emit st "<pre><code>")
  else if in_code st then emit st (Html.escape line)
  else
    let stripped := PyStr.strip line in
    if PyStr.startswith "* " stripped || PyStr.startswith "- " stripped then
      let st := if in_list st then st else set_list true (emit st "<ul>") in
      let content := PyStr.drop 2 stripped in
      emit st ("<li>" ++ _render_inline_code_escaped content ++ "</li>")
    else
      let st := if in_list st then set_list false (emit st "</ul>") else st in
      if String.eqb stripped "" then emit st "<br/>"
      else emit st ("<p>" ++ _render_inline_code_escaped line ++ "</p>").

(** The parts list when the loop and the two closing tests are done. *)
Definition md_parts (text : string) : list string :=
  let st := fold_left md_line (PyStr.splitlines text) (mkMd [] false false) in
  let st := if in_list st then emit st "</ul>" else st in
  let st := if in_code st then emit st "</code></pre>" else st in
  html_parts st.

Definition render_simple_markdown_to_html (text : string) : string :=
  if PyStr.is_empty text then ""
  else PyStr.join (String "010"%char "") (md_parts text).

(* ================================================================= *)
(** ** Python values *)

(** The exceptions the modelled operations raise. *)
Inductive exn : Type :=
| AttributeError
| TypeError
| ValueError.

Inductive result (A : Type) : Type :=
| Ok (a : A)
| Raise (e : exn).

Arguments Ok {A} a.
Arguments Raise {A} e.

Definition bind {A B : Type} (r : result A) (f : A -> result B) : result B :=
  match r with
  | Ok a => f a
  | Raise e => Raise e
  end.

Notation "x <- r ;; k" := (bind r (fun x => k))
  (at level 61, r at next level, right associativity).

(** The values a response, a payload or a parsed JSON text can be: the
    JSON data types, objects with named attributes and their own [str]
    text, and bound methods without parameters that return a value or
    raise.  Numbers are integers; dictionary keys are strings; the first
    binding of a key or attribute is the one that counts. *)
Inductive pyval : Type :=
| PNone
| PBool (b : bool)
| PInt (n : Z)
| PStr (s : string)
| PList (items : list pyval)
| PDict (entries : list (string * pyval))
| PObj (text : string) (attrs : list (string * pyval))
| PCall (ret : pyval)
| PCallRaises (e : exn).

Module Py.

Fixpoint lookup (k : string) (kvs : list (string * pyval)) : option pyval :=
  match kvs with
  | [] => None
  | (k', v) :: rest => if String.eqb k k' then Some v else lookup k rest
  end.

(** [bool(v)]. *)
Definition truthy (v : pyval) : bool :=
  match v with
  | PNone => false
  | PBool b => b
  | PInt n => negb (Z.eqb n 0)
  | PStr s => PyStr.nonempty s
  | PList l => match l with [] => false | _ => true end
  | PDict d => match d with [] => false | _ => true end
  | PObj _ _ | PCall _ | PCallRaises _ => true
  end.

(** [a or b]. *)
Definition or_ (a b : pyval) : pyval := if truthy a then a else b.

(** [hasattr(v, name)], for a name that no built-in type defines
    (here: output, output_text, type, content, text, to_dict). *)
Definition hasattr (v : pyval) (name : string) : bool :=
  match v with
  | PObj _ attrs => match lookup name attrs with Some _ => true | None => false end
  | _ => false
  end.

(** [getattr(v, name, None)], for such a name. *)
Definition getattr (v : pyval) (name : string) : pyval :=
  match v with
  | PObj _ attrs => match lookup name attrs with Some a => a | None => PNone end
  | _ => PNone
  end.

(** [v.name()] for such a name. *)
Definition call_method (v : pyval) (name : string) : result pyval :=
  match v with
  | PObj _ attrs =>
      match lookup name attrs with
      | Some (PCall ret) => Ok ret
      | Some (PCallRaises e) => Raise e
      | Some _ => Raise TypeError
      | None => Raise AttributeError
      end
  | _ => Raise AttributeError
  end.

(** [v.get(key, default)]: only a dict has the method; an object may
    have an attribute of the name, which cannot be called with a key. *)
Definition get_default (v : pyval) (key : string) (default : pyval)
  : result pyval :=
  match v with
  | PDict d => Ok (match lookup key d with Some x => x | None => default end)
  | PObj _ attrs =>
      match lookup "get" attrs with
      | Some _ => Raise TypeError
      | None => Raise AttributeError
      end
  | _ => Raise AttributeError
  end.

(** [v.get(key)]. *)
Definition get (v : pyval) (key : string) : result pyval :=
  get_default v key PNone.

(** [d.get(key)] when [d] is known to be a dict. *)
Definition dict_get (d : list (string * pyval)) (key : string) : pyval :=
  match lookup key d with Some x => x | None => PNone end.

Fixpoint chars (s : string) : list pyval :=
  match s with
  | EmptyString => []
  | String c s' => PStr (String c EmptyString) :: chars s'
  end.

(** The items [for x in v] visits. *)
Definition iterate (v : pyval) : result (list pyval) :=
  match v with
  | PList l => Ok l
  | PStr s => Ok (chars s)
  | PDict d => Ok (map (fun kv => PStr (fst kv)) d)
  | _ => Raise TypeError
  end.

(** The items [for x in reversed(v)] visits. *)
Definition reversed (v : pyval) : result (list pyval) :=
  match v with
  | PList l => Ok (List.rev l)
  | PStr s => Ok (List.rev (chars s))
  | PDict d => Ok (List.rev (map (fun kv => PStr (fst kv)) d))
  | _ => Raise TypeError
  end.

(** [v == s] for a string literal [s]. *)
Definition eq_str (v : pyval) (s : string) : bool :=
  match v with
  | PStr x => String.eqb x s
  | _ => false
  end.

Definition is_str (v : pyval) : bool :=
  match v with PStr _ => true | _ => false end.

(** The items of a value known to be a [list]. *)
Definition as_list (v : pyval) : list pyval :=
  match v with PList l => l | _ => [] end.

(** The entries of a value known to be a [dict]. *)
Definition as_dict (v : pyval) : list (string * pyval) :=
  match v with PDict d => d | _ => [] end.

(** [bool(l)] for a list of strings. *)
Definition truthy_list (l : list string) : bool :=
  match l with [] => false | _ :: _ => true end.

(** The text of a value known to be a [str]. *)
Definition as_str (v : pyval) : string :=
  match v with PStr s => s | _ => EmptyString end.

Definition is_dict (v : pyval) : bool :=
  match v with PDict _ => true | _ => false end.

Definition is_list (v : pyval) : bool :=
  match v with PList _ => true | _ => false end.

Definition is_none (v : pyval) : bool :=
  match v with PNone => true | _ => false end.

End Py.

(* ================================================================= *)
(** ** Text extraction (app.py, lines 197-264) *)

Section Extraction.

(** [str(v)], a built-in. *)
Variable py_str : pyval -> string.

(** [for c in content_list: text = getattr(c, "text", None) ...]:
    [Some text] is the function's return, [None] the end of the loop. *)
Fixpoint attr_content_loop (cs : list pyval) : option pyval :=
  match cs with
  | [] => None
  | c :: cs' =>
      let text := Py.getattr c "text" in
      if Py.truthy text then Some text else attr_content_loop cs'
  end.

(** [for item in reversed(result.output)] of the attribute path. *)
Fixpoint attr_output_loop (items : list pyval) : result (option pyval) :=
  match items with
  | [] => Ok None
  | item :: rest =>
      let item_type := Py.getattr item "type" in
      let content_list := Py.getattr item "content" in
      if Py.eq_str item_type "message" && Py.truthy content_list then
        cs <- Py.iterate content_list ;;
        match attr_content_loop cs with
        | Some text => Ok (Some text)
        | None => attr_output_loop rest
        end
      else attr_output_loop rest
  end.

(** The body of the [try] (lines 199-211). *)
Definition attr_paths (r : pyval) : result (option pyval) :=
  found <-
    (if Py.hasattr r "output" && Py.truthy (Py.getattr r "output") then
       items <- Py.reversed (Py.getattr r "output") ;;
       attr_output_loop items
     else Ok None) ;;
  match found with
  | Some text => Ok (Some text)
  | None =>
      if Py.hasattr r "output_text" then
        let output_text := Py.getattr r "output_text" in
        if Py.is_str output_text && Py.truthy output_text
        then Ok (Some output_text)
        else Ok None
      else Ok None
  end.

(** [for c in item.get("content", []): text = c.get("text") ...]. *)
Fixpoint dict_content_loop (cs : list pyval) : result (option pyval) :=
  match cs with
  | [] => Ok None
  | c :: cs' =>
      text <- Py.get c "text" ;;
      if Py.truthy text then Ok (Some text) else dict_content_loop cs'
  end.

(** [for item in reversed(output)] of the dict path. *)
Fixpoint dict_output_loop (items : list pyval) : result (option pyval) :=
  match items with
  | [] => Ok None
  | item :: rest =>
      ty <- Py.get item "type" ;;
      if Py.eq_str ty "message" then
        content <- Py.get_default item "content" (PList []) ;;
        cs <- Py.iterate content ;;
        found <- dict_content_loop cs ;;
        match found with
        | Some text => Ok (Some text)
        | None => dict_output_loop rest
        end
      else dict_output_loop rest
  end.

(** Lines 214-223, outside the [try]. *)
Definition dict_path (r : pyval) : result pyval :=
  match r with
  | PDict d =>
      match Py.dict_get d "output" with
      | PList output =>
          found <- dict_output_loop (List.rev output) ;;
          match found with
          | Some text => Ok text
          | None => Ok (PStr (py_str r))
          end
      | _ => Ok (PStr (py_str r))
      end
  | _ => Ok (PStr (py_str r))
  end.

Definition extract_output_text (r : pyval) : result pyval :=
  match attr_paths r with
  | Ok (Some text) => Ok text
  | Ok None | Raise _ => dict_path r
  end.

(** [c.get("type") in ("output_text", "text")]. *)
Definition text_type (ty : pyval) : bool :=
  Py.eq_str ty "output_text" || Py.eq_str ty "text".

(** [for c in (item.get("content") or [])] of the turn variant. *)
Fixpoint turn_content_loop (cs : list pyval) (pieces : list string)
  : list string :=
  match cs with
  | [] => pieces
  | c :: cs' =>
      match c with
      | PDict e =>
          if text_type (Py.dict_get e "type") then
            match (match Py.lookup "text" e with
                   | Some x => x | None => PStr "" end) with
            | PStr txt =>
                if PyStr.nonempty txt
                then turn_content_loop cs' (push pieces txt)
                else turn_content_loop cs' pieces
            | _ => turn_content_loop cs' pieces
            end
          else turn_content_loop cs' pieces
      | _ => turn_content_loop cs' pieces
      end
  end.

(** [for item in (d.get("output") or [])]. *)
Fixpoint turn_output_loop (items : list pyval) (pieces : list string)
  : result (list string) :=
  match items with
  | [] => Ok pieces
  | item :: rest =>
      content <- Py.get item "content" ;;
      cs <- Py.iterate (Py.or_ content (PList [])) ;;
      turn_output_loop rest (turn_content_loop cs pieces)
  end.

(** [d] of lines 243-248. *)
Definition turn_export (turn : pyval) : result pyval :=
  if Py.hasattr turn "to_dict" then Py.call_method turn "to_dict"
  else if Py.is_dict turn then Ok turn
  else Ok PNone.

(** Lines 249-261 for a dict [d]. *)
Definition turn_dict_stage (d : list (string * pyval))
  : result (option pyval) :=
  items <- Py.iterate (Py.or_ (Py.dict_get d "output") (PList [])) ;;
  pieces <- turn_output_loop items [] ;;
  match pieces with
  | _ :: _ => Ok (Some (PStr (PyStr.join (String "010"%char "") pieces)))
  | [] =>
      match Py.dict_get d "text" with
      | PStr txt2 =>
          if PyStr.nonempty (PyStr.strip txt2)
          then Ok (Some (PStr txt2)) else Ok None
      | _ => Ok None
      end
  end.

(** The body of the [try] (lines 240-261). *)
Definition turn_stages (turn : pyval) : result (option pyval) :=
  let t := Py.getattr turn "output_text" in
  if Py.is_str t && PyStr.nonempty (PyStr.strip (Py.as_str t))
  then Ok (Some t)
  else
    d <- turn_export turn ;;
    match d with
    | PDict e => turn_dict_stage e
    | _ => Ok None
    end.

Definition _get_text_from_turn_like_notebook (turn : pyval) : result pyval :=
  match turn_stages turn with
  | Ok (Some text) => Ok text
  | Ok None | Raise _ => extract_output_text turn
  end.

End Extraction.

(* ================================================================= *)
(** ** The pipeline's pure steps (app.py, lines 274-278 and 296-512) *)

Definition nl : string := String "010"%char "".

(** The class [[\w-]] of the fence pattern's tag. *)
Definition tag_char (c : ascii) : bool :=
  PyStr.is_word c || Ascii.eqb c "-"%char.

(** The pattern [`{3,}[\w-]*]. *)
Definition fence_re : Re.regex :=
  [Re.Chr (Re.only backtick); Re.Chr (Re.only backtick);
   Re.Chr (Re.only backtick); Re.Star true (Re.only backtick);
   Re.Star true tag_char].

(** What is left of [s] behind a fence and its tag, for an [s] that
    starts with three backticks. *)
Definition after_fence (s : string) : string :=
  PyStr.lstrip_by tag_char
    (PyStr.lstrip_by (Re.only backtick) (PyStr.drop 3 s)).

(** The pattern [### JSON_START[\s\S]*?(\{[\s\S]*\})[\s\S]*?### JSON_END]. *)
Definition marker_re : Re.regex :=
  (Re.lit "### JSON_START"
   ++ [Re.Star false Re.anychar; Re.Open; Re.Chr (Re.only "{"%char);
       Re.Star true Re.anychar; Re.Chr (Re.only "}"%char); Re.Close;
       Re.Star false Re.anychar]
   ++ Re.lit "### JSON_END")%list.

(** The part of [marker_re] behind the greedy repetition, for a group
    opened at [p]: the closing brace, then the end marker somewhere
    after it. *)
Definition after_group (p : nat)
  : string -> nat -> option (nat * Re.caps) :=
  Re.run (Re.Chr (Re.only "}"%char) :: Re.Close :: Re.Star false Re.anychar
            :: Re.lit "### JSON_END")
         (Some p, None).

(** The pattern [### JSON_START]. *)
Definition start_marker_re : Re.regex := Re.lit "### JSON_START".

(** The pattern [```json\s*(\{[\s\S]*?\})\s*```]. *)
Definition fenced_json_re : Re.regex :=
  (Re.lit "```json"
   ++ [Re.Star true PyStr.is_space; Re.Open; Re.Chr (Re.only "{"%char);
       Re.Star false Re.anychar; Re.Chr (Re.only "}"%char); Re.Close;
       Re.Star true PyStr.is_space]
   ++ Re.lit "```")%list.

Definition anchor_key : string := "proposed_remediation_via_aap".

(** Lines 384-385: the working copy the JSON is searched in. *)
Definition normalize_for_json (raw_text : string) : string :=
  let raw_for_json := Re.sub_empty fence_re raw_text in
  PyStr.replace "<br>" nl (PyStr.replace "<br/>" nl raw_for_json).

(** Lines 418-420: [while i >= 0 and s[i] != '{': i -= 1], from [i]. *)
Fixpoint scan_back (s : string) (i : nat) : Z :=
  match String.get i s with
  | Some "{"%char => Z.of_nat i
  | _ => match i with
         | O => (-1)%Z
         | S i' => scan_back s i'
         end
  end.

(** Lines 425-434: [rest] is [s[j:]]; [Some end_idx] at the [break]. *)
Fixpoint scan_forward (rest : string) (j : nat) (brace : Z) : option nat :=
  match rest with
  | EmptyString => None
  | String ch rest' =>
      if Ascii.eqb ch "{"%char then scan_forward rest' (S j) (brace + 1)%Z
      else if Ascii.eqb ch "}"%char then
        let brace := (brace - 1)%Z in
        if (brace =? 0)%Z then Some (j + 1)
        else scan_forward rest' (S j) brace
      else scan_forward rest' (S j) brace
  end.

(** Lines 413-435: [start_idx] and [end_idx] of the candidate. *)
Definition candidate_bounds (raw_for_json : string) : nat * nat :=
  match PyStr.find anchor_key raw_for_json with
  | None => (0, String.length raw_for_json)
  | Some key_idx =>
      let i := scan_back raw_for_json key_idx in
      let start_idx := Z.to_nat (Z.max i 0) in
      match scan_forward (PyStr.drop start_idx raw_for_json) start_idx 0 with
      | Some end_idx => (start_idx, end_idx)
      | None => (start_idx, String.length raw_for_json)
      end
  end.

Section Pipeline.

(** Built-ins and [json], taken as they are. *)
Variable py_str : pyval -> string.
(** [json.dumps(v, ensure_ascii=False, separators=(",", ":"), default=str)]. *)
Variable json_dumps : pyval -> result string.
(** [json.dumps(v, indent=2)]. *)
Variable json_dumps_indent : pyval -> result string.
Variable json_loads : string -> result pyval.

Definition summarize_incident_payload (payload : pyval) : string :=
  match json_dumps payload with
  | Ok s => PyStr.take 4000 s
  | Raise _ => PyStr.take 4000 (py_str payload)
  end.

(** Lines 302-319. *)
Definition incident_question (payload : pyval) : string :=
  let incident_question :=
    match payload with
    | PStr maybe_q =>
        if PyStr.nonempty (PyStr.strip maybe_q) then PyStr.strip maybe_q
        else ""
    | PDict d =>
        let maybe_q :=
          Py.or_ (Py.or_ (Py.or_ (Py.or_ (Py.or_
            (Py.dict_get d "incident_question")
            (Py.dict_get d "question"))
            (Py.dict_get d "incident"))
            (Py.dict_get d "description"))
            (Py.dict_get d "short_description"))
            (PStr "") in
        if Py.is_str maybe_q && PyStr.nonempty (PyStr.strip (Py.as_str maybe_q))
        then PyStr.strip (Py.as_str maybe_q)
        else ""
    | _ => ""
    end in
  if PyStr.nonempty incident_question then incident_question
  else ("Please investigate the following incident." ++ nl)
         ++ summarize_incident_payload payload.

(** [try: x = json.loads(s) except Exception: x = None]. *)
Definition loads_or_none (s : string) : pyval :=
  match json_loads s with
  | Ok v => v
  | Raise _ => PNone
  end.

(** Lines 389-401: [rag_explanation] and [rag_json] after the marker
    search. *)
Definition marker_stage (raw_text raw_for_json : string) : string * pyval :=
  match Re.search marker_re raw_for_json with
  | Some m =>
      let json_str := PyStr.strip (Re.group1 raw_for_json m) in
      let rag_explanation :=
        match Re.search start_marker_re raw_text with
        | Some m2 => PyStr.strip (PyStr.take (Re.m_start m2) raw_text)
        | None => raw_text
        end in
      (rag_explanation, loads_or_none json_str)
  | None => (raw_text, PNone)
  end.

(** Lines 403-409, entered with [rag_json is None]. *)
Definition fenced_stage (raw_for_json : string) : pyval :=
  match Re.search fenced_json_re raw_for_json with
  | Some m_json => loads_or_none (PyStr.strip (Re.group1 raw_for_json m_json))
  | None => PNone
  end.

(** Lines 411-441, entered with [rag_json is None]. *)
Definition anchor_stage (raw_for_json : string) : pyval :=
  let '(start_idx, end_idx) := candidate_bounds raw_for_json in
  let candidate := PyStr.strip (PyStr.slice start_idx end_idx raw_for_json) in
  if PyStr.startswith "{" candidate && PyStr.endswith "}" candidate
  then loads_or_none candidate
  else PNone.

(** Lines 377-443: [(rag_explanation, rag_json)] for [raw_text]. *)
Definition split (raw_text : string) : string * pyval :=
  let raw_for_json := normalize_for_json raw_text in
  let '(rag_explanation, rag_json) := marker_stage raw_text raw_for_json in
  let rag_json :=
    if Py.is_none rag_json then fenced_stage raw_for_json else rag_json in
  let rag_json :=
    if Py.is_none rag_json then anchor_stage raw_for_json else rag_json in
  (rag_explanation, rag_json).

(** [html.escape(v)]: it calls [v.replace], which only a [str] has. *)
Definition escape_value (v : pyval) : result string :=
  match v with
  | PStr s => Ok (Html.escape s)
  | _ => Raise AttributeError
  end.

(** Lines 477-480. *)
Fixpoint collect_commands (steps : list pyval) (commands : list string)
  : result (list string) :=
  match steps with
  | [] => Ok commands
  | step :: rest =>
      cmd <- Py.get (Py.or_ step (PDict [])) "command" ;;
      match cmd with
      | PStr c =>
          if PyStr.nonempty (PyStr.strip c)
          then collect_commands rest (push commands (PyStr.strip c))
          else collect_commands rest commands
      | _ => collect_commands rest commands
      end
  end.

Definition li (text : string) : string := "<li>" ++ Html.escape text ++ "</li>".

Definition kb_text (item : pyval) : string :=
  PyStr.replace "canonical fallback" "project documentation" (py_str item).

Definition h_probable : string := "<h4>1) Probable cause</h4>".
Definition h_evidence : string := "<h4>2) Evidence mapping</h4>".
Definition h_next : string := "<h4>3) Next steps</h4>".
Definition h_proposed : string := "<h4>4) Proposed remediation via AAP</h4>".
Definition h_kb : string := "<h4>5) Key KB evidence</h4>".
Definition h_ref : string := "<h4>6) Reference document</h4>".

Definition pre_code (body : string) : string :=
  "<pre><code>" ++ body ++ "</code></pre>".

(** Lines 466-471. *)
Definition evidence_section (parts : list string) (evidence : pyval)
  : list string :=
  if Py.is_list evidence && Py.truthy evidence then
    (parts ++ [h_evidence; "<ul>"]
           ++ map (fun item => li (py_str item)) (Py.as_list evidence)
           ++ ["</ul>"])%list
  else parts.

(** Lines 474-483. *)
Definition next_steps_section (parts : list string) (next_steps : pyval)
  : result (list string) :=
  if Py.is_list next_steps && Py.truthy next_steps then
    let parts := push parts h_next in
    commands <- collect_commands (Py.as_list next_steps) [] ;;
    if Py.truthy_list commands then
      let cmd_block := Html.escape (PyStr.join nl commands) in
      Ok (push parts (pre_code cmd_block))
    else Ok parts
  else Ok parts.

(** Lines 486-492. *)
Definition proposed_section (parts : list string) (proposed : pyval)
  : list string :=
  if Py.is_dict proposed && Py.truthy proposed then
    let proposed_json_str :=
      match json_dumps_indent proposed with
      | Ok s => s
      | Raise _ => py_str proposed
      end in
    push (push parts h_proposed) (pre_code (Html.escape proposed_json_str))
  else parts.

(** Lines 495-502. *)
Definition kb_section (parts : list string) (kb : pyval) : list string :=
  if Py.is_list kb && Py.truthy kb then
    (parts ++ [h_kb; "<ul>"]
           ++ map (fun item => li (kb_text item)) (Py.as_list kb)
           ++ ["</ul>"])%list
  else parts.

(** Lines 505-507. *)
Definition ref_section (parts : list string) (ref_doc : pyval) : list string :=
  if Py.is_str ref_doc && PyStr.nonempty (PyStr.strip (Py.as_str ref_doc)) then
    push (push parts h_ref)
         ("<p><em>" ++ Html.escape (PyStr.strip (Py.as_str ref_doc))
                    ++ "</em></p>")
  else parts.

(** Lines 455-507: [rag_parts] for a dict [rag_json]. *)
Definition rag_parts (d : list (string * pyval)) : result (list string) :=
  let probable := Py.or_ (Py.dict_get d "probable_cause") (PStr "") in
  let evidence := Py.or_ (Py.dict_get d "evidence_mapping") (PList []) in
  let next_steps := Py.or_ (Py.dict_get d "next_steps") (PList []) in
  let proposed :=
    Py.or_ (Py.dict_get d "proposed_remediation_via_aap") (PDict []) in
  let kb := Py.or_ (Py.dict_get d "key_kb_evidence") (PList []) in
  let ref_doc := Py.or_ (Py.dict_get d "reference_document") (PStr "") in
  para <-
    (if Py.truthy probable then
       e <- escape_value probable ;; Ok ("<p>" ++ e ++ "</p>")
     else Ok "") ;;
  let parts := [h_probable; para] in
  let parts := evidence_section parts evidence in
  parts <- next_steps_section parts next_steps ;;
  let parts := proposed_section parts proposed in
  let parts := kb_section parts kb in
  let parts := ref_section parts ref_doc in
  Ok parts.

(** Lines 453-512: [rag_section_html]. *)
Definition rag_section_html (rag_json : pyval) (rag_explanation : string)
  : result string :=
  if Py.is_dict rag_json && Py.truthy rag_json then
    parts <- rag_parts (Py.as_dict rag_json) ;;
    Ok (PyStr.join nl (filter PyStr.nonempty parts))
  else
    Ok (render_simple_markdown_to_html
          (if PyStr.nonempty rag_explanation then rag_explanation
           else "(no formatted RAG text returned)")).

End Pipeline.

(* ================================================================= *)
(** ** A reference reading of [str], [json.dumps] and [json.loads]

    The functions of Python's library that the pipeline calls, on the
    values of [pyval]: used to run the pipeline on concrete inputs.
    The JSON reader covers texts whose numbers are integers and whose
    [\u] escapes stay below code point 256; it raises on others. *)

Module RefLib.

Definition hex_digit (n : nat) : ascii :=
  match n with
  | 0 => "0" | 1 => "1" | 2 => "2" | 3 => "3" | 4 => "4" | 5 => "5"
  | 6 => "6" | 7 => "7" | 8 => "8" | 9 => "9" | 10 => "a" | 11 => "b"
  | 12 => "c" | 13 => "d" | 14 => "e" | _ => "f"
  end%char.

Definition hex2 (c : ascii) : string :=
  let n := nat_of_ascii c in
  String (hex_digit (n / 16)) (String (hex_digit (n mod 16)) "").

Definition int_text (n : Z) : string := NilZero.string_of_int (Z.to_int n).

Definition chr (n : nat) : string := String (ascii_of_nat n) "".

(** [repr] of one character of a string quoted with [q]. *)
Definition repr_char (q c : ascii) : string :=
  let n := nat_of_ascii c in
  if Ascii.eqb c "\"%char then "\\"
  else if Ascii.eqb c q then String "\"%char (String q "")
  else if Nat.eqb n 9 then "\t"
  else if Nat.eqb n 10 then "\n"
  else if Nat.eqb n 13 then "\r"
  else if (Nat.ltb n 32) || (Nat.eqb n 127) || ((Nat.leb 128 n) && (Nat.leb n 160)) || (Nat.eqb n 173)
  then "\x" ++ hex2 c
  else String c "".

Fixpoint flat_map_str (f : ascii -> string) (s : string) : string :=
  match s with
  | EmptyString => EmptyString
  | String c s' => f c ++ flat_map_str f s'
  end.

Definition has_dquote (s : string) : bool :=
  PyStr.contains (String PyStr.dquote "") s.

(** [repr(s)] for a string. *)
Definition repr_str (s : string) : string :=
  let q :=
    if PyStr.contains "'" s && negb (has_dquote s)
    then PyStr.dquote else "'"%char in
  String q (flat_map_str (repr_char q) s) ++ String q "".

(** [repr(v)]; an object's text is the one it carries. *)
Fixpoint py_repr (v : pyval) : string :=
  match v with
  | PNone => "None"
  | PBool true => "True"
  | PBool false => "False"
  | PInt n => int_text n
  | PStr s => repr_str s
  | PList l => "[" ++ String.concat ", " (map py_repr l) ++ "]"
  | PDict d =>
      "{" ++ String.concat ", "
               (map (fun kv => match kv with
                               | (k, x) => repr_str k ++ ": " ++ py_repr x
                               end) d) ++ "}"
  | PObj text _ => text
  | PCall _ | PCallRaises _ => "<bound method>"
  end.

(** [str(v)]. *)
Definition py_str (v : pyval) : string :=
  match v with
  | PStr s => s
  | _ => py_repr v
  end.

(** One character of a JSON string; [ascii_only] is [ensure_ascii]. *)
Definition json_char (ascii_only : bool) (c : ascii) : string :=
  let n := nat_of_ascii c in
  if Ascii.eqb c PyStr.dquote then String "\"%char (String PyStr.dquote "")
  else if Ascii.eqb c "\"%char then "\\"
  else if Nat.eqb n 10 then "\n"
  else if Nat.eqb n 13 then "\r"
  else if Nat.eqb n 9 then "\t"
  else if Nat.eqb n 8 then "\b"
  else if Nat.eqb n 12 then "\f"
  else if (Nat.ltb n 32) || (ascii_only && (Nat.leb 127 n))
  then "\u00" ++ hex2 c
  else String c "".

Definition json_str (ascii_only : bool) (s : string) : string :=
  String PyStr.dquote (flat_map_str (json_char ascii_only) s)
  ++ String PyStr.dquote "".

(** [json.dumps(v, ensure_ascii=False, separators=(",", ":"),
    default=str)]: what is no JSON value goes through [str]. *)
Fixpoint dumps_compact (v : pyval) : string :=
  match v with
  | PNone => "null"
  | PBool true => "true"
  | PBool false => "false"
  | PInt n => int_text n
  | PStr s => json_str false s
  | PList l => "[" ++ String.concat "," (map dumps_compact l) ++ "]"
  | PDict d =>
      "{" ++ String.concat ","
               (map (fun kv => match kv with
                               | (k, x) => json_str false k ++ ":" ++ dumps_compact x
                               end) d) ++ "}"
  | PObj text _ => json_str false text
  | PCall _ | PCallRaises _ => json_str false "<bound method>"
  end.

Definition json_dumps (v : pyval) : result string := Ok (dumps_compact v).

Fixpoint spaces (n : nat) : string :=
  match n with
  | O => EmptyString
  | S n' => String " "%char (spaces n')
  end.

(** [json.dumps(v, indent=2)] at nesting depth [depth]; [None] when a
    value is not serializable. *)
Fixpoint dumps_indent (depth : nat) (v : pyval) : option string :=
  let fix items (l : list pyval) : option (list string) :=
    match l with
    | [] => Some []
    | x :: l' =>
        match dumps_indent (S depth) x, items l' with
        | Some t, Some ts => Some ((spaces (2 * S depth) ++ t) :: ts)
        | _, _ => None
        end
    end in
  let fix members (d : list (string * pyval)) : option (list string) :=
    match d with
    | [] => Some []
    | (k, x) :: d' =>
        match dumps_indent (S depth) x, members d' with
        | Some t, Some ts =>
            Some ((spaces (2 * S depth) ++ json_str true k ++ ": " ++ t) :: ts)
        | _, _ => None
        end
    end in
  match v with
  | PNone => Some "null"
  | PBool true => Some "true"
  | PBool false => Some "false"
  | PInt n => Some (int_text n)
  | PStr s => Some (json_str true s)
  | PList [] => Some "[]"
  | PList l =>
      match items l with
      | Some ts =>
          Some ("[" ++ nl ++ String.concat ("," ++ nl) ts ++ nl
                    ++ spaces (2 * depth) ++ "]")
      | None => None
      end
  | PDict [] => Some "{}"
  | PDict d =>
      match members d with
      | Some ts =>
          Some ("{" ++ nl ++ String.concat ("," ++ nl) ts ++ nl
                    ++ spaces (2 * depth) ++ "}")
      | None => None
      end
  | PObj _ _ | PCall _ | PCallRaises _ => None
  end.

Definition json_dumps_indent (v : pyval) : result string :=
  match dumps_indent 0 v with
  | Some s => Ok s
  | None => Raise TypeError
  end.

Definition is_json_ws (c : ascii) : bool :=
  let n := nat_of_ascii c in
  Nat.eqb n 32 || Nat.eqb n 9 || Nat.eqb n 10 || Nat.eqb n 13.

Definition skip_ws (s : string) : string := PyStr.lstrip_by is_json_ws s.

Definition digit_val (c : ascii) : option nat :=
  let n := nat_of_ascii c in
  if Nat.leb 48 n && Nat.leb n 57 then Some (n - 48) else None.

Definition hex_val (c : ascii) : option nat :=
  let n := nat_of_ascii c in
  if Nat.leb 48 n && Nat.leb n 57 then Some (n - 48)
  else if Nat.leb 97 n && Nat.leb n 102 then Some (n - 87)
  else if Nat.leb 65 n && Nat.leb n 70 then Some (n - 55)
  else None.

(** The longest run of digits, read in base ten onto [acc]. *)
Fixpoint read_digits (s : string) (acc : Z) : Z * string :=
  match s with
  | String c s' =>
      match digit_val c with
      | Some d => read_digits s' (10 * acc + Z.of_nat d)%Z
      | None => (acc, s)
      end
  | EmptyString => (acc, s)
  end.

Definition starts_fraction (s : string) : bool :=
  match s with
  | String c _ =>
      Ascii.eqb c "."%char || Ascii.eqb c "e"%char || Ascii.eqb c "E"%char
  | EmptyString => false
  end.

(** A JSON number that is an integer. *)
Definition read_number (s : string) : option (pyval * string) :=
  let '(neg, s1) :=
    match s with
    | String "-"%char r => (true, r)
    | _ => (false, s)
    end in
  match s1 with
  | String c r =>
      match digit_val c with
      | Some 0 =>
          if starts_fraction r then None else Some (PInt 0, r)
      | Some _ =>
          let '(n, r') := read_digits s1 0 in
          if starts_fraction r' then None
          else Some (PInt (if neg then (- n)%Z else n), r')
      | None => None
      end
  | EmptyString => None
  end.

Definition simple_escape (e : ascii) : option ascii :=
  if Ascii.eqb e PyStr.dquote then Some PyStr.dquote
  else if Ascii.eqb e "\"%char then Some "\"%char
  else if Ascii.eqb e "/"%char then Some "/"%char
  else if Ascii.eqb e "b"%char then Some (ascii_of_nat 8)
  else if Ascii.eqb e "f"%char then Some (ascii_of_nat 12)
  else if Ascii.eqb e "n"%char then Some (ascii_of_nat 10)
  else if Ascii.eqb e "r"%char then Some (ascii_of_nat 13)
  else if Ascii.eqb e "t"%char then Some (ascii_of_nat 9)
  else None.

Definition cons_char (c : ascii) (r : option (string * string))
  : option (string * string) :=
  match r with
  | Some (body, rest) => Some (String c body, rest)
  | None => None
  end.

(** The body of a JSON string, after its opening quote (strict mode:
    no control character). *)
Fixpoint read_string (s : string) : option (string * string) :=
  match s with
  | EmptyString => None
  | String c r =>
      if Ascii.eqb c PyStr.dquote then Some (EmptyString, r)
      else if Ascii.eqb c "\"%char then
        match r with
        | String e r' =>
            match simple_escape e with
            | Some x => cons_char x (read_string r')
            | None =>
                if Ascii.eqb e "u"%char then
                  match r' with
                  | String h1 (String h2 (String h3 (String h4 r''))) =>
                      match hex_val h1, hex_val h2, hex_val h3, hex_val h4 with
                      | Some 0, Some 0, Some a, Some b =>
                          cons_char (ascii_of_nat (16 * a + b)) (read_string r'')
                      | _, _, _, _ => None
                      end
                  | _ => None
                  end
                else None
            end
        | EmptyString => None
        end
      else if Nat.ltb (nat_of_ascii c) 32 then None
      else cons_char c (read_string r)
  end.

(** [d[k] = v]: a key keeps its first place. *)
Fixpoint dict_set (d : list (string * pyval)) (k : string) (v : pyval)
  : list (string * pyval) :=
  match d with
  | [] => [(k, v)]
  | (k', v') :: d' =>
      if String.eqb k k' then (k, v) :: d' else (k', v') :: dict_set d' k v
  end.

(** A JSON value at the head of [s] and what follows it. *)
Fixpoint read_value (fuel : nat) (s : string) : option (pyval * string) :=
  match fuel with
  | O => None
  | S fuel' =>
      let fix elements (n : nat) (s : string) (acc : list pyval)
        : option (pyval * string) :=
        match n with
        | O => None
        | S n' =>
            match read_value fuel' s with
            | Some (v, r) =>
                match skip_ws r with
                | String ","%char r' => elements n' (skip_ws r') (acc ++ [v])%list
                | String "]"%char r' => Some (PList (acc ++ [v])%list, r')
                | _ => None
                end
            | None => None
            end
        end in
      let fix members (n : nat) (s : string) (acc : list (string * pyval))
        : option (pyval * string) :=
        match n with
        | O => None
        | S n' =>
            match s with
            | String "034"%char r =>
                match read_string r with
                | Some (k, r1) =>
                    match skip_ws r1 with
                    | String ":"%char r2 =>
                        match read_value fuel' (skip_ws r2) with
                        | Some (v, r3) =>
                            match skip_ws r3 with
                            | String ","%char r4 =>
                                members n' (skip_ws r4) (dict_set acc k v)
                            | String "}"%char r4 =>
                                Some (PDict (dict_set acc k v), r4)
                            | _ => None
                            end
                        | None => None
                        end
                    | _ => None
                    end
                | None => None
                end
            | _ => None
            end
        end in
      match s with
      | String "{"%char r =>
          match skip_ws r with
          | String "}"%char r' => Some (PDict [], r')
          | r1 => members fuel' r1 []
          end
      | String "["%char r =>
          match skip_ws r with
          | String "]"%char r' => Some (PList [], r')
          | r1 => elements fuel' r1 []
          end
      | String "034"%char r =>
          match read_string r with
          | Some (body, r') => Some (PStr body, r')
          | None => None
          end
      | _ =>
          if prefix "true" s then Some (PBool true, PyStr.drop 4 s)
          else if prefix "false" s then Some (PBool false, PyStr.drop 5 s)
          else if prefix "null" s then Some (PNone, PyStr.drop 4 s)
          else read_number s
      end
  end.

Definition json_loads (s : string) : result pyval :=
  match read_value (S (String.length s)) (skip_ws s) with
  | Some (v, rest) =>
      if PyStr.is_empty (skip_ws rest) then Ok v else Raise ValueError
  | None => Raise ValueError
  end.

End RefLib.

(* ================================================================= *)
(** ** Vocabulary of the statements *)

(** A piece of an inline text: literal text, or the body of a code span. *)
Inductive piece : Type :=
| Plain (s : string)
| Code (s : string).

Definition piece_source (p : piece) : string :=
  match p with
  | Plain s => s
  | Code s => "`" ++ s ++ "`"
  end.

Definition piece_html (p : piece) : string :=
  match p with
  | Plain s => Html.escape s
  | Code s => "<code>" ++ Html.escape s ++ "</code>"
  end.

Fixpoint has_char (c : ascii) (s : string) : bool :=
  match s with
  | EmptyString => false
  | String x s' => Ascii.eqb x c || has_char c s'
  end.

(** [s] holds a complete code span: a backtick, a non-empty body without
    backticks, a backtick. *)
Definition has_span (s : string) : Prop :=
  exists a b c,
    s = a ++ "`" ++ b ++ "`" ++ c /\ b <> "" /\ has_char backtick b = false.

(** The scan for spans: the text before the first complete span is a
    literal piece, the span follows, and the scan goes on behind its
    closing backtick; a text without a complete span is one literal
    piece.  No span starts in [a] when [a] with the opening backtick
    holds no complete span. *)
Inductive scanned : string -> list piece -> Prop :=
| scanned_plain s : ~ has_span s -> scanned s [Plain s]
| scanned_span a b rest pieces :
    ~ has_span (a ++ "`") ->
    b <> "" -> has_char backtick b = false ->
    scanned rest pieces ->
    scanned (a ++ "`" ++ b ++ "`" ++ rest) (Plain a :: Code b :: pieces).

(** The length of the backtick-free text before the first backtick. *)
Fixpoint body_len (s : string) : option nat :=
  match s with
  | EmptyString => None
  | String c s' =>
      if Ascii.eqb backtick c then Some 0 else option_map S (body_len s')
  end.

(** The pieces the loop of [_render_inline_code_escaped] goes through,
    from offset [last] on, for the matches [ms]. *)
Fixpoint pieces_from (text : string) (ms : list Re.rmatch) (last : nat)
  : list piece :=
  match ms with
  | [] => [Plain (PyStr.drop last text)]
  | m :: ms' =>
      Plain (PyStr.slice last (Re.m_start m) text)
      :: Code (Re.group1 text m)
      :: pieces_from text ms' (Re.m_end m)
  end.

(** The pattern matches at no offset from [a] up to [b]. *)
Definition no_match_between (text : string) (a b : nat) : Prop :=
  forall q, a <= q < b ->
    Re.run inline_code_re (None, None) (PyStr.drop q text) q = None.

Definition entities : list string :=
  ["&amp;"; "&lt;"; "&gt;"; "&quot;"; "&#x27;"].

Definition code_tags : list string := ["<code>"; "</code>"].

(** Every [<], [>] and [&] of the text belongs to a character entity or
    to an inline-code tag. *)
Inductive markup_safe : string -> Prop :=
| safe_end : markup_safe ""
| safe_char c s :
    c <> "<"%char -> c <> ">"%char -> c <> "&"%char ->
    markup_safe s -> markup_safe (String c s)
| safe_entity e s : In e entities -> markup_safe s -> markup_safe (e ++ s)
| safe_tag t s : In t code_tags -> markup_safe s -> markup_safe (t ++ s).

(** An item that is a message with content. *)
Definition message_with_content (item : pyval) : bool :=
  Py.eq_str (Py.getattr item "type") "message"
  && Py.truthy (Py.getattr item "content").

Definition textless (c : pyval) : bool := negb (Py.truthy (Py.getattr c "text")).

(** An item the attribute scan passes without returning or raising. *)
Definition attr_silent (item : pyval) : bool :=
  negb (message_with_content item)
  || match Py.getattr item "content" with
     | PList cs => forallb textless cs
     | _ => false
     end.

Definition dict_textless (c : pyval) : bool :=
  match c with
  | PDict e => negb (Py.truthy (Py.dict_get e "text"))
  | _ => false
  end.

(** An item the dict scan passes without returning or raising. *)
Definition dict_silent (item : pyval) : bool :=
  match item with
  | PDict e =>
      negb (Py.eq_str (Py.dict_get e "type") "message")
      || match Py.lookup "content" e with
         | Some (PList cs) => forallb dict_textless cs
         | Some _ => false
         | None => true
         end
  | _ => false
  end.

(** The text a content entry contributes to the turn variant. *)
Definition entry_text (c : pyval) : list string :=
  match c with
  | PDict e =>
      if text_type (Py.dict_get e "type") then
        match Py.lookup "text" e with
        | Some (PStr txt) => if PyStr.nonempty txt then [txt] else []
        | _ => []
        end
      else []
  | _ => []
  end.

(** An output item of a dict export that the scan can walk: a mapping
    whose content is empty or can be iterated (a list, or a string or a
    mapping, whose characters and keys are no entries). *)
Definition turn_item_ok (item : pyval) : bool :=
  match item with
  | PDict e =>
      let content := Py.dict_get e "content" in
      negb (Py.truthy content) || Py.is_list content
      || Py.is_str content || Py.is_dict content
  | _ => false
  end.

(** The texts of all entries of all items, in order. *)
Definition collected_texts (items : list pyval) : list string :=
  flat_map
    (fun item =>
       flat_map entry_text
                (Py.as_list (Py.dict_get (Py.as_dict item) "content")))
    items.

(** The dict export of a turn: what [to_dict()] returns when the turn
    has that method, the turn itself when it is a mapping; [None] when
    there is no export, when it is no mapping and when [to_dict]
    raises. *)
Definition dict_export (turn : pyval) : option (list (string * pyval)) :=
  match turn with
  | PObj _ attrs =>
      match Py.lookup "to_dict" attrs with
      | Some (PCall (PDict e)) => Some e
      | _ => None
      end
  | PDict e => Some e
  | _ => None
  end.

(** The output items of an export, when they can be walked: the output
    is empty or a list, and every item can be walked. *)
Definition walked_items (e : list (string * pyval)) : option (list pyval) :=
  match Py.or_ (Py.dict_get e "output") (PList []) with
  | PList items => if forallb turn_item_ok items then Some items else None
  | _ => None
  end.

Definition incident_keys : list string :=
  ["incident_question"; "question"; "incident"; "description";
   "short_description"].

Definition fallback_question
    (py_str : pyval -> string) (json_dumps : pyval -> result string)
    (payload : pyval) : string :=
  ("Please investigate the following incident." ++ nl)
    ++ summarize_incident_payload py_str json_dumps payload.

Fixpoint all_chars (p : ascii -> bool) (s : string) : bool :=
  match s with
  | EmptyString => true
  | String c s' => p c && all_chars p s'
  end.

Definition non_word (c : ascii) : bool := negb (PyStr.is_word c).

(** The text is empty or starts with a character that is no word
    character. *)
Definition starts_nonword (s : string) : bool :=
  match s with
  | EmptyString => true
  | String c _ => non_word c
  end.

(** [edits s o]: [o] is [s] with some parts cut out, each before a
    character that is no word character (or at the end), and some parts
    replaced by text without word characters. *)
Inductive edits : string -> string -> Prop :=
| edit_end : edits "" ""
| edit_copy c s o : edits s o -> edits (String c s) (String c o)
| edit_cut d s o : starts_nonword s = true -> edits s o -> edits (d ++ s) o
| edit_put d ins s o :
    ins <> "" -> all_chars non_word ins = true -> edits s o ->
    edits (d ++ s) (ins ++ o).

(** No [}] of [t] has the end marker after it. *)
Fixpoint clean_tail (t : string) : bool :=
  match t with
  | EmptyString => true
  | String c t' =>
      negb (Ascii.eqb c "}"%char && PyStr.contains "### JSON_END" t')
      && clean_tail t'
  end.

(** The texts that a pattern matches as a whole. *)
Inductive matches : Re.regex -> string -> Prop :=
| matches_nil : matches [] ""
| matches_chr p r c s :
    p c = true -> matches r s -> matches (Re.Chr p :: r) (String c s)
| matches_star_stop b p r s :
    matches r s -> matches (Re.Star b p :: r) s
| matches_star_more b p r c s :
    p c = true -> matches (Re.Star b p :: r) s ->
    matches (Re.Star b p :: r) (String c s)
| matches_open r s : matches r s -> matches (Re.Open :: r) s
| matches_close r s : matches r s -> matches (Re.Close :: r) s.

(** The text holds, in this order, a start marker, a span from a [{]
    to a [}], and an end marker. *)
Definition marker_pattern (s : string) : Prop :=
  exists pre gap body mid post,
    s = pre ++ "### JSON_START" ++ gap ++ "{" ++ body ++ "}" ++ mid
            ++ "### JSON_END" ++ post.

(** A step of [next_steps] whose command can be read. *)
Definition step_ok (step : pyval) : bool :=
  negb (Py.truthy step) || Py.is_dict step.

(** Findings the report assembler renders without raising. *)
Definition findings_ok (d : list (string * pyval)) : bool :=
  let probable := Py.dict_get d "probable_cause" in
  let next_steps := Py.dict_get d "next_steps" in
  (negb (Py.truthy probable) || Py.is_str probable)
  && (negb (Py.is_list next_steps) || forallb step_ok (Py.as_list next_steps)).

(** A step that carries a command of more than white space. *)
Definition has_command (step : pyval) : bool :=
  match step with
  | PDict e =>
      match Py.dict_get e "command" with
      | PStr c => PyStr.nonempty (PyStr.strip c)
      | _ => false
      end
  | _ => false
  end.

(** The command a step contributes to the code block. *)
Definition command_of (step : pyval) : list string :=
  match step with
  | PDict e =>
      match Py.dict_get e "command" with
      | PStr c => if PyStr.nonempty (PyStr.strip c) then [PyStr.strip c] else []
      | _ => []
      end
  | _ => []
  end.

(** The part that follows the first occurrence of [h]. *)
Fixpoint part_after (h : string) (parts : list string) : option string :=
  match parts with
  | [] => None
  | p :: rest => if String.eqb p h then hd_error rest else part_after h rest
  end.

Definition is_heading (s : string) : bool := prefix "<h4>" s.

(** The paragraph of a probable cause that is a string, or the empty
    part. *)
Definition probable_para (probable : pyval) : string :=
  if Py.truthy probable
  then "<p>" ++ Html.escape (Py.as_str probable) ++ "</p>"
  else "".

(** The parts the next-steps section adds. *)
Definition next_parts (next_steps : pyval) : list string :=
  if Py.is_list next_steps && Py.truthy next_steps then
    h_next ::
    let commands := flat_map command_of (Py.as_list next_steps) in
    if Py.truthy_list commands
    then [pre_code (Html.escape (PyStr.join nl commands))]
    else []
  else [].

(** What [html.escape] writes for one character. *)
Definition escape_char (c : ascii) : string :=
  if Ascii.eqb c "&"%char then "&amp;"
  else if Ascii.eqb c "<"%char then "&lt;"
  else if Ascii.eqb c ">"%char then "&gt;"
  else if Ascii.eqb c PyStr.dquote then "&quot;"
  else if Ascii.eqb c "'"%char then "&#x27;"
  else String c "".

Definition nonempty_list (v : pyval) : bool := Py.is_list v && Py.truthy v.
Definition nonempty_dict (v : pyval) : bool := Py.is_dict v && Py.truthy v.
Definition nonblank_str (v : pyval) : bool :=
  Py.is_str v && PyStr.nonempty (PyStr.strip (Py.as_str v)).

(** A named section: its heading and its body when the field is there,
    nothing otherwise. *)
Definition section_parts
    (present : bool) (heading : string) (body : list string) : list string :=
  if present then heading :: body else [].

(** A paragraph and an emphasised paragraph of escaped text. *)
Definition paragraph (text : string) : string :=
  "<p>" ++ Html.escape text ++ "</p>".

Definition emphasised (text : string) : string :=
  "<p><em>" ++ Html.escape text ++ "</em></p>".

(** A list of escaped items. *)
Definition item_list (texts : list string) : list string :=
  (["<ul>"] ++ map li texts ++ ["</ul>"])%list.

(** The parts of the report, section by section: the Probable-cause
    heading with the paragraph of a cause that is not empty; the
    evidence as a list; the commands of the next steps as one code
    block, when there is a command; the proposed remediation, serialized,
    as a code block; the KB evidence as a list, [canonical fallback]
    reworded; the reference, trimmed, as an emphasised paragraph. *)
Definition report_sections
    (py_str : pyval -> string) (json_dumps_indent : pyval -> result string)
    (d : list (string * pyval)) : list string :=
  let probable := Py.dict_get d "probable_cause" in
  let evidence := Py.dict_get d "evidence_mapping" in
  let next_steps := Py.dict_get d "next_steps" in
  let proposed := Py.dict_get d "proposed_remediation_via_aap" in
  let kb := Py.dict_get d "key_kb_evidence" in
  let ref_doc := Py.dict_get d "reference_document" in
  (h_probable
   :: (if Py.truthy probable
       then [paragraph (Py.as_str probable)]
       else [])
   ++ section_parts (nonempty_list evidence) h_evidence
        (item_list (map py_str (Py.as_list evidence)))
   ++ section_parts (nonempty_list next_steps) h_next
        (if existsb has_command (Py.as_list next_steps)
         then [pre_code
                 (Html.escape
                    (PyStr.join nl
                       (flat_map command_of (Py.as_list next_steps))))]
         else [])
   ++ section_parts (nonempty_dict proposed) h_proposed
        [pre_code
           (Html.escape
              (match json_dumps_indent proposed with
               | Ok s => s
               | Raise _ => py_str proposed
               end))]
   ++ section_parts (nonempty_list kb) h_kb
        (item_list (map (kb_text py_str) (Py.as_list kb)))
   ++ section_parts (nonblank_str ref_doc) h_ref
        [emphasised (PyStr.strip (Py.as_str ref_doc))])%list.

(* ----------------------------------------------------------------- *)
(** *** The design document's wording, where the code is compared
        with it *)

Module Doc.

(** "scan in reverse; for the first item whose type tag equals message
    and whose content list is non-empty, scan its content entries in
    forward order and return the first non-empty text field found":
    that item alone decides. *)
Definition output_scan (items : list pyval) : option pyval :=
  match find message_with_content (List.rev items) with
  | Some item =>
      find (fun text => Py.truthy text)
           (map (fun c => Py.getattr c "text")
                (Py.as_list (Py.getattr item "content")))
  | None => None
  end.

(** The same rule on a dict mirror. *)
Definition dict_output_scan (items : list pyval) : option pyval :=
  match find (fun item =>
                Py.eq_str (Py.dict_get (Py.as_dict item) "type") "message"
                && Py.truthy (Py.dict_get (Py.as_dict item) "content"))
             (List.rev items) with
  | Some item =>
      find (fun text => Py.truthy text)
           (map (fun c => Py.dict_get (Py.as_dict c) "text")
                (Py.as_list (Py.dict_get (Py.as_dict item) "content")))
  | None => None
  end.

Definition nonempty_string (v : pyval) : bool :=
  Py.is_str v && Py.truthy v.

(** "the first non-empty string among the fields ..., probed in that
    priority order". *)
Definition first_nonempty_string (d : list (string * pyval))
  : option string :=
  match find nonempty_string (map (Py.dict_get d) incident_keys) with
  | Some v => Some (Py.as_str v)
  | None => None
  end.

(** "the prefix of the original text preceding that marker". *)
Definition marker_prefix (raw_text : string) : string :=
  match PyStr.find "### JSON_START" raw_text with
  | Some i => PyStr.take i raw_text
  | None => raw_text
  end.

End Doc.

(* ----------------------------------------------------------------- *)
(** *** Sample values *)

(** A text between double quotes. *)
Definition quoted (s : string) : string :=
  String PyStr.dquote s ++ String PyStr.dquote "".

(** A message item as an object, one content part per text. *)
Definition msg_obj (texts : list string) : pyval :=
  PObj "Message"
       [("type", PStr "message");
        ("content",
         PList (map (fun t => PObj "Part" [("text", PStr t)]) texts))].

(** The same as a dict. *)
Definition msg_dict (texts : list string) : pyval :=
  PDict [("type", PStr "message");
         ("content", PList (map (fun t => PDict [("text", PStr t)]) texts))].

(** A content entry of a turn export. *)
Definition text_entry (ty txt : string) : pyval :=
  PDict [("type", PStr ty); ("text", PStr txt)].

(** A turn result with a blank [output_text] and a [to_dict] export of
    two output items. *)
Definition sample_turn_export : list (string * pyval) :=
  [("output",
    PList [PDict [("content",
                   PList [text_entry "output_text" "first";
                          text_entry "tool" "skipped";
                          text_entry "text" "second"])];
           PDict [("content", PList [text_entry "text" "third"])]])].

Definition sample_turn : pyval :=
  PObj "Turn" [("output_text", PStr "  ");
               ("to_dict", PCall (PDict sample_turn_export))].

(** Findings with a cause, two steps (one with a command) and a
    reference. *)
Definition sample_findings : list (string * pyval) :=
  [("probable_cause", PStr "disk full");
   ("next_steps",
    PList [PDict [("command", PStr " df -h ")];
           PDict [("description", PStr "look at the node")]]);
   ("reference_document", PStr "runbook")].

(** Findings that hold only steps without commands. *)
Definition steps_without_commands : list (string * pyval) :=
  [("next_steps", PList [PDict [("description", PStr "check the logs")]])].

(** The worked example of the renderer. *)
Definition worked_example : string :=
  "* step one" ++ nl ++ nl ++ "```" ++ nl ++ "kubectl get pods" ++ nl ++ "```".

(** A JSON object with a probable cause. *)
Definition json_cause (cause : string) : string :=
  "{" ++ quoted "probable_cause" ++ ": " ++ quoted cause ++ "}".

(** A start and end marker around one JSON object, then a fenced block
    tagged json around another. *)
Definition marker_then_fence (region : string) : string :=
  "intro ### JSON_START" ++ nl ++ region ++ nl ++ "### JSON_END" ++ nl
  ++ "```json" ++ nl ++ json_cause "other" ++ nl ++ "```".

(** A JSON object whose string holds a fenced command. *)
Definition json_fenced_command : string :=
  "{" ++ quoted "fix" ++ ": " ++ quoted "run ```oc get pods```" ++ "}".

(** A start marker with no end marker behind it. *)
Definition start_without_end : string := "intro ### JSON_START {broken".

(** A marker region that holds no JSON. *)
Definition broken_region : string :=
  "intro ### JSON_START {broken} ### JSON_END tail".

(* ================================================================= *)
(** * Configuration, model selection and the Confluence ingestor

    The functions of [app.py] that read the environment and pick the
    model and the MCP server, the filter of the pseudo tool calls, and
    [confluence_ingestor/ingest_conf.py] with its [main].

    Conventions, besides the ones above.
    - The process environment is a function from names to values,
      [None] for a variable that is not set.
    - A function that raises [RuntimeError] returns an [outcome].
    - What a server answers is a parameter of the function that asks,
      and so is what a library function does. *)

(* ================================================================= *)
(** ** Further [str] operations *)

Module PyText.

(** [s.split(sep)] for a one-character [sep]: [field] is the field
    read so far. *)
Fixpoint split_from (sep : ascii) (field s : string) : list string :=
  match s with
  | EmptyString => [field]
  | String c s' =>
      if Ascii.eqb c sep then field :: split_from sep EmptyString s'
      else split_from sep (field ++ String c EmptyString) s'
  end.

Definition split (sep : ascii) (s : string) : list string :=
  split_from sep EmptyString s.

(** [s.rstrip(c)] for a one-character [c]. *)
Definition rstrip_char (c : ascii) (s : string) : string :=
  PyStr.rstrip_by (Ascii.eqb c) s.

(** [c.lower()]: the capital letters of Latin-1 are A to Z and the
    code points 192 to 222 without the multiplication sign. *)
Definition lower_char (c : ascii) : ascii :=
  let n := PyStr.code c in
  if ((65 <=? n) && (n <=? 90)
      || (192 <=? n) && (n <=? 222) && negb (n =? 215))%N
  then ascii_of_N (n + 32) else c.

(** [s.lower()]. *)
Fixpoint lower (s : string) : string :=
  match s with
  | EmptyString => EmptyString
  | String c s' => String (lower_char c) (lower s')
  end.

(** [str(n)] for an [int]. *)
Definition int_str (n : Z) : string := NilZero.string_of_int (Z.to_int n).

(** [[f(s) for s in raw.split(",") if s.strip()]] with [f = strip]:
    the comprehension of [get_vector_store_ids] and of [main]. *)
Definition comma_fields (raw : string) : list string :=
  map PyStr.strip
      (filter (fun s => PyStr.nonempty (PyStr.strip s)) (split ","%char raw)).

End PyText.

(* ================================================================= *)
(** ** Substitution ([re.sub]) *)

Module ReSub.

(** [re.sub(r, repl, s)] through the matches of [finditer], for a
    pattern that matches no empty text and a replacement without
    escapes. *)
Fixpoint replace_spans
    (repl : string) (ms : list Re.rmatch) (last : nat) (s : string)
  : string :=
  match ms with
  | [] => PyStr.drop last s
  | m :: ms' =>
      PyStr.slice last (Re.m_start m) s
      ++ repl ++ replace_spans repl ms' (Re.m_end m) s
  end.

Definition sub (r : Re.regex) (repl s : string) : string :=
  replace_spans repl (Re.finditer r s) 0 s.

End ReSub.

(* ================================================================= *)
(** ** The environment (app.py, lines 35-39) *)

Definition environ : Type := string -> option string.

(** [os.getenv(name, default)]. *)
Definition getenv (env : environ) (name : string) (default : option string)
  : option string :=
  match env name with
  | Some v => Some v
  | None => default
  end.

(** [os.getenv(name, default)] for a [default] that is a string. *)
Definition getenv_str (env : environ) (name default : string) : string :=
  match env name with
  | Some v => v
  | None => default
  end.

(** [bool(v)] for a value that is [None] or a string. *)
Definition truthy_text (v : option string) : bool :=
  match v with
  | Some s => PyStr.nonempty s
  | None => false
  end.

(** [a or b] for such values. *)
Definition or_else (a b : option string) : option string :=
  if truthy_text a then a else b.

(** [a or b] for a string [b]. *)
Definition or_text (a : option string) (b : string) : string :=
  match a with
  | Some s => if PyStr.nonempty s then s else b
  | None => b
  end.

Definition _get_env_optional
    (env : environ) (name : string) (default : option string)
  : option string :=
  match getenv env name default with
  | None => None
  | Some value =>
      if PyStr.nonempty (PyStr.strip value) then Some (PyStr.strip value)
      else default
  end.

(** What a function returns, or the message of the [RuntimeError] it
    raises. *)
Inductive outcome (A : Type) : Type :=
| Returns (a : A)
| RuntimeError (msg : string).

Arguments Returns {A} a.
Arguments RuntimeError {A} msg.

(* ================================================================= *)
(** ** The access-log filter (app.py, lines 25-30) *)

(** [SuppressHealthzFilter.filter] on the message of the record. *)
Definition SuppressHealthzFilter_filter (msg : string) : bool :=
  if PyStr.contains "GET /healthz" msg || PyStr.contains " /healthz " msg
  then false else true.

(* ================================================================= *)
(** ** Client, model and vector stores (app.py, lines 110-147) *)

Definition default_base_url : string :=
  "http://lsd-llama-milvus-inline-service.default.svc.cluster.local:8321".

(** [base_url] of [get_client] (lines 112-113). *)
Definition base_url (env : environ) : string :=
  PyText.rstrip_char "/"%char
    (or_text (_get_env_optional env "LLAMA_BASE_URL" None) default_base_url).

(** [next((m for m in models if p(m)), None)]. *)
Definition next_or_none (p : pyval -> bool) (models : list pyval) : pyval :=
  match find p models with
  | Some m => m
  | None => PNone
  end.

(** [getattr(m, "identifier", None) or getattr(m, "model_id", None)]. *)
Definition model_name (m : pyval) : pyval :=
  Py.or_ (Py.getattr m "identifier") (Py.getattr m "model_id").

Definition is_llm (m : pyval) : bool :=
  Py.eq_str (Py.getattr m "model_type") "llm".

Definition is_vllm_llm (m : pyval) : bool :=
  Py.eq_str (Py.getattr m "model_type") "llm"
  && Py.eq_str (Py.getattr m "provider_id") "vllm-inference".

(** Lines 126-132, for [models = list(client.models.list())]. *)
Definition auto_select (models : list pyval) : outcome pyval :=
  let preferred := next_or_none is_vllm_llm models in
  if Py.truthy preferred then Returns (model_name preferred)
  else
    let generic := next_or_none is_llm models in
    if negb (Py.truthy generic)
    then RuntimeError "No LLM models available on Llama Stack"
    else Returns (model_name generic).

(** [preferred_id] of line 119. *)
Definition preferred_model_id (env : environ) : option string :=
  or_else (_get_env_optional env "MODEL_ID" None)
          (_get_env_optional env "PREFERRED_MODEL_ID" None).

Definition select_model (env : environ) (models : list pyval)
  : outcome pyval :=
  match preferred_model_id env with
  | Some id =>
      if PyStr.nonempty id then
        let selected :=
          next_or_none (fun m => Py.eq_str (model_name m) id) models in
        if Py.truthy selected then Returns (model_name selected)
        else auto_select models
      else auto_select models
  | None => auto_select models
  end.

(** The body of [get_vector_store_ids]; the cache around it keeps the
    result of the first call. *)
Definition get_vector_store_ids (env : environ) : list string :=
  let raw := or_text (_get_env_optional env "VECTOR_STORE_IDS" (Some "")) "" in
  let ids := if PyStr.nonempty raw then PyText.comma_fields raw else [] in
  if Py.truthy_list ids then ids
  else
    let single := or_text (_get_env_optional env "VECTOR_DB_ID" (Some "")) "" in
    if PyStr.nonempty single then [single] else [].

(* ================================================================= *)
(** ** The MCP server and the prompts (app.py, lines 167-194, 226-230
       and 267-271) *)

Section Config.

(** [str(v)], a built-in. *)
Variable py_str : pyval -> string.

(** [getattr(v, name)] without a default. *)
Definition attr (v : pyval) (name : string) : result pyval :=
  if Py.hasattr v name then Ok (Py.getattr v name) else Raise AttributeError.

(** The body of the [try] (lines 177-187): [Some url] when [server_url]
    is assigned, for the [client] that [get_client()] returns or the
    exception it raises. *)
Definition discover_mcp_url (env : environ) (client : result pyval)
  : result (option string) :=
  client <- client ;;
  let toolgroup_id :=
    or_text (_get_env_optional env "MCP_TOOLGROUP_ID" (Some "mcp::kubernetes"))
            "mcp::kubernetes" in
  toolgroups <- attr client "toolgroups" ;;
  listed <- Py.call_method toolgroups "list" ;;
  groups <- Py.iterate listed ;;
  let tg :=
    next_or_none
      (fun g => Py.eq_str (Py.getattr g "identifier") toolgroup_id) groups in
  let mcp := if Py.truthy tg then Py.getattr tg "mcp_endpoint" else PNone in
  let uri := if Py.is_none mcp then PNone else Py.getattr mcp "uri" in
  uri <- (if negb (Py.truthy uri) && Py.is_dict mcp
          then Py.get mcp "uri" else Ok uri) ;;
  if Py.truthy uri then Ok (Some (py_str uri)) else Ok None.

Definition mcp_not_configured : string :=
  "MCP server URL not configured. Set MCP_SERVER_URL/REMOTE_OCP_MCP_URL or ensure toolgroup discovery works.".

(** [server_url] of line 174. *)
Definition configured_mcp_url (env : environ) : option string :=
  or_else (_get_env_optional env "MCP_SERVER_URL" None)
          (_get_env_optional env "REMOTE_OCP_MCP_URL" None).

Definition get_mcp_server (env : environ) (client : result pyval)
  : outcome (string * string) :=
  let server_url := configured_mcp_url env in
  let server_url :=
    if negb (truthy_text server_url) then
      match discover_mcp_url env client with
      | Ok (Some url) => Some url
      | Ok None => server_url
      | Raise _ => None
      end
    else server_url in
  match server_url with
  | Some url =>
      if PyStr.nonempty url then
        let server_label :=
          or_text (_get_env_optional env "MCP_SERVER_LABEL"
                                     (Some "kubernetes-mcp"))
                  "kubernetes-mcp" in
        Returns (PyText.rstrip_char "/"%char url, server_label)
      else RuntimeError mcp_not_configured
  | None => RuntimeError mcp_not_configured
  end.

End Config.

Definition mcp_prompt_missing : string :=
  "K8S_MCP_AGENT_PROMPT (or MCP_PROMPT) is not set. Edit ConfigMap k8-diagnostics-agent-prompts (key: k8s_mcp_agent_prompt) and redeploy.".

Definition build_mcp_instructions (env : environ) : outcome string :=
  let prompt :=
    or_else (_get_env_optional env "K8S_MCP_AGENT_PROMPT" None)
            (_get_env_optional env "MCP_PROMPT" None) in
  match prompt with
  | Some p => if PyStr.nonempty p then Returns p
              else RuntimeError mcp_prompt_missing
  | None => RuntimeError mcp_prompt_missing
  end.

Definition rag_prompt_missing : string :=
  "RAG_CORRELATION_AGENT_PROMPT (or RAG_PROMPT) is not set. Edit ConfigMap k8-diagnostics-agent-prompts (key: rag_correlation_agent_prompt) and redeploy.".

Definition build_rag_correlation_instructions (env : environ)
  : outcome string :=
  let prompt :=
    or_else (_get_env_optional env "RAG_CORRELATION_AGENT_PROMPT" None)
            (_get_env_optional env "RAG_PROMPT" None) in
  match prompt with
  | Some p => if PyStr.nonempty p then Returns p
              else RuntimeError rag_prompt_missing
  | None => RuntimeError rag_prompt_missing
  end.

(* ================================================================= *)
(** ** The pseudo tool calls (app.py, lines 339-346) *)

(** The class [[A-Za-z_]]. *)
Definition is_name_char (c : ascii) : bool :=
  let n := PyStr.code c in
  ((65 <=? n) && (n <=? 90) || (97 <=? n) && (n <=? 122) || (n =? 95))%N.

(** The pattern [^\s*\[[A-Za-z_]+\(], matched at the start of a line. *)
Definition tool_call_re : Re.regex :=
  [Re.Star true PyStr.is_space; Re.Chr (Re.only "["%char);
   Re.Chr is_name_char; Re.Star true is_name_char;
   Re.Chr (Re.only "("%char)].

(** [re.match(r, s)] as a truth value. *)
Definition re_match (r : Re.regex) (s : string) : bool :=
  match Re.run r (None, None) s 0 with
  | Some _ => true
  | None => false
  end.

(** The test of line 342. *)
Definition is_tool_call_echo (ln : string) : bool :=
  re_match tool_call_re ln && PyStr.endswith ")" (PyStr.strip ln).

(** Lines 339-346 for the text [mcp_findings]. *)
Definition drop_tool_call_echoes (mcp_findings : string) : string :=
  let lines := PyStr.splitlines mcp_findings in
  let cleaned := filter (fun ln => negb (is_tool_call_echo ln)) lines in
  PyStr.strip (PyStr.join nl cleaned).

(* ================================================================= *)
(** ** The Confluence ingestor (ingest_conf.py) *)

(** The body of [build_cql] (lines 55-60) for a [space_key] with the
    truth value [keyed] and the text [space_key]. *)
Definition cql_of
    (keyed : bool) (space_key : string) (labels : list string)
    (since_hours : Z) : string :=
  let parts := ["type=page"] in
  let parts :=
    if (0 <? since_hours)%Z
    then push parts ("lastmodified > now("
                     ++ quoted ("-" ++ PyText.int_str since_hours ++ "h")
                     ++ ")")
    else parts in
  let parts :=
    if keyed
    then push parts ("space=" ++ quoted space_key) else parts in
  let parts :=
    match labels with
    | [] => parts
    | _ :: _ =>
        push parts
             ("(" ++ PyStr.join " OR "
                       (map (fun l => "label=" ++ quoted l) labels)
                  ++ ")")
    end in
  PyStr.join " and " parts.

(** [build_cql] for a [space_key] that is a [str]. *)
Definition build_cql
    (space_key : string) (labels : list string) (since_hours : Z) : string :=
  cql_of (PyStr.nonempty space_key) space_key labels since_hours.

(** The pattern [\s+\n]. *)
Definition space_newline_re : Re.regex :=
  [Re.Chr PyStr.is_space; Re.Star true PyStr.is_space;
   Re.Chr (Re.only "010"%char)].

(** The pattern [\n{3,}]. *)
Definition newlines_re : Re.regex :=
  [Re.Chr (Re.only "010"%char); Re.Chr (Re.only "010"%char);
   Re.Chr (Re.only "010"%char); Re.Star true (Re.only "010"%char)].

(** Lines 86-88, for the text [md] that the converter returns. *)
Definition tidy_markdown (md : string) : string :=
  let md := ReSub.sub space_newline_re nl md in
  let md := ReSub.sub newlines_re (nl ++ nl) md in
  PyStr.strip md.

Section Markdown.

(** [markdownify(html, strip=["script", "style"])], a library. *)
Variable html2md : pyval -> result string.

Definition html_to_markdown (html : pyval) : result string :=
  md <- html2md (Py.or_ html (PStr "")) ;;
  Ok (tidy_markdown md).

End Markdown.

(** [f.get("status") not in ("completed", "Complete", "succeeded",
    "Succeeded")], negated. *)
Definition status_done (status : pyval) : bool :=
  Py.eq_str status "completed" || Py.eq_str status "Complete"
  || Py.eq_str status "succeeded" || Py.eq_str status "Succeeded".

(** The comprehension of line 103. *)
Fixpoint failed_files (files : list pyval) : result (list pyval) :=
  match files with
  | [] => Ok []
  | f :: rest =>
      status <- Py.get f "status" ;;
      failed <- failed_files rest ;;
      Ok (if status_done status then failed else f :: failed)
  end.

(** The loop of lines 108-113: what is read of each failed file. *)
Fixpoint report_failed (failed : list pyval) : result unit :=
  match failed with
  | [] => Ok tt
  | f :: rest =>
      fid <- Py.get f "id" ;;
      status <- Py.get f "status" ;;
      last_err <- Py.get f "last_error" ;;
      attributes <- Py.get f "attributes" ;;
      title <- Py.get (Py.or_ attributes (PDict [])) "title" ;;
      report_failed rest
  end.

(** Lines 101-115, for the payload of the response. *)
Definition verify_payload (payload : pyval) : result bool :=
  files <- Py.get_default payload "data" (PList []) ;;
  listed <- Py.iterate files ;;
  failed <- failed_files listed ;;
  match failed with
  | [] => Ok true
  | _ :: _ => _ <- report_failed failed ;; Ok false
  end.

(** [verify_vector_store], for what the request gives: [None] when the
    request or its status check raises, else the body that [json()]
    returns or the exception it raises. *)
Definition verify_vector_store (response : option (result pyval))
  : result bool :=
  match response with
  | None => Ok false
  | Some body => payload <- body ;; verify_payload payload
  end.

(** How a paging loop ends: it returns, it raises, or it still runs
    when the fuel is spent, about to ask for [start]. *)
Inductive ending : Type :=
| Finished
| Raised (e : exn)
| Unfinished (start : nat).

(** [r.json().get("results", [])] for the body of a response. *)
Definition results_of (body : result pyval) : result pyval :=
  payload <- body ;;
  Py.get_default payload "results" (PList []).

(** [conf_search_pages] (lines 62-82): the items it yields and how it
    ends; [get start] is the body of the response to the request with
    that [start]. *)
Fixpoint conf_search_pages
    (fuel : nat) (get : nat -> result pyval) (limit : Z) (start : nat)
  : list pyval * ending :=
  match fuel with
  | O => ([], Unfinished start)
  | S fuel' =>
      match results_of (get start) with
      | Raise e => ([], Raised e)
      | Ok results =>
          if negb (Py.truthy results) then ([], Finished)
          else
            match Py.iterate results with
            | Raise e => ([], Raised e)
            | Ok items =>
                if (Z.of_nat (List.length items) <? limit)%Z
                then (items, Finished)
                else
                  let '(more, e) :=
                    conf_search_pages fuel' get limit
                                      (start + List.length items) in
                  ((items ++ more)%list, e)
            end
      end
  end.

Section Spaces.

Variable py_str : pyval -> string.

(** The test of line 49. *)
Definition space_matches (space_name : string) (sp : pyval) : result bool :=
  name <- Py.get_default sp "name" (PStr "") ;;
  Ok (String.eqb (PyText.lower (PyStr.strip (py_str name)))
                 (PyText.lower (PyStr.strip space_name))).

(** The loop of lines 48-50: [Some key] at the [return]. *)
Fixpoint scan_spaces (space_name : string) (results : list pyval)
  : result (option pyval) :=
  match results with
  | [] => Ok None
  | sp :: rest =>
      found <- space_matches space_name sp ;;
      if found then key <- Py.get sp "key" ;; Ok (Some key)
      else scan_spaces space_name rest
  end.

(** [resolve_space_key_by_name] (lines 40-53): [None] when the fuel
    is spent. *)
Fixpoint resolve_space_key_by_name
    (fuel : nat) (get : nat -> result pyval) (space_name : string)
    (start : nat)
  : option (result pyval) :=
  match fuel with
  | O => None
  | S fuel' =>
      match (results <- results_of (get start) ;;
             listed <- Py.iterate results ;;
             found <- scan_spaces space_name listed ;;
             Ok (found, List.length listed)) with
      | Raise e => Some (Raise e)
      | Ok (Some key, _) => Some (Ok key)
      | Ok (None, n) =>
          if Nat.ltb n 50 then Some (Ok PNone)
          else resolve_space_key_by_name fuel' get space_name (start + n)
      end
  end.

End Spaces.

(* ================================================================= *)
(** ** The ingest run (ingest_conf.py, [main], lines 118-213) *)

(** [Document(document_id=..., content=..., mime_type=..., metadata=...)],
    a class of the client library: the record of its arguments. *)
Record Document : Type := mkDocument {
  document_id : string;
  content : string;
  mime_type : string;
  metadata : list (string * pyval)
}.

(** The variables of the loop of lines 165-201, and [calls]: the lists
    handed to [insert] so far, each as it was at the call. *)
Record batching : Type := mkBatching {
  documents : list Document;
  prepared : nat;
  inserted : nat;
  first_title : pyval;
  calls : list (list Document)
}.

(** How [main] ends: it returns an exit code, it raises, or it still
    runs when the fuel of a paging loop is spent. *)
Inductive main_ending : Type :=
| Exit (code : Z)
| Throws (e : exn)
| ThrowsStopIteration
| NoEnd.

(** The generator of line 144 up to its first item: [None] when it
    ends without one, where [next] raises [StopIteration]. *)
Fixpoint next_embedding (models : list pyval) : result (option pyval) :=
  match models with
  | [] => Ok None
  | m :: rest =>
      model_type <- attr m "model_type" ;;
      if Py.eq_str model_type "embedding" then Ok (Some m)
      else next_embedding rest
  end.

(** The four variables of line 129 with their values. *)
Definition required (env : environ) : list (string * string) :=
  [("CONF_CLOUD_ID", PyStr.strip (getenv_str env "CONF_CLOUD_ID" ""));
   ("CONF_USER", PyStr.strip (getenv_str env "CONF_USER" ""));
   ("CONF_API_TOKEN", PyStr.strip (getenv_str env "CONF_API_TOKEN" ""));
   ("SPACE_NAME", PyStr.strip (getenv_str env "SPACE_NAME" ""))].

(** [missing] of line 129. *)
Definition missing (env : environ) : list string :=
  map fst (filter (fun nv => negb (PyStr.nonempty (snd nv))) (required env)).

Section Ingest.

(** [str(v)] and [int(text)], built-ins. *)
Variable py_str : pyval -> string.
Variable py_int : string -> result Z.

(** [markdownify(html, strip=["script", "style"])], a library. *)
Variable html2md : pyval -> result string.

(** Lines 139-140: [float] of the text, the number 180 for [None],
    and the client made with it for the base URL. *)
Variable connect : string -> option string -> result unit.

(** [client.models.list()]. *)
Variable models_list : result pyval.

(** The body of the response to the request for the spaces from
    [start], and to the search with a query from [start]. *)
Variable spaces : nat -> result pyval.
Variable search : string -> nat -> result pyval.

(** [client.tool_runtime.rag_tool.insert] for a vector store and a
    list of documents, after the calls made before. *)
Variable insert : list (list Document) -> string -> list Document
                  -> result unit.

(** The response to the request for the files of a vector store, as
    [verify_vector_store] takes it, for the URL. *)
Variable files : string -> option (result pyval).

(** [int(text or d)] of lines 125 and 127. *)
Definition int_or (text : option string) (d : Z) : result Z :=
  match text with
  | Some s => if PyStr.nonempty s then py_int s else Ok d
  | None => Ok d
  end.

(** Lines 171-187: the title and the document of a page, [None] at
    the [continue]. *)
Definition page_document (conf_cloud_id : string) (page : pyval)
  : result (option (pyval * Document)) :=
  page_id <- Py.get page "id" ;;
  title <- Py.get_default page "title" (PStr "") ;;
  body <- Py.get page "body" ;;
  export_view <- Py.get (Py.or_ body (PDict [])) "export_view" ;;
  value <- Py.get (Py.or_ export_view (PDict [])) "value" ;;
  let body_html := Py.or_ value (PStr "") in
  md <- html_to_markdown html2md body_html ;;
  if negb (PyStr.nonempty md) then Ok None
  else
    let md_body := if PyStr.nonempty md then md else "" in
    let md_with_title :=
      PyStr.strip ("# " ++ py_str title ++ nl ++ nl ++ md_body) in
    space <- Py.get page "space" ;;
    space_key <- Py.get (Py.or_ space (PDict [])) "key" ;;
    Ok (Some
          (title,
           mkDocument
             ("conf-" ++ py_str page_id)
             md_with_title
             "text/markdown"
             [("source", PStr "confluence");
              ("source_url",
               PStr ("https://api.atlassian.com/ex/confluence/"
                     ++ conf_cloud_id ++ "/wiki/rest/api/content/"
                     ++ py_str page_id));
              ("title", title);
              ("space_key", Py.or_ space_key (PStr ""))])).

(** The call of [insert] and the addition to [inserted] (lines 194-195
    and 200-201). *)
Definition insert_documents (vdb_id : string) (st : batching)
  : batching * result unit :=
  let called :=
    mkBatching (documents st) (prepared st) (inserted st) (first_title st)
               (calls st ++ [documents st])%list in
  match insert (calls st) vdb_id (documents st) with
  | Raise e => (called, Raise e)
  | Ok _ =>
      (mkBatching (documents st) (prepared st)
                  (inserted st + List.length (documents st))
                  (first_title st) (calls called),
       Ok tt)
  end.

(** [documents.clear()]. *)
Definition clear (st : batching) : batching :=
  mkBatching [] (prepared st) (inserted st) (first_title st) (calls st).

(** The body of the loop (lines 171-195) for one page. *)
Definition ingest_page
    (conf_cloud_id : string) (batch_size : Z) (vdb_id : string)
    (st : batching) (page : pyval)
  : batching * result unit :=
  match page_document conf_cloud_id page with
  | Raise e => (st, Raise e)
  | Ok None => (st, Ok tt)
  | Ok (Some (title, doc)) =>
      let st :=
        mkBatching
          (documents st ++ [doc])%list
          (prepared st + 1)
          (inserted st)
          (if Py.is_none (first_title st) && Py.truthy title
           then title else first_title st)
          (calls st) in
      if (batch_size <=? Z.of_nat (List.length (documents st)))%Z
      then
        match insert_documents vdb_id st with
        | (st, Ok _) => (clear st, Ok tt)
        | (st, Raise e) => (st, Raise e)
        end
      else (st, Ok tt)
  end.

(** The loop over the pages that the generator yields. *)
Fixpoint ingest_pages
    (conf_cloud_id : string) (batch_size : Z) (vdb_id : string)
    (pages : list pyval) (st : batching)
  : batching * result unit :=
  match pages with
  | [] => (st, Ok tt)
  | page :: rest =>
      match ingest_page conf_cloud_id batch_size vdb_id st page with
      | (st, Ok _) => ingest_pages conf_cloud_id batch_size vdb_id rest st
      | (st, Raise e) => (st, Raise e)
      end
  end.

(** Lines 165-201: the loop over the pages of the search, which ends
    as the generator does unless the body raises first, and the final
    batch. *)
Definition ingest
    (fuel : nat) (conf_cloud_id : string) (batch_size : Z)
    (vdb_id cql : string)
  : batching * ending :=
  let '(pages, generator) := conf_search_pages fuel (search cql) 50 0 in
  match ingest_pages conf_cloud_id batch_size vdb_id pages
                     (mkBatching [] 0 0 PNone []) with
  | (st, Raise e) => (st, Raised e)
  | (st, Ok _) =>
      match generator with
      | Finished =>
          match documents st with
          | [] => (st, Finished)
          | _ :: _ =>
              match insert_documents vdb_id st with
              | (st, Ok _) => (st, Finished)
              | (st, Raise e) => (st, Raised e)
              end
          end
      | Raised e => (st, Raised e)
      | Unfinished start => (st, Unfinished start)
      end
  end.

(** A step of [main] before the first call of [insert]. *)
Definition try {A : Type}
    (r : result A) (k : A -> list (list Document) * main_ending)
  : list (list Document) * main_ending :=
  match r with
  | Ok a => k a
  | Raise e => ([], Throws e)
  end.

(** [main]: the calls of [insert] it makes and how it ends.  What it
    logs is left out, but for the values it reads to log them. *)
Definition main (fuel : nat) (env : environ)
  : list (list Document) * main_ending :=
  let llama_base_url :=
    PyText.rstrip_char "/"%char
      (getenv_str env "LLAMA_BASE_URL" default_base_url) in
  let conf_cloud_id := PyStr.strip (getenv_str env "CONF_CLOUD_ID" "") in
  let space_name := PyStr.strip (getenv_str env "SPACE_NAME" "") in
  let labels := PyText.comma_fields (getenv_str env "LABELS" "") in
  try (int_or (getenv env "SINCE_HOURS" (Some "0")) 0) (fun since_hours =>
  let vector_db_name :=
    PyStr.strip (getenv_str env "VECTOR_DB_ID" "confluence") in
  try (int_or (getenv env "BATCH_SIZE" (Some "100")) 100) (fun batch_size =>
  if Py.truthy_list (missing env) then ([], Exit 2)
  else
  let timeout_text := getenv env "LLAMA_TIMEOUT_SECONDS" (Some "180") in
  try (connect llama_base_url
               (if truthy_text timeout_text then timeout_text else None))
      (fun _ =>
  try (models <- models_list ;;
       listed <- Py.iterate models ;;
       next_embedding listed) (fun found =>
  match found with
  | None => ([], ThrowsStopIteration)
  | Some embed_model =>
  try (attr embed_model "identifier") (fun _ =>
  if negb (PyStr.startswith "vs_" vector_db_name) then ([], Exit 2)
  else
  let vdb_id := vector_db_name in
  match resolve_space_key_by_name py_str fuel spaces space_name 0 with
  | None => ([], NoEnd)
  | Some (Raise e) => ([], Throws e)
  | Some (Ok space_key) =>
      if negb (Py.truthy space_key) then ([], Exit 3)
      else
      let cql :=
        cql_of (Py.truthy space_key) (py_str space_key) labels
               since_hours in
      match ingest fuel conf_cloud_id batch_size vdb_id cql with
      | (st, Raised e) => (calls st, Throws e)
      | (st, Unfinished _) => (calls st, NoEnd)
      | (st, Finished) =>
          match verify_vector_store
                  (files (llama_base_url ++ "/v1/vector_stores/"
                          ++ vdb_id ++ "/files")) with
          | Raise e => (calls st, Throws e)
          | Ok verified =>
              if negb verified then (calls st, Exit 4)
              else (calls st, Exit 0)
          end
      end
  end)
  end)))).

End Ingest.

(* ================================================================= *)
(** ** Vocabulary of the further statements *)

(** The trimmed value of a variable, empty for one that is not set. *)
Definition var_text (env : environ) (name : string) : string :=
  match env name with
  | Some v => PyStr.strip v
  | None => ""
  end.

(** The first of two variables that holds more than white space. *)
Definition first_var (env : environ) (a b : string) : string :=
  if PyStr.nonempty (var_text env a) then var_text env a else var_text env b.

(** The trimmed value of a variable, or [d] if that is empty. *)
Definition var_or (env : environ) (name d : string) : string :=
  if PyStr.nonempty (var_text env name) then var_text env name else d.

(** The [uri] of an endpoint that is an object or a dict. *)
Definition endpoint_uri (mcp : pyval) : pyval :=
  match mcp with
  | PDict d => Py.dict_get d "uri"
  | _ => Py.getattr mcp "uri"
  end.

(** A client whose tool groups are [groups]. *)
Definition client_with (groups : list pyval) : pyval :=
  PObj "LlamaStackClient"
       [("toolgroups", PObj "Toolgroups" [("list", PCall (PList groups))])].

(** The number of characters of the class [p] that [s] starts with. *)
Fixpoint leading (p : ascii -> bool) (s : string) : nat :=
  match s with
  | String c s' => if p c then S (leading p s') else 0
  | EmptyString => 0
  end.

(** What the removal of the fences leaves of a text: no three backticks
    in a row are left, and where the text starts with fewer, so does
    what is left. *)
Definition fence_free (s o : string) : Prop :=
  PyStr.contains "```" o = false
  /\ (prefix "```" s = false ->
      leading (Re.only backtick) o = leading (Re.only backtick) s).

(** Every [<], [>] and [&] of the text belongs to a character entity or
    to one of the tags. *)
Inductive safe_over (tags : list string) : string -> Prop :=
| over_end : safe_over tags ""
| over_char c s :
    c <> "<"%char -> c <> ">"%char -> c <> "&"%char ->
    safe_over tags s -> safe_over tags (String c s)
| over_entity e s : In e entities -> safe_over tags s -> safe_over tags (e ++ s)
| over_tag t s : In t tags -> safe_over tags s -> safe_over tags (t ++ s).

(** The tags of a rendered work note. *)
Definition note_tags : list string :=
  ["<ul>"; "</ul>"; "<li>"; "</li>"; "<p>"; "</p>"; "<br/>";
   "<pre>"; "</pre>"; "<code>"; "</code>"].

(** The tags of the correlation section. *)
Definition report_tags : list string :=
  (note_tags ++ ["<h4>"; "</h4>"; "<em>"; "</em>"])%list.

(** An item of a rendered list, and a line of a rendered code block. *)
Definition list_item (p : string) : Prop :=
  exists content, p = "<li>" ++ _render_inline_code_escaped content ++ "</li>".

Definition code_line (p : string) : Prop :=
  exists line, p = Html.escape line.

(** Parts that are complete blocks: a list with its items between its
    two tags, a code block with its lines between its two tags, a break,
    a paragraph. *)
Inductive blocks : list string -> Prop :=
| blocks_end : blocks []
| blocks_list items rest :
    items <> [] -> Forall list_item items -> blocks rest ->
    blocks ("<ul>" :: items ++ "</ul>" :: rest)
| blocks_code lines rest :
    Forall code_line lines -> blocks rest ->
    blocks ("<pre><code>" :: lines ++ "</code></pre>" :: rest)
| blocks_break rest : blocks rest -> blocks ("<br/>" :: rest)
| blocks_para line rest :
    blocks rest ->
    blocks (("<p>" ++ _render_inline_code_escaped line ++ "</p>") :: rest).

(** The parts while the renderer's loop runs: complete blocks, then the
    list or the code block that is open. *)
Definition open_parts (st : md_state) : Prop :=
  exists done,
    blocks done
    /\ if in_code st then
         in_list st = false
         /\ exists lines,
              Forall code_line lines
              /\ html_parts st = (done ++ "<pre><code>" :: lines)%list
       else if in_list st then
         exists items,
           items <> [] /\ Forall list_item items
           /\ html_parts st = (done ++ "<ul>" :: items)%list
       else html_parts st = done.

(** The clauses that [build_cql] adds to the type filter. *)
Definition since_clause (since_hours : Z) : string :=
  "lastmodified > now("
  ++ quoted ("-" ++ PyText.int_str since_hours ++ "h") ++ ")".

Definition space_clause (space_key : string) : string :=
  "space=" ++ quoted space_key.

Definition label_clause (label : string) : string :=
  "label=" ++ quoted label.

Definition labels_clause (labels : list string) : string :=
  "(" ++ PyStr.join " OR " (map label_clause labels) ++ ")".

Definition cql_clauses
    (space_key : string) (labels : list string) (since_hours : Z)
  : list string :=
  app (if (0 <? since_hours)%Z then [since_clause since_hours] else [])
      (app (if PyStr.nonempty space_key then [space_clause space_key] else [])
           (match labels with
            | [] => []
            | _ :: _ => [labels_clause labels]
            end)).

(** A file of a vector store whose status is one of the four that count
    as done. *)
Definition completed (f : pyval) : bool :=
  match f with
  | PDict e => status_done (Py.dict_get e "status")
  | _ => false
  end.

(** What is left of [s] behind the last newline of the white space
    that [s] starts with. *)
Fixpoint after_last_newline (s : string) : option string :=
  match s with
  | String c s' =>
      if PyStr.is_space c then
        match after_last_newline s' with
        | Some rest => Some rest
        | None => if Ascii.eqb "010"%char c then Some s' else None
        end
      else None
  | EmptyString => None
  end.

(** What is left of [s] behind a match of [\s+\n] at its start. *)
Definition after_space_newline (s : string) : option string :=
  match s with
  | String c s' => if PyStr.is_space c then after_last_newline s' else None
  | EmptyString => None
  end.

(** No newline of the text follows a white-space character. *)
Fixpoint no_space_newline (s : string) : bool :=
  match s with
  | String c s' =>
      negb (PyStr.is_space c && prefix nl s') && no_space_newline s'
  | EmptyString => true
  end.

(** What the first substitution of [tidy_markdown] makes of a text. *)
Definition tidied (s o : string) : Prop :=
  no_space_newline o = true
  /\ (after_last_newline s = None -> prefix nl o = false).

(** A converter that returns the text of its argument, to run
    [html_to_markdown] on texts. *)
Definition text_of (v : pyval) : result string := Ok (Py.as_str v).

(** A server that holds [data] and answers the request for [start]
    with the next [limit] items. *)
Definition paged (data : list pyval) (limit : nat) : nat -> result pyval :=
  fun start =>
    Ok (PDict [("results", PList (firstn limit (skipn start data)))]).

(** A space whose name is [space_name], apart from case and from white
    space around it. *)
Definition space_named
    (py_str : pyval -> string) (space_name : string) (sp : pyval) : bool :=
  match sp with
  | PDict d =>
      String.eqb
        (PyText.lower
           (PyStr.strip
              (py_str (match Py.lookup "name" d with
                       | Some v => v
                       | None => PStr ""
                       end))))
        (PyText.lower (PyStr.strip space_name))
  | _ => false
  end.

(** The key of a space, [None] for no space. *)
Definition key_of (sp : option pyval) : pyval :=
  match sp with
  | Some sp => Py.dict_get (Py.as_dict sp) "key"
  | None => PNone
  end.

(** The documents of the pages, up to the first page that raises. *)
Fixpoint page_documents
    (prepare : pyval -> result (option (pyval * Document)))
    (pages : list pyval) : list Document :=
  match pages with
  | [] => []
  | page :: rest =>
      match prepare page with
      | Ok (Some (_, doc)) => doc :: page_documents prepare rest
      | Ok None => page_documents prepare rest
      | Raise _ => []
      end
  end.

(** The documents handed to [insert] so far and the ones that wait. *)
Definition held (st : batching) : list Document :=
  (concat (calls st) ++ documents st)%list.

(** The counters agree with the lists. *)
Definition counted (st : batching) : Prop :=
  inserted st = List.length (concat (calls st))
  /\ prepared st = List.length (held st).

(** The number of documents of a full batch. *)
Definition batch_length (batch_size : Z) : nat :=
  Z.to_nat (Z.max 1 batch_size).

(** Full batches so far, and fewer documents than a batch waiting. *)
Definition batched (batch_size : Z) (st : batching) : Prop :=
  Forall (fun b => List.length b = batch_length batch_size) (calls st)
  /\ List.length (documents st) < batch_length batch_size.

(** The variables that [main] requires. *)
Definition required_names : list string :=
  ["CONF_CLOUD_ID"; "CONF_USER"; "CONF_API_TOKEN"; "SPACE_NAME"].

(** A run that calls [insert] never and ends with the exit code 2 or
    with an exception. *)
Definition refused (run : list (list Document) * main_ending) : Prop :=
  fst run = []
  /\ match snd run with
     | Exit code => code = 2%Z
     | Throws _ | ThrowsStopIteration => True
     | NoEnd => False
     end.

(** The vector store of the run has a concrete id. *)
Definition vector_store_named (env : environ) : bool :=
  match env "VECTOR_DB_ID" with
  | Some v => prefix "vs_" (PyStr.strip v)
  | None => false
  end.

(** A model with the name [id]. *)
Definition named (id : string) (m : pyval) : bool :=
  Py.eq_str (model_name m) id.

(* ----------------------------------------------------------------- *)
(** *** Sample values of the further statements *)

(** The environment that sets the listed variables. *)
Definition env_of (vars : list (string * string)) : environ :=
  fun name =>
    match find (fun kv => String.eqb name (fst kv)) vars with
    | Some kv => Some (snd kv)
    | None => None
    end.

Definition sample_env : environ :=
  env_of [("MODEL_ID", " granite-8b ");
          ("VECTOR_STORE_IDS", "vs_a, vs_b,,");
          ("VECTOR_DB_ID", "vs_c");
          ("MCP_SERVER_URL", "http://mcp.local:8080/sse//")].

(** An environment without the server URL. *)
Definition discovery_env : environ :=
  env_of [("MCP_TOOLGROUP_ID", "mcp::ocp"); ("MCP_SERVER_LABEL", " ocp ")].

Definition sample_groups : list pyval :=
  [PObj "ToolGroup" [("identifier", PStr "builtin::rag")];
   PObj "ToolGroup"
        [("identifier", PStr "mcp::ocp");
         ("mcp_endpoint", PDict [("uri", PStr "http://ocp-mcp:8080/sse/")])]].

(** A response object whose output cannot be walked. *)
Definition broken_response : pyval :=
  PObj "Response" [("output", PInt 5)].

Definition space (name key : string) : pyval :=
  PDict [("name", PStr name); ("key", PStr key)].

Definition sample_spaces : list pyval :=
  [space "Payments" "PAY"; space " Special Payment Project " "SPP";
   space "special payment project" "OLD"].

Definition sample_pages : list pyval :=
  [PDict [("id", PStr "1")]; PDict [("id", PStr "2")]; PDict [("id", PStr "3")]].

(** [int] for a text of decimal digits. *)
Definition digits_int (text : string) : result Z :=
  match text with
  | EmptyString => Raise ValueError
  | String _ _ =>
      match RefLib.read_digits text 0 with
      | (n, EmptyString) => Ok n
      | _ => Raise ValueError
      end
  end.

Definition confluence_page (id title html : string) : pyval :=
  PDict [("id", PStr id); ("title", PStr title);
         ("body", PDict [("export_view", PDict [("value", PStr html)])]);
         ("space", PDict [("key", PStr "OPS")])].

Definition sample_search : list pyval :=
  [confluence_page "1" "Restart" "Restart the pod";
   confluence_page "2" "Empty" "  ";
   confluence_page "3" "Scale" "Scale the deployment";
   confluence_page "4" "Drain" "Drain the node"].

Definition ingest_env : environ :=
  env_of [("CONF_CLOUD_ID", "cloud"); ("CONF_USER", "user");
          ("CONF_API_TOKEN", "token"); ("SPACE_NAME", "Payments");
          ("BATCH_SIZE", "2")].

Definition model_obj (id type provider : string) : pyval :=
  PObj "Model" [("identifier", PStr id); ("model_type", PStr type);
                ("provider_id", PStr provider)].

Definition sample_models : list pyval :=
  [model_obj "all-minilm" "embedding" "sentence-transformers";
   model_obj "llama-3" "llm" "ollama";
   model_obj "granite-8b" "llm" "vllm-inference"].

(* ================================================================= *)
(** ** Strings *)

Lemma append_nil_r (s : string) : s ++ "" = s.
Proof. induction s as [|c s IH]; simpl; [reflexivity|now rewrite IH]. Qed.

Lemma append_assoc (a b c : string) : (a ++ b) ++ c = a ++ (b ++ c).
Proof. induction a as [|x a IH]; simpl; [reflexivity|now rewrite IH]. Qed.

Lemma length_append (a b : string) :
  String.length (a ++ b) = String.length a + String.length b.
Proof. induction a as [|x a IH]; simpl; [reflexivity|now rewrite IH]. Qed.

Lemma append_inv_head (a b c : string) : a ++ b = a ++ c -> b = c.
Proof.
  induction a as [|x a IH]; simpl; intros H; [exact H|].
  injection H as H. now apply IH.
Qed.

Lemma has_char_app c a b : has_char c (a ++ b) = has_char c a || has_char c b.
Proof.
  induction a as [|x a IH]; simpl; [reflexivity|].
  now rewrite IH, orb_assoc.
Qed.

(* ----------------------------------------------------------------- *)
(** *** [html.escape] *)

Lemma replace_char_app c new a b :
  Html.replace_char c new (a ++ b)
  = Html.replace_char c new a ++ Html.replace_char c new b.
Proof.
  induction a as [|x a IH]; simpl; [reflexivity|].
  rewrite IH. destruct (Ascii.eqb x c); [|reflexivity].
  now rewrite append_assoc.
Qed.

Lemma escape_app a b : Html.escape (a ++ b) = Html.escape a ++ Html.escape b.
Proof. unfold Html.escape. now rewrite !replace_char_app. Qed.

Lemma escape_one c : Html.escape (String c "") = escape_char c.
Proof.
  unfold Html.escape, escape_char. simpl.
  destruct (Ascii.eqb_spec c "&"%char) as [->|Hamp]; [reflexivity|].
  simpl.
  destruct (Ascii.eqb_spec c "<"%char) as [->|Hlt]; [reflexivity|].
  simpl.
  destruct (Ascii.eqb_spec c ">"%char) as [->|Hgt]; [reflexivity|].
  simpl.
  destruct (Ascii.eqb_spec c PyStr.dquote) as [->|Hq]; [reflexivity|].
  simpl.
  destruct (Ascii.eqb_spec c "'"%char) as [->|Ha]; reflexivity.
Qed.

(** The five replacements amount to one pass, character by character. *)
Lemma escape_cons c s : Html.escape (String c s) = escape_char c ++ Html.escape s.
Proof.
  change (String c s) with (String c "" ++ s).
  now rewrite escape_app, escape_one.
Qed.

Lemma escape_empty : Html.escape "" = "".
Proof. reflexivity. Qed.

Lemma escape_char_cases c :
  (In (escape_char c) entities)
  \/ (escape_char c = String c "" /\ c <> "<"%char /\ c <> ">"%char
      /\ c <> "&"%char).
Proof.
  unfold escape_char, entities.
  destruct (Ascii.eqb_spec c "&"%char) as [->|Hamp]; [left; simpl; tauto|].
  destruct (Ascii.eqb_spec c "<"%char) as [->|Hlt]; [left; simpl; tauto|].
  destruct (Ascii.eqb_spec c ">"%char) as [->|Hgt]; [left; simpl; tauto|].
  destruct (Ascii.eqb_spec c PyStr.dquote) as [->|Hq]; [left; simpl; tauto|].
  destruct (Ascii.eqb_spec c "'"%char) as [->|Ha]; [left; simpl; tauto|].
  right. tauto.
Qed.

Lemma markup_safe_app a b : markup_safe a -> markup_safe b -> markup_safe (a ++ b).
Proof.
  intros Ha Hb. induction Ha as [|c s H1 H2 H3 Hs IH|e s He Hs IH|t s Ht Hs IH].
  - exact Hb.
  - simpl. now apply safe_char.
  - rewrite append_assoc. now apply safe_entity.
  - rewrite append_assoc. now apply safe_tag.
Qed.

Lemma escape_safe s : markup_safe (Html.escape s).
Proof.
  induction s as [|c s IH]; [apply safe_end|].
  rewrite escape_cons.
  destruct (escape_char_cases c) as [He|[-> [H1 [H2 H3]]]].
  - now apply safe_entity.
  - simpl. now apply safe_char.
Qed.

(** An escaped text has no [<]. *)
Lemma escape_no_lt s : has_char "<"%char (Html.escape s) = false.
Proof.
  induction s as [|c s IH]; [reflexivity|].
  rewrite escape_cons, has_char_app, IH, orb_false_r.
  unfold escape_char.
  destruct (Ascii.eqb_spec c "&"%char) as [->|Hamp]; [reflexivity|].
  destruct (Ascii.eqb_spec c "<"%char) as [->|Hlt]; [reflexivity|].
  destruct (Ascii.eqb_spec c ">"%char) as [->|Hgt]; [reflexivity|].
  destruct (Ascii.eqb_spec c PyStr.dquote) as [->|Hq]; [reflexivity|].
  destruct (Ascii.eqb_spec c "'"%char) as [->|Ha]; [reflexivity|].
  simpl. rewrite orb_false_r. now apply Ascii.eqb_neq.
Qed.

(* ================================================================= *)
(** ** Slices *)

Lemma drop_nil n : PyStr.drop n "" = "".
Proof. now destruct n. Qed.

Lemma take_nil n : PyStr.take n "" = "".
Proof. now destruct n. Qed.

Lemma take_length n s : String.length (PyStr.take n s) <= n.
Proof.
  revert s. induction n as [|n IH]; intros s; simpl; [lia|].
  destruct s as [|c s]; simpl; [lia|]. specialize (IH s). lia.
Qed.

Lemma drop_length n s : String.length (PyStr.drop n s) = String.length s - n.
Proof.
  revert s. induction n as [|n IH]; intros s; simpl; [lia|].
  destruct s as [|c s]; simpl; [reflexivity|apply IH].
Qed.

Lemma drop_all n s : String.length s <= n -> PyStr.drop n s = "".
Proof.
  revert s. induction n as [|n IH]; intros [|c s] H; simpl in *;
    try reflexivity; try lia.
  apply IH. lia.
Qed.

Lemma take_drop n s : PyStr.take n s ++ PyStr.drop n s = s.
Proof.
  revert s. induction n as [|n IH]; intros s; simpl; [reflexivity|].
  destruct s as [|c s]; simpl; [reflexivity|now rewrite IH].
Qed.

Lemma drop_drop a b s : PyStr.drop a (PyStr.drop b s) = PyStr.drop (b + a) s.
Proof.
  revert s. induction b as [|b IH]; intros s; simpl; [reflexivity|].
  destruct s as [|c s]; [apply drop_nil|apply IH].
Qed.

Lemma drop_app a b : PyStr.drop (String.length a) (a ++ b) = b.
Proof. induction a as [|c a IH]; simpl; [reflexivity|exact IH]. Qed.

Lemma take_app a b : PyStr.take (String.length a) (a ++ b) = a.
Proof. induction a as [|c a IH]; simpl; [now destruct b|now rewrite IH]. Qed.

Lemma take_length_le n s :
  n <= String.length s -> String.length (PyStr.take n s) = n.
Proof.
  revert s. induction n as [|n IH]; intros s H; simpl; [reflexivity|].
  destruct s as [|c s]; simpl in *; [lia|]. rewrite IH; lia.
Qed.

Lemma take_all n s : String.length s <= n -> PyStr.take n s = s.
Proof.
  revert s. induction n as [|n IH]; intros [|c s] H; simpl in *;
    try reflexivity; try lia.
  rewrite IH; [reflexivity|lia].
Qed.

Lemma substring_take_drop n m s :
  substring n m s = PyStr.take m (PyStr.drop n s).
Proof.
  revert m s. induction n as [|n IH]; intros m s.
  - simpl PyStr.drop. revert s.
    induction m as [|m IHm]; intros [|c s]; simpl; try reflexivity.
    now rewrite IHm.
  - destruct s as [|c s]; simpl.
    + now rewrite take_nil.
    + apply IH.
Qed.

Lemma slice_take_drop a b s :
  PyStr.slice a b s = PyStr.take (b - a) (PyStr.drop a s).
Proof. apply substring_take_drop. Qed.

(** [s[a:] = s[a:b] + s[b:]]. *)
Lemma drop_slice a b s :
  a <= b -> PyStr.drop a s = PyStr.slice a b s ++ PyStr.drop b s.
Proof.
  intros H. rewrite slice_take_drop.
  replace b with (a + (b - a)) at 2 by lia.
  rewrite <- drop_drop. now rewrite take_drop.
Qed.

Lemma slice_full s : PyStr.slice 0 (String.length s) s = s.
Proof.
  rewrite slice_take_drop. simpl. rewrite Nat.sub_0_r.
  apply take_all. lia.
Qed.

Lemma drop_succ pos s c s' :
  PyStr.drop pos s = String c s' -> PyStr.drop (S pos) s = s'.
Proof.
  intros H. replace (S pos) with (pos + 1) by lia.
  rewrite <- drop_drop, H. reflexivity.
Qed.

(* ================================================================= *)
(** ** The generic extractor *)

Section ExtractionFacts.

Variable py_str : pyval -> string.

Lemma forallb_rev {A : Type} (f : A -> bool) (l : list A) :
  forallb f l = true -> forallb f (List.rev l) = true.
Proof.
  rewrite !forallb_forall. intros H x Hx. apply H. now apply in_rev.
Qed.

Lemma attr_content_loop_textless cs :
  forallb textless cs = true -> attr_content_loop cs = None.
Proof.
  induction cs as [|c cs IH]; simpl; [reflexivity|].
  intros H. apply andb_true_iff in H as [Hc Hcs].
  unfold textless in Hc. apply negb_true_iff in Hc. rewrite Hc. now apply IH.
Qed.

Lemma attr_content_loop_first pre c post :
  forallb textless pre = true ->
  Py.truthy (Py.getattr c "text") = true ->
  attr_content_loop (pre ++ c :: post)%list = Some (Py.getattr c "text").
Proof.
  induction pre as [|x pre IH]; simpl; intros Hpre Hc.
  - now rewrite Hc.
  - apply andb_true_iff in Hpre as [Hx Hpre].
    unfold textless in Hx. apply negb_true_iff in Hx. rewrite Hx. now apply IH.
Qed.

Lemma attr_output_loop_silent skipped rest :
  forallb attr_silent skipped = true ->
  attr_output_loop (skipped ++ rest)%list = attr_output_loop rest.
Proof.
  induction skipped as [|item skipped IH]; simpl; [reflexivity|].
  intros H. apply andb_true_iff in H as [Hitem Hskipped].
  specialize (IH Hskipped).
  unfold attr_silent, message_with_content in Hitem.
  destruct (Py.eq_str (Py.getattr item "type") "message"
            && Py.truthy (Py.getattr item "content")) eqn:Hmsg; [|exact IH].
  simpl in Hitem.
  destruct (Py.getattr item "content") as [| | | |cs| | | |]; try discriminate.
  simpl. now rewrite (attr_content_loop_textless cs Hitem).
Qed.

Lemma dict_content_loop_textless cs :
  forallb dict_textless cs = true -> dict_content_loop cs = Ok None.
Proof.
  induction cs as [|c cs IH]; simpl; [reflexivity|].
  intros H. apply andb_true_iff in H as [Hc Hcs].
  destruct c as [| | | | |e| | |]; try discriminate.
  simpl in Hc |- *. apply negb_true_iff in Hc.
  unfold Py.dict_get in Hc. rewrite Hc. now apply IH.
Qed.

Lemma dict_content_loop_first pre e post :
  forallb dict_textless pre = true ->
  Py.truthy (Py.dict_get e "text") = true ->
  dict_content_loop (pre ++ PDict e :: post)%list
  = Ok (Some (Py.dict_get e "text")).
Proof.
  induction pre as [|x pre IH]; simpl; intros Hpre He.
  - unfold Py.dict_get in He |- *. now rewrite He.
  - apply andb_true_iff in Hpre as [Hx Hpre].
    destruct x as [| | | | |ex| | |]; try discriminate.
    simpl in Hx |- *. apply negb_true_iff in Hx.
    unfold Py.dict_get in Hx. rewrite Hx. now apply IH.
Qed.

Lemma dict_output_loop_silent skipped rest :
  forallb dict_silent skipped = true ->
  dict_output_loop (skipped ++ rest)%list = dict_output_loop rest.
Proof.
  induction skipped as [|item skipped IH]; simpl; [reflexivity|].
  intros H. apply andb_true_iff in H as [Hitem Hskipped].
  specialize (IH Hskipped).
  destruct item as [| | | | |e| | |]; try discriminate.
  simpl in Hitem |- *. unfold Py.dict_get in Hitem.
  destruct (Py.eq_str
              match Py.lookup "type" e with Some x => x | None => PNone end
              "message") eqn:Hty; [|exact IH].
  simpl in Hitem.
  destruct (Py.lookup "content" e) as [content|]; simpl.
  - destruct content as [| | | |cs| | | |]; try discriminate.
    simpl. now rewrite (dict_content_loop_textless cs Hitem).
  - exact IH.
Qed.

Lemma truthy_middle (a : list pyval) x b :
  Py.truthy (PList (a ++ x :: b)%list) = true.
Proof. destruct a; reflexivity. Qed.

Lemma attr_paths_of_dict d : attr_paths (PDict d) = Ok None.
Proof. reflexivity. Qed.

End ExtractionFacts.

(** C8 (as amended): in an exposed output sequence the scan runs in
    reverse over the items; an item that is no message with content, or
    whose content entries carry no non-empty text, is passed; the first
    non-empty text of the first message item that has one, its entries
    read in forward order, is returned.  Both for an object with an
    [output] attribute and for a dict with an ["output"] key. *)
Theorem extract_output_text_scan (py_str : pyval -> string) :
  (forall text attrs before item after cs_pre c cs_post,
      Py.lookup "output" attrs = Some (PList (before ++ item :: after)%list) ->
      forallb attr_silent after = true ->
      Py.getattr item "type" = PStr "message" ->
      Py.getattr item "content" = PList (cs_pre ++ c :: cs_post)%list ->
      forallb textless cs_pre = true ->
      Py.truthy (Py.getattr c "text") = true ->
      extract_output_text py_str (PObj text attrs) = Ok (Py.getattr c "text"))
  /\
  (forall d before e after cs_pre ce cs_post,
      Py.lookup "output" d = Some (PList (before ++ PDict e :: after)%list) ->
      forallb dict_silent after = true ->
      Py.lookup "type" e = Some (PStr "message") ->
      Py.lookup "content" e = Some (PList (cs_pre ++ PDict ce :: cs_post)%list) ->
      forallb dict_textless cs_pre = true ->
      Py.truthy (Py.dict_get ce "text") = true ->
      extract_output_text py_str (PDict d) = Ok (Py.dict_get ce "text")).
Proof.
  split.
  - intros text attrs before item after cs_pre c cs_post
           Hout Hafter Hty Hcontent Hpre Hc.
    assert (Hhas : Py.hasattr (PObj text attrs) "output" = true)
      by (simpl; now rewrite Hout).
    assert (Hget : Py.getattr (PObj text attrs) "output"
                   = PList (before ++ item :: after)%list)
      by (simpl; now rewrite Hout).
    unfold extract_output_text, attr_paths.
    rewrite Hhas, Hget, truthy_middle. simpl.
    rewrite rev_app_distr. simpl. rewrite <- app_assoc. simpl.
    rewrite (attr_output_loop_silent _ _ (forallb_rev _ _ Hafter)).
    simpl. rewrite Hty, Hcontent, truthy_middle. simpl.
    now rewrite (attr_content_loop_first _ _ _ Hpre Hc).
  - intros d before e after cs_pre ce cs_post
           Hout Hafter Hty Hcontent Hpre Hc.
    unfold extract_output_text. rewrite attr_paths_of_dict.
    unfold dict_path, Py.dict_get at 1. rewrite Hout.
    rewrite rev_app_distr. simpl. rewrite <- app_assoc. simpl.
    rewrite (dict_output_loop_silent _ _ (forallb_rev _ _ Hafter)).
    simpl. rewrite Hty, Hcontent. simpl.
    now rewrite (dict_content_loop_first _ _ _ Hpre Hc).
Qed.

Lemma extract_output_text_scan_witness :
  extract_output_text RefLib.py_str
    (PObj "Response" [("output", PList [msg_obj ["old"]; msg_obj [""; "new"; "x"];
                                        PObj "ToolCall" [("type", PStr "mcp_call")];
                                        msg_obj [""]])])
  = Ok (PStr "new")
  /\
  extract_output_text RefLib.py_str
    (PDict [("output", PList [msg_dict ["old"]; msg_dict [""; "new"; "x"];
                              PDict [("type", PStr "mcp_call")];
                              msg_dict [""]])])
  = Ok (PStr "new").
Proof.
  split.
  - apply (proj1 (extract_output_text_scan RefLib.py_str)
             "Response" _ [msg_obj ["old"]] (msg_obj [""; "new"; "x"])
             [PObj "ToolCall" [("type", PStr "mcp_call")]; msg_obj [""]]
             [PObj "Part" [("text", PStr "")]]
             (PObj "Part" [("text", PStr "new")])
             [PObj "Part" [("text", PStr "x")]]); reflexivity.
  - apply (proj2 (extract_output_text_scan RefLib.py_str)
             _ [msg_dict ["old"]]
             [("type", PStr "message");
              ("content", PList (map (fun t => PDict [("text", PStr t)]) [""; "new"; "x"]))]
             [PDict [("type", PStr "mcp_call")]; msg_dict [""]]
             [PDict [("text", PStr "")]]
             [("text", PStr "new")]
             [PDict [("text", PStr "x")]]); reflexivity.
Defined.

(** C8 (as stated) fails: the last message item has content but no
    non-empty text; the code goes on to the item before it and returns
    its text, where the documented rule stops at the last item. *)
Lemma extract_output_text_scan_counterexample :
  let items := [msg_obj ["old"]; msg_obj [""]] in
  extract_output_text RefLib.py_str (PObj "Response" [("output", PList items)])
  = Ok (PStr "old")
  /\ Doc.output_scan items = None
  /\ find message_with_content (List.rev items) = Some (msg_obj [""]).
Proof. repeat split. Qed.

(** C1: a dict whose ["output"] list holds an item that is no mapping
    makes [extract_output_text] raise: [item.get] sits outside the
    [try]. *)
Theorem extract_output_text_raises (py_str : pyval -> string) :
  extract_output_text py_str (PDict [("output", PList [PStr "abc"])])
  = Raise AttributeError.
Proof. reflexivity. Qed.

(* ================================================================= *)
(** ** The turn variant *)

Section TurnFacts.

Variable py_str : pyval -> string.

Lemma turn_content_loop_texts cs pieces :
  turn_content_loop cs pieces = (pieces ++ flat_map entry_text cs)%list.
Proof.
  revert pieces. induction cs as [|c cs IH]; intros pieces; simpl.
  - now rewrite app_nil_r.
  - destruct c as [| | | | |e| | |]; simpl; try apply IH.
    destruct (text_type (Py.dict_get e "type")); simpl; [|apply IH].
    destruct (Py.lookup "text" e) as [x|]; simpl; [|apply IH].
    destruct x as [| | |txt| | | | |]; simpl; try apply IH.
    destruct (PyStr.nonempty txt); simpl; [|apply IH].
    rewrite IH. unfold push. now rewrite <- app_assoc.
Qed.

(** The characters of a string and the keys of a mapping are no
    entries. *)
Lemma chars_no_texts s : flat_map entry_text (Py.chars s) = [].
Proof. induction s as [|c s IH]; [reflexivity|exact IH]. Qed.

Lemma keys_no_texts (d : list (string * pyval)) :
  flat_map entry_text (map (fun kv => PStr (fst kv)) d) = [].
Proof. induction d as [|kv d IH]; [reflexivity|exact IH]. Qed.

(** The entries of a content that can be walked. *)
Lemma walk_content content :
  negb (Py.truthy content) || Py.is_list content
  || Py.is_str content || Py.is_dict content = true ->
  exists cs,
    Py.iterate (Py.or_ content (PList [])) = Ok cs
    /\ flat_map entry_text cs = flat_map entry_text (Py.as_list content).
Proof.
  unfold Py.or_. intros H.
  destruct (Py.truthy content) eqn:Htr.
  2: { exists []. split; [reflexivity|].
       destruct content as [| | | |[|x l]| | | |]; try reflexivity.
       discriminate. }
  destruct content as [| | |s|l|d| | |]; try discriminate.
  - exists (Py.chars s). split; [reflexivity|apply chars_no_texts].
  - now exists l.
  - eexists. split; [reflexivity|]. apply keys_no_texts.
Qed.

Lemma turn_output_loop_texts items pieces :
  forallb turn_item_ok items = true ->
  turn_output_loop items pieces = Ok (pieces ++ collected_texts items)%list.
Proof.
  revert pieces. induction items as [|item items IH]; intros pieces H.
  - cbn. now rewrite app_nil_r.
  - cbn [forallb] in H. apply andb_true_iff in H as [Hitem Hitems].
    destruct item as [| | | | |e| | |]; try discriminate.
    cbn [turn_item_ok] in Hitem.
    destruct (walk_content _ Hitem) as (cs & Hcs & Htexts).
    cbn [turn_output_loop Py.get Py.get_default bind].
    fold (Py.dict_get e "content"). rewrite Hcs. cbn [bind].
    rewrite (IH _ Hitems), turn_content_loop_texts, Htexts.
    unfold collected_texts. cbn [flat_map Py.as_dict].
    now rewrite <- app_assoc.
Qed.

(** An item that cannot be walked ends the scan with an exception. *)
Lemma turn_output_loop_raises items :
  forallb turn_item_ok items = false ->
  forall pieces, exists err, turn_output_loop items pieces = Raise err.
Proof.
  induction items as [|item items IH]; intros H pieces; [discriminate|].
  cbn [forallb] in H.
  destruct (turn_item_ok item) eqn:Hitem.
  - cbn [andb] in H.
    destruct item as [| | | | |e| | |]; try discriminate.
    cbn [turn_item_ok] in Hitem.
    destruct (walk_content _ Hitem) as (cs & Hcs & _).
    cbn [turn_output_loop Py.get Py.get_default bind].
    fold (Py.dict_get e "content"). rewrite Hcs. cbn [bind].
    apply (IH H).
  - destruct item as [| | | | |e|text attrs| |];
      try (eexists; reflexivity).
    2: { cbn. destruct (Py.lookup "get" attrs); eexists; reflexivity. }
    + cbn [turn_item_ok] in Hitem.
      apply orb_false_iff in Hitem as [Hitem Hd].
      apply orb_false_iff in Hitem as [Hitem Hs].
      apply orb_false_iff in Hitem as [Htr Hl].
      apply negb_false_iff in Htr.
      cbn [turn_output_loop Py.get Py.get_default bind].
      fold (Py.dict_get e "content"). unfold Py.or_. rewrite Htr.
      destruct (Py.dict_get e "content") as [| | | | | | | |];
        try discriminate; eexists; reflexivity.
Qed.

Lemma turn_dict_stage_texts e items :
  walked_items e = Some items ->
  turn_dict_stage e =
    match collected_texts items with
    | _ :: _ => Ok (Some (PStr (PyStr.join nl (collected_texts items))))
    | [] =>
        if nonblank_str (Py.dict_get e "text")
        then Ok (Some (Py.dict_get e "text")) else Ok None
    end.
Proof.
  unfold walked_items, turn_dict_stage. intros H.
  destruct (Py.or_ (Py.dict_get e "output") (PList []))
    as [| | | |l| | | |]; try discriminate.
  destruct (forallb turn_item_ok l) eqn:Hok; [|discriminate].
  injection H as ->. cbn [Py.iterate bind].
  rewrite (turn_output_loop_texts _ _ Hok). cbn [bind app].
  destruct (collected_texts items); [|reflexivity].
  unfold nonblank_str.
  destruct (Py.dict_get e "text") as [| | |txt2| | | | |]; reflexivity.
Qed.

Lemma turn_dict_stage_raises e :
  walked_items e = None -> exists err, turn_dict_stage e = Raise err.
Proof.
  unfold walked_items, turn_dict_stage.
  destruct (Py.or_ (Py.dict_get e "output") (PList []))
    as [| | |s|l|d| | |] eqn:Hv; intros H;
    try (eexists; reflexivity).
  - assert (Hs : PyStr.nonempty s = true).
    { unfold Py.or_ in Hv.
      destruct (Py.truthy (Py.dict_get e "output")) eqn:Htr;
        [|discriminate].
      now rewrite Hv in Htr. }
    destruct s as [|c s]; [discriminate|]. eexists. reflexivity.
  - destruct (forallb turn_item_ok l) eqn:Hok; [discriminate|].
    cbn [Py.iterate bind].
    destruct (turn_output_loop_raises _ Hok []) as [err Herr].
    exists err. now rewrite Herr.
  - assert (Hd : Py.truthy (PDict d) = true).
    { unfold Py.or_ in Hv.
      destruct (Py.truthy (Py.dict_get e "output")) eqn:Htr;
        [|discriminate].
      now rewrite Hv in Htr. }
    destruct d as [|kv d]; [discriminate|]. eexists. reflexivity.
Qed.

Lemma turn_export_dict turn :
  match dict_export turn with
  | Some e => turn_export turn = Ok (PDict e)
  | None => forall e, turn_export turn <> Ok (PDict e)
  end.
Proof.
  unfold dict_export, turn_export, Py.hasattr, Py.call_method.
  destruct turn as [| | | | |e|text attrs| |]; cbn;
    try (intros ?; discriminate); [reflexivity|].
  destruct (Py.lookup "to_dict" attrs) as [[| | | | | | |ret|]|];
    try (intros ?; discriminate).
  destruct ret; try (intros ?; discriminate). reflexivity.
Qed.

End TurnFacts.

(** C4 (as amended): for every turn the variant returns (1) the
    [output_text] attribute when it is a string of more than white
    space; else, for a dict export ([to_dict()], or the turn itself when
    it is a mapping) whose output items can be walked, (2) the texts of
    every content entry that is a mapping of type [output_text] or
    [text] with a non-empty string text, all items and entries in
    forward order, joined by newlines, when there is one, and (3) the
    export's ["text"] when it is a string of more than white space;
    (4) in every other case - no such text, no dict export, [to_dict]
    raises, the output is no list, an item is no mapping or its content
    cannot be iterated - the generic extractor's result. *)
Theorem turn_text_stages (py_str : pyval -> string) (turn : pyval) :
  _get_text_from_turn_like_notebook py_str turn
  = let t := Py.getattr turn "output_text" in
    if nonblank_str t then Ok t
    else
      match dict_export turn with
      | Some e =>
          match walked_items e with
          | Some items =>
              match collected_texts items with
              | _ :: _ => Ok (PStr (PyStr.join nl (collected_texts items)))
              | [] =>
                  if nonblank_str (Py.dict_get e "text")
                  then Ok (Py.dict_get e "text")
                  else extract_output_text py_str turn
              end
          | None => extract_output_text py_str turn
          end
      | None => extract_output_text py_str turn
      end.
Proof.
  cbv zeta. unfold _get_text_from_turn_like_notebook, turn_stages.
  fold (nonblank_str (Py.getattr turn "output_text")).
  destruct (nonblank_str (Py.getattr turn "output_text")); [reflexivity|].
  pose proof (turn_export_dict turn) as Hexp.
  destruct (dict_export turn) as [e|].
  - rewrite Hexp. cbn [bind].
    destruct (walked_items e) as [items|] eqn:Hw.
    + rewrite (turn_dict_stage_texts e items Hw).
      destruct (collected_texts items); [|reflexivity].
      now destruct (nonblank_str (Py.dict_get e "text")).
    + destruct (turn_dict_stage_raises e Hw) as [err Herr]. now rewrite Herr.
  - destruct (turn_export turn) as [d|err]; cbn [bind]; [|reflexivity].
    destruct d as [| | | | |e| | |]; try reflexivity.
    now elim (Hexp e).
Qed.

Lemma turn_text_stages_witness :
  _get_text_from_turn_like_notebook RefLib.py_str sample_turn
  = Ok (PStr ("first" ++ nl ++ "second" ++ nl ++ "third")).
Proof.
  exact (eq_trans (turn_text_stages RefLib.py_str sample_turn) eq_refl).
Defined.

(** C4 (as stated) fails: on a dict with two message items the turn
    variant joins the texts of both, first item first, where the generic
    extractor's rule (reverse scan, first text of the last message)
    gives the text of the last item alone. *)
Lemma turn_text_stages_counterexample :
  let items :=
    [PDict [("type", PStr "message");
            ("content", PList [text_entry "text" "a"])];
     PDict [("type", PStr "message");
            ("content", PList [text_entry "text" "b"])]] in
  let turn := PDict [("output", PList items)] in
  _get_text_from_turn_like_notebook RefLib.py_str turn
  = Ok (PStr ("a" ++ nl ++ "b"))
  /\ Doc.dict_output_scan items = Some (PStr "b")
  /\ extract_output_text RefLib.py_str turn = Ok (PStr "b").
Proof. repeat split. Qed.

(* ================================================================= *)
(** ** The incident question *)

Lemma summarize_capped py_str json_dumps payload :
  String.length (summarize_incident_payload py_str json_dumps payload) <= 4000.
Proof.
  unfold summarize_incident_payload.
  destruct (json_dumps payload); apply take_length.
Qed.

(** C5 (as amended): for a JSON object the five fields are probed in
    order for the first truthy value (a field that is absent, null,
    empty, zero or false is passed over).  When that value is a string
    of more than white space the question is that string trimmed; in
    every other case (no truthy field, or the first truthy value is no
    string or is blank) the question is the fixed lead-in followed by
    the serialized payload cut to 4000 characters. *)
Theorem incident_question_first_truthy
    (py_str : pyval -> string) (json_dumps : pyval -> result string)
    (d : list (string * pyval)) :
  incident_question py_str json_dumps (PDict d)
  = match find Py.truthy (map (Py.dict_get d) incident_keys) with
    | Some v =>
        if nonblank_str v then PyStr.strip (Py.as_str v)
        else fallback_question py_str json_dumps (PDict d)
    | None => fallback_question py_str json_dumps (PDict d)
    end
  /\ String.length (summarize_incident_payload py_str json_dumps (PDict d))
     <= 4000.
Proof.
  split; [|apply summarize_capped].
  unfold incident_question, incident_keys, fallback_question, nonblank_str.
  simpl map. simpl find.
  generalize (Py.dict_get d "incident_question") (Py.dict_get d "question")
             (Py.dict_get d "incident") (Py.dict_get d "description")
             (Py.dict_get d "short_description").
  intros v1 v2 v3 v4 v5. unfold Py.or_.
  destruct (Py.truthy v1) eqn:H1; rewrite ?H1;
    [|destruct (Py.truthy v2) eqn:H2; rewrite ?H2;
      [|destruct (Py.truthy v3) eqn:H3; rewrite ?H3;
        [|destruct (Py.truthy v4) eqn:H4; rewrite ?H4;
          [|destruct (Py.truthy v5) eqn:H5; rewrite ?H5]]]];
    try match goal with
        | |- context [Py.is_str ?v && PyStr.nonempty (PyStr.strip (Py.as_str ?v))] =>
            destruct (Py.is_str v && PyStr.nonempty (PyStr.strip (Py.as_str v)))
                     eqn:Hv;
            [apply andb_true_iff in Hv as [_ Hv]; now rewrite Hv | reflexivity]
        end.
Qed.

(** C5 (as stated) fails: a truthy value that is no string in an
    earlier field hides the string of a later field, and the fallback
    question is built. *)
Lemma incident_question_counterexample :
  let d := [("incident_question", PInt 5); ("question", PStr "pods failing")] in
  incident_question RefLib.py_str RefLib.json_dumps (PDict d)
  = "Please investigate the following incident." ++ nl
    ++ "{" ++ quoted "incident_question" ++ ":5," ++ quoted "question" ++ ":"
    ++ quoted "pods failing" ++ "}"
  /\ Doc.first_nonempty_string d = Some "pods failing".
Proof. split; reflexivity. Qed.

(* ================================================================= *)
(** ** The report assembler *)

Section AssemblerFacts.

Variable py_str : pyval -> string.
Variable json_dumps_indent : pyval -> result string.

Lemma collect_commands_ok steps commands :
  forallb step_ok steps = true ->
  collect_commands steps commands
  = Ok (commands ++ flat_map command_of steps)%list.
Proof.
  revert commands. induction steps as [|step steps IH]; intros commands H.
  - simpl. now rewrite app_nil_r.
  - simpl in H. apply andb_true_iff in H as [Hstep Hsteps].
    simpl. unfold step_ok in Hstep. unfold Py.or_.
    destruct (Py.truthy step) eqn:Htr; simpl in Hstep.
    + destruct step as [| | | | |e| | |]; try discriminate.
      simpl. fold (Py.dict_get e "command").
      destruct (Py.dict_get e "command") as [| | |c| | | | |];
        simpl; try apply (IH _ Hsteps).
      destruct (PyStr.nonempty (PyStr.strip c)); simpl.
      * rewrite (IH _ Hsteps). unfold push. now rewrite <- app_assoc.
      * apply (IH _ Hsteps).
    + simpl. rewrite (IH _ Hsteps).
      destruct step as [| | | | |e| | |]; try reflexivity.
      destruct e; [reflexivity|discriminate].
Qed.

Lemma commands_none steps :
  flat_map command_of steps = [] <-> existsb has_command steps = false.
Proof.
  induction steps as [|step steps IH]; simpl; [tauto|].
  rewrite orb_false_iff, <- IH. split.
  - intros H. apply app_eq_nil in H as [H1 H2]. split; [|exact H2].
    destruct step as [| | | | |e| | |]; try reflexivity.
    simpl in H1 |- *.
    destruct (Py.dict_get e "command") as [| | |c| | | | |]; try reflexivity.
    now destruct (PyStr.nonempty (PyStr.strip c)).
  - intros [H1 H2]. rewrite H2, app_nil_r.
    destruct step as [| | | | |e| | |]; try reflexivity.
    simpl in H1 |- *.
    destruct (Py.dict_get e "command") as [| | |c| | | | |]; try reflexivity.
    now rewrite H1.
Qed.

Lemma evidence_section_app parts v :
  evidence_section py_str parts v
  = (parts ++ evidence_section py_str [] v)%list.
Proof.
  unfold evidence_section.
  destruct (Py.is_list v && Py.truthy v); simpl; [reflexivity|].
  now rewrite app_nil_r.
Qed.

Lemma proposed_section_app parts v :
  proposed_section py_str json_dumps_indent parts v
  = (parts ++ proposed_section py_str json_dumps_indent [] v)%list.
Proof.
  unfold proposed_section, push.
  destruct (Py.is_dict v && Py.truthy v); simpl.
  - rewrite <- app_assoc. reflexivity.
  - now rewrite app_nil_r.
Qed.

Lemma kb_section_app parts v :
  kb_section py_str parts v = (parts ++ kb_section py_str [] v)%list.
Proof.
  unfold kb_section.
  destruct (Py.is_list v && Py.truthy v); simpl; [reflexivity|].
  now rewrite app_nil_r.
Qed.

Lemma ref_section_app parts v :
  ref_section parts v = (parts ++ ref_section [] v)%list.
Proof.
  unfold ref_section, push.
  destruct (Py.is_str v && PyStr.nonempty (PyStr.strip (Py.as_str v))); simpl.
  - rewrite <- app_assoc. reflexivity.
  - now rewrite app_nil_r.
Qed.

Lemma next_steps_section_ok parts v :
  negb (Py.is_list v) || forallb step_ok (Py.as_list v) = true ->
  next_steps_section parts v = Ok (parts ++ next_parts v)%list.
Proof.
  intros H. unfold next_steps_section, next_parts.
  destruct (Py.is_list v) eqn:Hl; simpl in H |- *;
    [|now rewrite app_nil_r].
  destruct (Py.truthy v); simpl; [|now rewrite app_nil_r].
  rewrite (collect_commands_ok _ _ H). simpl.
  destruct (flat_map command_of (Py.as_list v)); simpl; unfold push.
  - reflexivity.
  - rewrite <- app_assoc. reflexivity.
Qed.

(** A default that is falsy itself changes no test on the value. *)
Ltac by_shape v :=
  destruct v as [|[|]|[|?|?]|[|? ?]|[|? ?]|[|? ?]| | |];
  unfold Py.or_; simpl;
  repeat split; intros; try reflexivity; try discriminate.

Lemma or_list v :
  nonempty_list (Py.or_ v (PList [])) = nonempty_list v
  /\ Py.as_list (Py.or_ v (PList [])) = Py.as_list v.
Proof. by_shape v. Qed.

Lemma or_dict v :
  nonempty_dict (Py.or_ v (PDict [])) = nonempty_dict v.
Proof. by_shape v. Qed.

Lemma or_str v :
  nonblank_str (Py.or_ v (PStr "")) = nonblank_str v
  /\ Py.truthy (Py.or_ v (PStr "")) = Py.truthy v
  /\ (Py.truthy v = true -> Py.or_ v (PStr "") = v).
Proof. by_shape v. Qed.

Lemma or_list_ok v :
  negb (Py.is_list v) || forallb step_ok (Py.as_list v) = true ->
  negb (Py.is_list (Py.or_ v (PList [])))
  || forallb step_ok (Py.as_list (Py.or_ v (PList []))) = true.
Proof.
  unfold Py.or_. destruct (Py.truthy v); [auto|reflexivity].
Qed.

Lemma li_no_heading x : is_heading (li x) = false.
Proof. reflexivity. Qed.

Lemma in_evidence h v :
  is_heading h = true ->
  In h (evidence_section py_str [] v)
  <-> nonempty_list v = true /\ h = h_evidence.
Proof.
  intros Hh. unfold evidence_section, nonempty_list.
  destruct (Py.is_list v && Py.truthy v); simpl.
  - split.
    + intros [H|[H|H]]; [now split| subst h; discriminate |].
      apply in_app_iff in H as [H|[H|[]]].
      * apply in_map_iff in H as [x [Hx _]]. subst h. discriminate.
      * subst h. discriminate.
    + intros [_ ->]. now left.
  - split; [tauto|intros [H _]; discriminate].
Qed.

Lemma in_kb h v :
  is_heading h = true ->
  In h (kb_section py_str [] v) <-> nonempty_list v = true /\ h = h_kb.
Proof.
  intros Hh. unfold kb_section, nonempty_list.
  destruct (Py.is_list v && Py.truthy v); simpl.
  - split.
    + intros [H|[H|H]]; [now split| subst h; discriminate |].
      apply in_app_iff in H as [H|[H|[]]].
      * apply in_map_iff in H as [x [Hx _]]. subst h. discriminate.
      * subst h. discriminate.
    + intros [_ ->]. now left.
  - split; [tauto|intros [H _]; discriminate].
Qed.

Lemma in_proposed h v :
  is_heading h = true ->
  In h (proposed_section py_str json_dumps_indent [] v)
  <-> nonempty_dict v = true /\ h = h_proposed.
Proof.
  intros Hh. unfold proposed_section, nonempty_dict, push.
  destruct (Py.is_dict v && Py.truthy v); simpl.
  - split.
    + intros [H|[H|[]]]; [now split| subst h; discriminate].
    + intros [_ ->]. now left.
  - split; [tauto|intros [H _]; discriminate].
Qed.

Lemma in_ref h v :
  is_heading h = true ->
  In h (ref_section [] v) <-> nonblank_str v = true /\ h = h_ref.
Proof.
  intros Hh. unfold ref_section, nonblank_str, push.
  destruct (Py.is_str v && PyStr.nonempty (PyStr.strip (Py.as_str v))); simpl.
  - split.
    + intros [H|[H|[]]]; [now split| subst h; discriminate].
    + intros [_ ->]. now left.
  - split; [tauto|intros [H _]; discriminate].
Qed.

Lemma in_next h v :
  is_heading h = true ->
  In h (next_parts v) <-> nonempty_list v = true /\ h = h_next.
Proof.
  intros Hh. unfold next_parts, nonempty_list.
  destruct (Py.is_list v && Py.truthy v); simpl.
  - split.
    + intros [H|H]; [now split|].
      destruct (Py.truthy_list (flat_map command_of (Py.as_list v)));
        [|destruct H].
      destruct H as [H|[]]. subst h. discriminate.
    + intros [_ ->]. now left.
  - split; [tauto|intros [H _]; discriminate].
Qed.

Lemma probable_para_ok pc :
  negb (Py.truthy pc) || Py.is_str pc = true ->
  (if Py.truthy (Py.or_ pc (PStr ""))
   then e <- escape_value (Py.or_ pc (PStr "")) ;; Ok ("<p>" ++ e ++ "</p>")
   else Ok "")
  = Ok (probable_para pc).
Proof.
  unfold probable_para. by_shape pc.
Qed.

Lemma rag_parts_ok d :
  findings_ok d = true ->
  rag_parts py_str json_dumps_indent d
  = Ok ([h_probable; probable_para (Py.dict_get d "probable_cause")]
        ++ evidence_section py_str []
             (Py.or_ (Py.dict_get d "evidence_mapping") (PList []))
        ++ next_parts (Py.or_ (Py.dict_get d "next_steps") (PList []))
        ++ proposed_section py_str json_dumps_indent []
             (Py.or_ (Py.dict_get d "proposed_remediation_via_aap") (PDict []))
        ++ kb_section py_str []
             (Py.or_ (Py.dict_get d "key_kb_evidence") (PList []))
        ++ ref_section []
             (Py.or_ (Py.dict_get d "reference_document") (PStr "")))%list.
Proof.
  intros Hok. unfold findings_ok in Hok.
  apply andb_true_iff in Hok as [Hpc Hns].
  unfold rag_parts.
  rewrite (probable_para_ok _ Hpc). cbn [bind].
  rewrite evidence_section_app.
  rewrite (next_steps_section_ok _ _ (or_list_ok _ Hns)). cbn [bind].
  rewrite proposed_section_app, kb_section_app, ref_section_app.
  rewrite <- !app_assoc. reflexivity.
Qed.

Lemma part_after_skip h pre rest :
  ~ In h pre -> part_after h (pre ++ rest)%list = part_after h rest.
Proof.
  induction pre as [|p pre IH]; simpl; intros Hnot; [reflexivity|].
  destruct (String.eqb_spec p h) as [->|Hne]; [elim Hnot; now left|].
  apply IH. intros Hin. apply Hnot. now right.
Qed.

Lemma part_after_absent h parts : ~ In h parts -> part_after h parts = None.
Proof.
  induction parts as [|p parts IH]; simpl; intros Hnot; [reflexivity|].
  destruct (String.eqb_spec p h) as [->|Hne]; [elim Hnot; now left|].
  apply IH. intros Hin. apply Hnot. now right.
Qed.

Lemma probable_para_no_heading pc : is_heading (probable_para pc) = false.
Proof. unfold probable_para. now destruct (Py.truthy pc). Qed.

(** Where a heading can come from. *)
Lemma in_sections h pc ev ns pr kb rd :
  is_heading h = true ->
  In h ([h_probable; probable_para pc]
        ++ evidence_section py_str [] ev ++ next_parts ns
        ++ proposed_section py_str json_dumps_indent [] pr
        ++ kb_section py_str [] kb ++ ref_section [] rd)%list
  <-> h = h_probable
      \/ (nonempty_list ev = true /\ h = h_evidence)
      \/ (nonempty_list ns = true /\ h = h_next)
      \/ (nonempty_dict pr = true /\ h = h_proposed)
      \/ (nonempty_list kb = true /\ h = h_kb)
      \/ (nonblank_str rd = true /\ h = h_ref).
Proof.
  intros Hh. rewrite !in_app_iff.
  rewrite (in_evidence h ev Hh), (in_next h ns Hh), (in_proposed h pr Hh),
          (in_kb h kb Hh), (in_ref h rd Hh).
  simpl. split.
  - intros [[H|[H|[]]]|H]; [left; now symmetry| |right; exact H].
    rewrite <- H, probable_para_no_heading in Hh. discriminate.
  - intros [H|H]; [left; left; now symmetry|right; exact H].
Qed.

Lemma commands_some steps :
  Py.truthy_list (flat_map command_of steps) = existsb has_command steps.
Proof.
  destruct (existsb has_command steps) eqn:H.
  - destruct (flat_map command_of steps) eqn:Hc; [|reflexivity].
    apply commands_none in Hc. congruence.
  - apply commands_none in H. now rewrite H.
Qed.

Lemma head_no_code_block pr kb rd body :
  hd_error (proposed_section py_str json_dumps_indent [] pr
            ++ kb_section py_str [] kb ++ ref_section [] rd)%list
  <> Some (pre_code body).
Proof.
  unfold proposed_section, kb_section, ref_section, push.
  destruct (Py.is_dict pr && Py.truthy pr); simpl; [discriminate|].
  destruct (Py.is_list kb && Py.truthy kb); simpl; [discriminate|].
  destruct (Py.is_str rd && PyStr.nonempty (PyStr.strip (Py.as_str rd)));
    simpl; discriminate.
Qed.

Lemma next_absent_before pc ev :
  ~ In h_next ([h_probable; probable_para pc]
               ++ evidence_section py_str [] ev)%list.
Proof.
  rewrite in_app_iff, (in_evidence h_next ev eq_refl). simpl.
  intros [[H|[H|[]]]|[_ H]]; try discriminate.
  pose proof (probable_para_no_heading pc) as Hp.
  rewrite H in Hp. discriminate.
Qed.

Lemma next_absent_after pr kb rd :
  ~ In h_next (proposed_section py_str json_dumps_indent [] pr
               ++ kb_section py_str [] kb ++ ref_section [] rd)%list.
Proof.
  rewrite !in_app_iff, (in_proposed h_next pr eq_refl),
          (in_kb h_next kb eq_refl), (in_ref h_next rd eq_refl).
  intros [[_ H]|[[_ H]|[_ H]]]; discriminate.
Qed.

(** The part after the Next-steps heading is a code block exactly when
    there is a command. *)
Lemma code_block_after_next pc ev ns pr kb rd :
  (exists body,
      part_after h_next
        ([h_probable; probable_para pc]
         ++ evidence_section py_str [] ev ++ next_parts ns
         ++ proposed_section py_str json_dumps_indent [] pr
         ++ kb_section py_str [] kb ++ ref_section [] rd)%list
      = Some (pre_code body))
  <-> nonempty_list ns = true
      /\ existsb has_command (Py.as_list ns) = true.
Proof.
  rewrite app_assoc, (part_after_skip _ _ _ (next_absent_before pc ev)).
  unfold next_parts, nonempty_list. rewrite commands_some.
  destruct (Py.is_list ns && Py.truthy ns).
  - change (part_after h_next ((h_next :: ?a) ++ ?b)%list)
      with (hd_error (a ++ b)%list).
    simpl part_after.
    destruct (existsb has_command (Py.as_list ns)).
    + split; [tauto|]. intros _. eexists. reflexivity.
    + split; [|intros [_ H]; discriminate].
      intros [body H]. now apply head_no_code_block in H.
  - simpl app. rewrite (part_after_absent _ _ (next_absent_after pr kb rd)).
    split; [intros [body H]; discriminate|intros [H _]; discriminate].
Qed.

(** *** The parts, section by section *)

Lemma filter_nonempty_all parts :
  Forall (fun p => PyStr.nonempty p = true) parts ->
  filter PyStr.nonempty parts = parts.
Proof.
  induction 1 as [|p parts Hp Hparts IH]; [reflexivity|].
  cbn [filter]. now rewrite Hp, IH.
Qed.

Lemma item_list_nonempty texts :
  Forall (fun p => PyStr.nonempty p = true) (item_list texts).
Proof.
  unfold item_list. apply Forall_app. split; [now repeat constructor|].
  apply Forall_app. split; [|now repeat constructor].
  apply Forall_forall. intros p Hp.
  apply in_map_iff in Hp as (x & <- & _). reflexivity.
Qed.

Lemma section_nonempty present heading body :
  PyStr.nonempty heading = true ->
  Forall (fun p => PyStr.nonempty p = true) body ->
  filter PyStr.nonempty (section_parts present heading body)
  = section_parts present heading body.
Proof.
  intros Hh Hb. apply filter_nonempty_all. unfold section_parts.
  destruct present; [now constructor|constructor].
Qed.

Lemma evidence_parts v :
  evidence_section py_str [] (Py.or_ v (PList []))
  = section_parts (nonempty_list v) h_evidence
      (item_list (map py_str (Py.as_list v))).
Proof.
  destruct (or_list v) as [Hne Hl].
  unfold evidence_section. fold (nonempty_list (Py.or_ v (PList []))).
  rewrite Hne, Hl. unfold section_parts, item_list.
  destruct (nonempty_list v); [|reflexivity].
  cbn [app]. now rewrite map_map.
Qed.

Lemma kb_parts v :
  kb_section py_str [] (Py.or_ v (PList []))
  = section_parts (nonempty_list v) h_kb
      (item_list (map (kb_text py_str) (Py.as_list v))).
Proof.
  destruct (or_list v) as [Hne Hl].
  unfold kb_section. fold (nonempty_list (Py.or_ v (PList []))).
  rewrite Hne, Hl. unfold section_parts, item_list.
  destruct (nonempty_list v); [|reflexivity].
  cbn [app]. now rewrite map_map.
Qed.

Lemma next_steps_parts v :
  next_parts (Py.or_ v (PList []))
  = section_parts (nonempty_list v) h_next
      (if existsb has_command (Py.as_list v)
       then [pre_code
               (Html.escape
                  (PyStr.join nl (flat_map command_of (Py.as_list v))))]
       else []).
Proof.
  destruct (or_list v) as [Hne Hl].
  unfold next_parts. fold (nonempty_list (Py.or_ v (PList []))).
  now rewrite Hne, Hl, commands_some.
Qed.

Lemma or_dict_same v :
  nonempty_dict v = true -> Py.or_ v (PDict []) = v.
Proof.
  unfold nonempty_dict, Py.or_. intros H.
  apply andb_true_iff in H as [_ H]. now rewrite H.
Qed.

Lemma proposed_parts v :
  proposed_section py_str json_dumps_indent [] (Py.or_ v (PDict []))
  = section_parts (nonempty_dict v) h_proposed
      [pre_code
         (Html.escape
            (match json_dumps_indent v with
             | Ok s => s
             | Raise _ => py_str v
             end))].
Proof.
  pose proof (or_dict v) as Hne.
  unfold proposed_section. fold (nonempty_dict (Py.or_ v (PDict []))).
  rewrite Hne. unfold section_parts, push.
  destruct (nonempty_dict v) eqn:Hv; [|reflexivity].
  now rewrite (or_dict_same v Hv).
Qed.

Lemma ref_parts v :
  ref_section [] (Py.or_ v (PStr ""))
  = section_parts (nonblank_str v) h_ref
      [emphasised (PyStr.strip (Py.as_str v))].
Proof.
  destruct (or_str v) as (Hne & _ & Hsame).
  unfold ref_section. fold (nonblank_str (Py.or_ v (PStr ""))).
  rewrite Hne. unfold section_parts, push, emphasised.
  destruct (nonblank_str v) eqn:Hv; [|reflexivity].
  rewrite Hsame; [reflexivity|].
  unfold nonblank_str in Hv. apply andb_true_iff in Hv as [Hs Hn].
  destruct v as [| | |s| | | | |]; try discriminate.
  destruct s; [discriminate|reflexivity].
Qed.

(** The parts that are not empty are the sections of the report. *)
Lemma nonempty_parts d parts :
  findings_ok d = true ->
  rag_parts py_str json_dumps_indent d = Ok parts ->
  filter PyStr.nonempty parts = report_sections py_str json_dumps_indent d.
Proof.
  intros Hok Hparts. rewrite (rag_parts_ok d Hok) in Hparts.
  injection Hparts as <-.
  rewrite evidence_parts, next_steps_parts, proposed_parts, kb_parts,
          ref_parts.
  unfold report_sections. cbv zeta.
  assert (Hrest :
            forall a b c e f : list string,
              filter PyStr.nonempty a = a -> filter PyStr.nonempty b = b ->
              filter PyStr.nonempty c = c -> filter PyStr.nonempty e = e ->
              filter PyStr.nonempty f = f ->
              filter PyStr.nonempty (a ++ b ++ c ++ e ++ f)%list
              = (a ++ b ++ c ++ e ++ f)%list).
  { intros a b c e f Ha Hb Hc He Hf.
    now rewrite !filter_app, Ha, Hb, Hc, He, Hf. }
  cbn [filter]. change (PyStr.nonempty h_probable) with true. cbv iota.
  f_equal. unfold probable_para, paragraph.
  destruct (Py.truthy (Py.dict_get d "probable_cause")); cbn [app].
  1: change (PyStr.nonempty ("<p>" ++ ?x)) with true; cbv iota; f_equal.
  2: change (PyStr.nonempty "") with false; cbv iota.
  all: apply Hrest; apply section_nonempty;
    try reflexivity; try apply item_list_nonempty;
    try (destruct (existsb has_command _)); now repeat constructor.
Qed.

End AssemblerFacts.

Ltac other_heading :=
  match goal with
  | H : _ /\ _ |- _ => destruct H as [_ H]; discriminate H
  | H : _ = _ |- _ => discriminate H
  end.

(** C2 (as amended): for a non-empty findings mapping whose
    [probable_cause] is a string or empty and whose [next_steps] items
    are mappings or empty, the assembler returns, and the correlation
    HTML is the parts of the report joined by newlines, section by
    section: the Probable-cause heading, always, with the paragraph of
    the escaped cause exactly when [probable_cause] is non-empty; then
    each of Evidence mapping, Next steps, Proposed remediation, Key KB
    evidence and Reference document, heading and body, exactly when its
    field is a non-empty list, a non-empty list, a non-empty mapping, a
    non-empty list and a string of more than white space.  The bodies
    are the list of the escaped items, the code block of the commands
    (there exactly when some step carries a command string of more than
    white space), the code block of the serialized mapping, the list of
    the escaped items and the emphasised paragraph of the trimmed
    reference. *)
Theorem rag_sections
    (py_str : pyval -> string) (json_dumps_indent : pyval -> result string)
    (d : list (string * pyval)) (rag_explanation : string) :
  d <> [] ->
  findings_ok d = true ->
  exists parts,
    rag_parts py_str json_dumps_indent d = Ok parts
    /\ filter PyStr.nonempty parts
       = report_sections py_str json_dumps_indent d
    /\ rag_section_html py_str json_dumps_indent (PDict d) rag_explanation
       = Ok (PyStr.join nl (report_sections py_str json_dumps_indent d))
    /\ nth 0 parts "" = h_probable
    /\ nth 1 parts "" = probable_para (Py.dict_get d "probable_cause")
    /\ (In h_evidence parts
        <-> nonempty_list (Py.dict_get d "evidence_mapping") = true)
    /\ (In h_next parts <-> nonempty_list (Py.dict_get d "next_steps") = true)
    /\ ((exists body, part_after h_next parts = Some (pre_code body))
        <-> nonempty_list (Py.dict_get d "next_steps") = true
            /\ existsb has_command (Py.as_list (Py.dict_get d "next_steps"))
               = true)
    /\ (In h_proposed parts
        <-> nonempty_dict (Py.dict_get d "proposed_remediation_via_aap") = true)
    /\ (In h_kb parts <-> nonempty_list (Py.dict_get d "key_kb_evidence") = true)
    /\ (In h_ref parts
        <-> nonblank_str (Py.dict_get d "reference_document") = true).
Proof.
  intros Hne Hok.
  pose proof (rag_parts_ok py_str json_dumps_indent d Hok) as Hparts.
  pose proof (nonempty_parts py_str json_dumps_indent d _ Hok Hparts)
    as Hsections.
  eexists. split; [exact Hparts|].
  split; [exact Hsections|].
  split.
  { unfold rag_section_html. destruct d as [|kv d']; [now elim Hne|].
    cbn [Py.is_dict Py.truthy andb Py.as_dict].
    rewrite Hparts. cbn [bind]. now rewrite Hsections. }
  split; [reflexivity|]. split; [reflexivity|].
  destruct (or_list (Py.dict_get d "evidence_mapping")) as [Hev _].
  destruct (or_list (Py.dict_get d "next_steps")) as [Hns Hsteps].
  destruct (or_list (Py.dict_get d "key_kb_evidence")) as [Hkb _].
  pose proof (or_dict (Py.dict_get d "proposed_remediation_via_aap")) as Hpr.
  destruct (or_str (Py.dict_get d "reference_document")) as [Hrd _].
  repeat split;
    try (rewrite in_sections by reflexivity;
         rewrite ?Hev, ?Hns, ?Hkb, ?Hpr, ?Hrd;
         intros [H|[H|[H|[H|[H|H]]]]]; try other_heading; tauto);
    try (rewrite in_sections by reflexivity;
         rewrite ?Hev, ?Hns, ?Hkb, ?Hpr, ?Hrd; intros H; tauto).
  all: rewrite <- ?Hns, <- ?Hsteps.
  - now apply code_block_after_next in H.
  - now apply code_block_after_next in H.
  - intros H. now apply code_block_after_next.
Qed.

Lemma rag_sections_witness :
  rag_section_html RefLib.py_str RefLib.json_dumps_indent
    (PDict sample_findings) ""
  = Ok (PyStr.join nl
          [h_probable; paragraph "disk full";
           h_next; pre_code "df -h";
           h_ref; emphasised "runbook"]).
Proof.
  destruct (rag_sections RefLib.py_str RefLib.json_dumps_indent
              sample_findings "" ltac:(discriminate) eq_refl)
    as (parts & _ & _ & H & _).
  exact H.
Defined.

(** C2 (as stated) fails: with no [probable_cause] and no step that
    carries a command, the correlation HTML still holds the
    Probable-cause heading and the Next-steps heading. *)
Lemma rag_sections_counterexample :
  rag_section_html RefLib.py_str RefLib.json_dumps_indent
    (PDict steps_without_commands) ""
  = Ok ("<h4>1) Probable cause</h4>" ++ nl ++ "<h4>3) Next steps</h4>")
  /\ Py.lookup "probable_cause" steps_without_commands = None
  /\ existsb has_command
       (Py.as_list (Py.dict_get steps_without_commands "next_steps")) = false.
Proof. repeat split. Qed.

(* ================================================================= *)
(** ** The inline code escaper *)

Lemma body_len_split s m :
  body_len s = Some m ->
  s = PyStr.take m s ++ "`" ++ PyStr.drop (S m) s
  /\ has_char backtick (PyStr.take m s) = false
  /\ m < String.length s.
Proof.
  revert m. induction s as [|c s IH]; intros m H; cbn [body_len] in H;
    [discriminate|].
  destruct (Ascii.eqb backtick c) eqn:Hc.
  - apply Ascii.eqb_eq in Hc as <-. injection H as <-.
    simpl. repeat split. lia.
  - destruct (body_len s) as [k|]; [|discriminate].
    injection H as <-. destruct (IH k eq_refl) as [Hs [Hb Hl]].
    change (PyStr.drop (S (S k)) (String c s)) with (PyStr.drop (S k) s).
    cbn [PyStr.take has_char append String.length].
    rewrite Ascii.eqb_sym, Hc, Hb. cbn [append] in Hs. rewrite <- Hs.
    repeat split. lia.
Qed.

Lemma body_len_app b rest :
  has_char backtick b = false -> body_len (b ++ "`" ++ rest) = Some (String.length b).
Proof.
  induction b as [|c b IH]; intros H; [reflexivity|].
  cbn [has_char] in H. apply orb_false_iff in H as [Hc Hb].
  specialize (IH Hb). cbn [append body_len String.length] in IH |- *.
  rewrite Ascii.eqb_sym, Hc, IH. reflexivity.
Qed.

(** The tail of the pattern after the first body character: more body,
    then the closing backtick. *)
Lemma greedy_body g s pos :
  Re.greedy (Re.except backtick)
            (Re.run [Re.Close; Re.Chr (Re.only backtick)] g) s pos
  = match body_len s with
    | Some m => Some (pos + m + 1, (fst g, Some (pos + m)))
    | None => None
    end.
Proof.
  revert pos. induction s as [|c s IH]; intros pos; [reflexivity|].
  cbn [Re.greedy body_len Re.run]. unfold Re.except, Re.only.
  destruct (Ascii.eqb backtick c) eqn:Hc; cbn [negb].
  - rewrite !Nat.add_0_r, Nat.add_1_r. reflexivity.
  - rewrite IH. destruct (body_len s) as [m|]; cbn [option_map]; [|reflexivity].
    replace (S pos + m) with (pos + S m) by lia. reflexivity.
Qed.

(** A match of the pattern at the head of [s]. *)
Lemma run_inline g s pos :
  Re.run inline_code_re g s pos
  = match s with
    | String c s1 =>
        if Ascii.eqb backtick c then
          match body_len s1 with
          | Some (S n) => Some (pos + n + 3, (Some (S pos), Some (pos + n + 2)))
          | _ => None
          end
        else None
    | EmptyString => None
    end.
Proof.
  unfold inline_code_re. destruct s as [|c s1]; [reflexivity|].
  cbn [Re.run]. unfold Re.only at 1.
  destruct (Ascii.eqb backtick c); [|reflexivity].
  destruct s1 as [|c1 s2]; [reflexivity|].
  unfold Re.except at 1. cbn [body_len].
  destruct (Ascii.eqb backtick c1); simpl negb; cbv iota; [reflexivity|].
  etransitivity;
    [exact (greedy_body (Some (S pos), snd g) s2 (S (S pos)))|].
  cbn [fst snd].
  destruct (body_len s2) as [m|]; cbn [option_map]; [|reflexivity].
  replace (S (S pos) + m + 1) with (pos + m + 3) by lia.
  replace (S (S pos) + m) with (pos + m + 2) by lia. reflexivity.
Qed.

Lemma slice_to_end a s : PyStr.slice a (String.length s) s = PyStr.drop a s.
Proof.
  rewrite slice_take_drop. apply take_all. rewrite drop_length. lia.
Qed.

Lemma slice_length a b s : String.length (PyStr.slice a b s) <= b - a.
Proof. rewrite slice_take_drop. apply take_length. Qed.

(** Text in which the pattern matches nowhere holds no span. *)
Lemma unmatched_no_span text last stop :
  last <= stop ->
  no_match_between text last stop ->
  ~ has_span (PyStr.slice last stop text).
Proof.
  intros Hle Hnone (a & b & c & Heq & Hb & Hticks).
  pose proof (slice_length last stop text) as Hlen.
  rewrite Heq, !length_append in Hlen. simpl in Hlen.
  specialize (Hnone (last + String.length a) ltac:(lia)).
  rewrite <- drop_drop, (drop_slice last stop text Hle), Heq in Hnone.
  rewrite append_assoc, drop_app, run_inline in Hnone.
  cbn [append] in Hnone.
  change (Ascii.eqb backtick "`"%char) with true in Hnone. cbv iota in Hnone.
  rewrite !append_assoc in Hnone. cbn [append] in Hnone.
  pose proof (body_len_app b (c ++ PyStr.drop stop text) Hticks) as Hbody.
  cbn [append] in Hbody. rewrite Hbody in Hnone.
  destruct b as [|x b]; [now elim Hb|discriminate].
Qed.

Lemma concat_cons x l : String.concat "" (x :: l) = x ++ String.concat "" l.
Proof. destruct l; simpl; [now rewrite append_nil_r|reflexivity]. Qed.

Lemma concat_app l1 l2 :
  String.concat "" (l1 ++ l2)%list = String.concat "" l1 ++ String.concat "" l2.
Proof.
  induction l1 as [|x l1 IH]; [reflexivity|].
  change ((x :: l1) ++ l2)%list with (x :: (l1 ++ l2))%list.
  now rewrite !concat_cons, IH, append_assoc.
Qed.

(** No span starts before a match that was found where the pattern
    matched nowhere earlier. *)
Lemma no_span_before text last pos s :
  last <= pos ->
  no_match_between text last pos ->
  PyStr.drop pos text = String "`" s ->
  ~ has_span (PyStr.slice last pos text ++ "`").
Proof.
  intros Hle Hnone Hs (a & b & c & Heq & Hb & Hticks).
  pose proof (slice_length last pos text) as Hlen.
  pose proof (f_equal String.length Heq) as Hl.
  rewrite !length_append in Hl. cbn [String.length] in Hl.
  destruct b as [|x b]; [now elim Hb|]. cbn [String.length] in Hl.
  specialize (Hnone (last + String.length a) ltac:(lia)).
  rewrite <- drop_drop, (drop_slice last pos text Hle), Hs in Hnone.
  change (String "`" s) with ("`" ++ s) in Hnone.
  rewrite <- append_assoc, Heq, !append_assoc, drop_app, run_inline in Hnone.
  cbn [append] in Hnone.
  change (Ascii.eqb backtick "`"%char) with true in Hnone. cbv iota in Hnone.
  pose proof (body_len_app (String x b) (c ++ s) Hticks) as Hbody.
  cbn [append String.length] in Hbody. rewrite Hbody in Hnone. discriminate.
Qed.

(** The pieces of the loop are the pieces of the scan. *)
Lemma pieces_from_scanned text s :
  forall pos skip last,
    PyStr.drop pos text = s ->
    pos <= String.length text ->
    (skip = 0 -> last <= pos /\ no_match_between text last pos) ->
    (skip <> 0 -> last = pos + skip /\ last <= String.length text) ->
    scanned (PyStr.drop last text)
            (pieces_from text (Re.finditer_from inline_code_re skip s pos) last).
Proof.
  induction s as [|c s IH]; intros pos skip last Hs Hpos H0 Hskip.
  - assert (Hend : pos = String.length text).
    { pose proof (drop_length pos text) as Hl. rewrite Hs in Hl.
      simpl in Hl. lia. }
    assert (Hnil : Re.finditer_from inline_code_re skip "" pos = []).
    { destruct skip; [|reflexivity]. cbn [Re.finditer_from].
      now rewrite run_inline. }
    rewrite Hnil. cbn [pieces_from]. apply scanned_plain.
    destruct skip as [|k].
    + destruct (H0 eq_refl) as [Hle Hnone].
      rewrite <- slice_to_end. rewrite <- Hend.
      now apply unmatched_no_span.
    + destruct (Hskip ltac:(discriminate)) as [Hl1 Hl2]. lia.
  - pose proof (drop_succ _ _ _ _ Hs) as Hs'.
    assert (Hlt : pos < String.length text).
    { pose proof (drop_length pos text) as Hl. rewrite Hs in Hl.
      simpl in Hl. lia. }
    destruct skip as [|k].
    + destruct (H0 eq_refl) as [Hle Hnone].
      cbn [Re.finditer_from].
      destruct (Re.run inline_code_re (None, None) (String c s) pos)
        as [[e g]|] eqn:Hrun.
      * rewrite run_inline in Hrun.
        destruct (Ascii.eqb backtick c) eqn:Hc; [|discriminate].
        apply Ascii.eqb_eq in Hc. subst c.
        destruct (body_len s) as [[|n]|] eqn:Hbody; try discriminate.
        injection Hrun as <- <-.
        destruct (body_len_split _ _ Hbody) as [Hsplit [Hticks Hlen]].
        assert (Hslen : String.length s = String.length text - S pos).
        { rewrite <- Hs'. apply drop_length. }
        replace (pos + n + 3 - pos - 1) with (n + 2) by lia.
        cbn [pieces_from Re.m_start Re.m_end].
        pose proof (IH (S pos) (n + 2) (pos + n + 3) Hs' ltac:(lia)
                       ltac:(lia) ltac:(intros _; lia)) as Hrest.
        assert (Hgroup : Re.group1 text (Re.mkMatch pos (pos + n + 3)
                                           (Some (S pos), Some (pos + n + 2)))
                         = PyStr.take (S n) s).
        { unfold Re.group1. cbn [Re.m_caps].
          rewrite slice_take_drop, Hs'. f_equal. lia. }
        rewrite Hgroup.
        assert (Hform : PyStr.drop last text
                        = PyStr.slice last pos text ++ "`"
                          ++ PyStr.take (S n) s ++ "`"
                          ++ PyStr.drop (pos + n + 3) text).
        { rewrite (drop_slice last pos text Hle), Hs. f_equal.
          replace (PyStr.drop (pos + n + 3) text)
            with (PyStr.drop (S (S n)) s)
            by (rewrite <- Hs', drop_drop; f_equal; lia).
          cbn [append] in Hsplit |- *. now rewrite <- Hsplit. }
        rewrite Hform. apply scanned_span.
        -- exact (no_span_before text last pos s Hle Hnone Hs).
        -- destruct s; [simpl in Hlen; lia|discriminate].
        -- exact Hticks.
        -- exact Hrest.
      * apply (IH (S pos) 0 last Hs' ltac:(lia)); [|intros H; now elim H].
        intros _. split; [lia|]. intros q Hq.
        destruct (Nat.eq_dec q pos) as [->|Hne].
        -- now rewrite Hs.
        -- apply Hnone. lia.
    + destruct (Hskip ltac:(discriminate)) as [Hl1 Hl2].
      cbn [Re.finditer_from].
      apply (IH (S pos) k last Hs' ltac:(lia)).
      * intros ->. split; [lia|]. intros q Hq. lia.
      * intros Hk. split; lia.
Qed.

(** The scan of a text is unique. *)
Lemma has_span_cons c s : has_span s -> has_span (String c s).
Proof.
  intros (a & b & r & Heq & Hb & Hticks).
  exists (String c a), b, r. repeat split; auto. now rewrite Heq.
Qed.

Lemma first_tick b b' r r' :
  has_char backtick b = false -> has_char backtick b' = false ->
  b ++ "`" ++ r = b' ++ "`" ++ r' -> b = b' /\ r = r'.
Proof.
  revert b'. induction b as [|c b IH]; intros [|c' b'] Hb Hb' Heq;
    cbn [append has_char] in *.
  - injection Heq as ->. now split.
  - injection Heq as <- _. apply orb_false_iff in Hb' as [Hc _]. discriminate.
  - injection Heq as -> _. apply orb_false_iff in Hb as [Hc _]. discriminate.
  - injection Heq as -> Heq.
    apply orb_false_iff in Hb as [_ Hb]. apply orb_false_iff in Hb' as [_ Hb'].
    destruct (IH b' Hb Hb' Heq) as [-> ->]. now split.
Qed.

Lemma tick_prefix b a r r2 :
  has_char backtick b = false ->
  b ++ "`" ++ r = a ++ "`" ++ r2 ->
  exists z, a ++ "`" = b ++ "`" ++ z.
Proof.
  revert a. induction b as [|c b IH]; intros [|c' a] Hb Heq;
    cbn [append has_char] in *.
  - now exists "".
  - injection Heq as <- _. now exists (a ++ "`").
  - injection Heq as -> _. apply orb_false_iff in Hb as [Hc _]. discriminate.
  - injection Heq as -> Heq. apply orb_false_iff in Hb as [_ Hb].
    destruct (IH a Hb Heq) as [z Hz]. exists z. now rewrite Hz.
Qed.

Lemma span_start a :
  forall a' b b' r r',
    ~ has_span (a ++ "`") -> ~ has_span (a' ++ "`") ->
    b <> "" -> b' <> "" ->
    has_char backtick b = false -> has_char backtick b' = false ->
    a ++ "`" ++ b ++ "`" ++ r = a' ++ "`" ++ b' ++ "`" ++ r' ->
    a = a'.
Proof.
  induction a as [|c a IH]; intros [|c' a'] b b' r r' Ha Ha' Hne Hne' Hb Hb' Heq;
    cbn [append] in Heq.
  - reflexivity.
  - injection Heq as <- Heq.
    destruct (tick_prefix b a' r _ Hb Heq) as [z Hz].
    elim Ha'. exists "", b, z. cbn [append]. now rewrite Hz.
  - injection Heq as -> Heq. symmetry in Heq.
    destruct (tick_prefix b' a r' _ Hb' Heq) as [z Hz].
    elim Ha. exists "", b', z. cbn [append]. now rewrite Hz.
  - injection Heq as -> Heq. f_equal.
    apply (IH a' b b' r r'); auto.
    + intros H. apply Ha. cbn [append]. now apply has_span_cons.
    + intros H. apply Ha'. cbn [append]. now apply has_span_cons.
Qed.

Lemma scanned_unique s pieces :
  scanned s pieces -> forall pieces', scanned s pieces' -> pieces' = pieces.
Proof.
  induction 1 as [s Hs|a b rest pieces Ha Hne Hb Hrest IH];
    intros pieces' H'.
  - inversion H' as [s' Hs' E1 E2|a' b' rest' ps' Ha' Hne' Hb' Hrest' E1 E2];
      [reflexivity|].
    elim Hs. rewrite <- E1. now exists a', b', rest'.
  - inversion H' as [s' Hs' E1 E2|a' b' rest' ps' Ha' Hne' Hb' Hrest' E1 E2].
    + elim Hs'. now exists a, b, rest.
    + pose proof (span_start _ _ _ _ _ _ Ha' Ha Hne' Hne Hb' Hb E1) as ->.
      apply append_inv_head in E1. cbn [append] in E1. injection E1 as E1.
      destruct (first_tick _ _ _ _ Hb' Hb E1) as [-> ->].
      now rewrite (IH _ Hrest').
Qed.

Lemma scanned_source s pieces :
  scanned s pieces -> s = String.concat "" (map piece_source pieces).
Proof.
  induction 1 as [s Hs|a b rest pieces Ha Hne Hb Hrest IH].
  - cbn. reflexivity.
  - cbn [map]. rewrite !concat_cons, <- IH. cbn [piece_source].
    now rewrite !append_assoc.
Qed.

Lemma finditer_scanned text :
  scanned text (pieces_from text (Re.finditer inline_code_re text) 0).
Proof.
  apply (pieces_from_scanned text text 0 0 0 eq_refl); [lia| |].
  - intros _. split; [lia|]. intros q Hq. lia.
  - intros H. now elim H.
Qed.

Lemma inline_loop_pieces text ms :
  forall parts last,
    (let '(parts', last') := fold_left (inline_step text) ms (parts, last) in
     PyStr.join "" (push parts' (Html.escape (PyStr.drop last' text))))
    = String.concat "" parts
      ++ String.concat "" (map piece_html (pieces_from text ms last)).
Proof.
  induction ms as [|m ms IH]; intros parts last.
  - cbn [fold_left pieces_from map piece_html]. unfold PyStr.join, push.
    now rewrite concat_app.
  - cbn [fold_left pieces_from map]. unfold inline_step at 2.
    rewrite IH. unfold push. rewrite !concat_app, !concat_cons.
    cbn [piece_html String.concat]. now rewrite !append_assoc.
Qed.

Lemma render_inline_pieces text :
  _render_inline_code_escaped text
  = String.concat ""
      (map piece_html
           (pieces_from text (Re.finditer inline_code_re text) 0)).
Proof.
  unfold _render_inline_code_escaped.
  pose proof (inline_loop_pieces text (Re.finditer inline_code_re text) [] 0)
    as H.
  destruct (fold_left (inline_step text) (Re.finditer inline_code_re text)
                      ([], 0)) as [parts last].
  exact H.
Qed.

Lemma piece_html_safe p : markup_safe (piece_html p).
Proof.
  destruct p as [s|s]; cbn [piece_html]; [apply escape_safe|].
  apply (safe_tag "<code>"); [simpl; tauto|].
  apply markup_safe_app; [apply escape_safe|].
  apply (safe_tag "</code>" ""); [simpl; tauto|apply safe_end].
Qed.

Lemma pieces_html_safe ps : markup_safe (String.concat "" (map piece_html ps)).
Proof.
  induction ps as [|p ps IH]; [apply safe_end|].
  cbn [map]. rewrite concat_cons.
  apply markup_safe_app; [apply piece_html_safe|exact IH].
Qed.

Lemma finditer_lone_backtick s pos :
  has_char backtick s = false ->
  Re.finditer_from inline_code_re 0 (s ++ "`") pos = [].
Proof.
  revert pos. induction s as [|c s IH]; intros pos H.
  - cbn [append Re.finditer_from]. rewrite run_inline.
    change (Ascii.eqb backtick "`"%char) with true. cbv iota.
    cbn [body_len]. rewrite run_inline. reflexivity.
  - cbn [has_char] in H. apply orb_false_iff in H as [Hc Hs].
    cbn [append Re.finditer_from]. rewrite run_inline.
    rewrite Ascii.eqb_sym, Hc. now apply IH.
Qed.

Lemma escape_backtick : Html.escape "`" = "`".
Proof. reflexivity. Qed.

(** C9: the inline code escaper goes by the scan for spans (a
    backtick, a non-empty body free of backticks, a backtick; the
    leftmost span first, the next one sought behind its closing
    backtick): every text has such a scan, and for the pieces of the
    scan, literal texts and span bodies, which in order give back the
    input, the output is the escaped literal texts and the escaped
    bodies, each body wrapped in the inline-code tag, in the same
    order; every [<], [>] and [&] of the output belongs to a character
    entity or to an inline-code tag; and a backtick that ends a text
    without other backticks stays literal. *)
Theorem inline_code_escaper (text : string) :
  (exists pieces, scanned text pieces)
  /\ (forall pieces,
        scanned text pieces ->
        text = String.concat "" (map piece_source pieces)
        /\ _render_inline_code_escaped text
           = String.concat "" (map piece_html pieces))
  /\ markup_safe (_render_inline_code_escaped text)
  /\ (has_char backtick text = false ->
      _render_inline_code_escaped (text ++ "`") = Html.escape text ++ "`").
Proof.
  split; [|split; [|split]].
  - eexists. apply finditer_scanned.
  - intros pieces H. split; [now apply scanned_source|].
    rewrite (scanned_unique _ _ (finditer_scanned text) _ H).
    apply render_inline_pieces.
  - rewrite render_inline_pieces. apply pieces_html_safe.
  - intros H. rewrite render_inline_pieces. unfold Re.finditer.
    rewrite (finditer_lone_backtick text 0 H).
    cbn [pieces_from map piece_html String.concat PyStr.drop].
    now rewrite escape_app, escape_backtick.
Qed.

Lemma inline_code_escaper_witness :
  _render_inline_code_escaped ("a < b & c" ++ "`") = "a &lt; b &amp; c" ++ "`".
Proof.
  exact (proj2 (proj2 (proj2 (inline_code_escaper "a < b & c"))) eq_refl).
Defined.

(* ================================================================= *)
(** ** The renderer *)

(** C10: the worked example renders to the list opened and closed, the
    line break, and the code block opened and closed around the escaped
    line, in this order and with the fence lines left out; the output
    is these parts joined by newlines. *)
Theorem render_worked_example :
  md_parts worked_example
  = ["<ul>"; "<li>step one</li>"; "</ul>"; "<br/>"; "<pre><code>";
     "kubectl get pods"; "</code></pre>"]
  /\ String.concat "" (md_parts worked_example)
     = "<ul><li>step one</li></ul><br/><pre><code>kubectl get pods</code></pre>"
  /\ render_simple_markdown_to_html worked_example
     = PyStr.join nl (md_parts worked_example).
Proof. repeat split; vm_compute; reflexivity. Qed.

(* ================================================================= *)
(** ** Searching *)

Lemma prefix_cons c p x s :
  prefix (String c p) (String x s) = Ascii.eqb c x && prefix p s.
Proof.
  cbn [prefix]. destruct (ascii_dec c x) as [->|Hne].
  - now rewrite Ascii.eqb_refl.
  - apply Ascii.eqb_neq in Hne. now rewrite Hne.
Qed.

Lemma prefix_split p s : prefix p s = true -> s = p ++ PyStr.drop (String.length p) s.
Proof.
  revert s. induction p as [|c p IH]; intros s H; [reflexivity|].
  destruct s as [|x s]; [discriminate|].
  rewrite prefix_cons in H. apply andb_true_iff in H as [Hc Hp].
  apply Ascii.eqb_eq in Hc. subst x. cbn [append String.length PyStr.drop].
  f_equal. now apply IH.
Qed.

Lemma prefix_app p s : prefix p (p ++ s) = true.
Proof.
  induction p as [|c p IH]; [now destruct s|].
  cbn [append]. now rewrite prefix_cons, Ascii.eqb_refl.
Qed.

Lemma find_from_shift pos p s :
  PyStr.find_from (S pos) p s = option_map S (PyStr.find_from pos p s).
Proof.
  revert pos. induction s as [|c s IH]; intros pos; cbn [PyStr.find_from].
  - now destruct (prefix p "").
  - destruct (prefix p (String c s)); [reflexivity|apply IH].
Qed.

Lemma find_from_offset pos p s :
  PyStr.find_from pos p s = option_map (Nat.add pos) (PyStr.find p s).
Proof.
  induction pos as [|pos IH].
  - unfold PyStr.find. now destruct (PyStr.find_from 0 p s).
  - rewrite find_from_shift, IH. now destruct (PyStr.find p s).
Qed.

Lemma find_cons p c s :
  PyStr.find p (String c s)
  = if prefix p (String c s) then Some 0
    else option_map S (PyStr.find p s).
Proof.
  unfold PyStr.find. cbn [PyStr.find_from]. now rewrite find_from_shift.
Qed.

(** Where [find] points, the text starts with [p], and nowhere before. *)
Lemma find_some p s i :
  PyStr.find p s = Some i ->
  prefix p (PyStr.drop i s) = true
  /\ i <= String.length s
  /\ forall j, j < i -> prefix p (PyStr.drop j s) = false.
Proof.
  revert i. induction s as [|c s IH]; intros i H.
  - unfold PyStr.find in H. cbn [PyStr.find_from] in H.
    destruct (prefix p "") eqn:Hp; [|discriminate].
    injection H as <-. repeat split; [exact Hp|lia|intros j Hj; lia].
  - rewrite find_cons in H.
    destruct (prefix p (String c s)) eqn:Hp.
    + injection H as <-. repeat split; [exact Hp|simpl; lia|intros j Hj; lia].
    + destruct (PyStr.find p s) as [k|]; [|discriminate].
      injection H as <-. destruct (IH k eq_refl) as [H1 [H2 H3]].
      repeat split; [exact H1|simpl; lia|].
      intros [|j] Hj; [exact Hp|]. apply H3. lia.
Qed.

Lemma find_none p s n : PyStr.find p s = None -> prefix p (PyStr.drop n s) = false.
Proof.
  revert n. induction s as [|c s IH]; intros n H.
  - rewrite drop_nil. unfold PyStr.find in H. cbn [PyStr.find_from] in H.
    now destruct (prefix p "").
  - rewrite find_cons in H.
    destruct (prefix p (String c s)) eqn:Hp; [discriminate|].
    destruct (PyStr.find p s) eqn:Hf; [discriminate|].
    destruct n as [|n]; [exact Hp|]. now apply IH.
Qed.

Lemma contains_drop p s n :
  PyStr.contains p (PyStr.drop n s) = true -> PyStr.contains p s = true.
Proof.
  unfold PyStr.contains. intros H.
  destruct (PyStr.find p s) eqn:Hf; [reflexivity|].
  destruct (PyStr.find p (PyStr.drop n s)) as [i|] eqn:Hd; [|discriminate].
  destruct (find_some _ _ _ Hd) as [Hp _].
  rewrite drop_drop in Hp. now rewrite (find_none _ _ _ Hf) in Hp.
Qed.

Lemma contains_prefix p s : prefix p s = true -> PyStr.contains p s = true.
Proof.
  unfold PyStr.contains, PyStr.find. intros H.
  destruct s; cbn [PyStr.find_from]; now rewrite H.
Qed.

Section Matcher.

Import Re.

Lemma run_lit p r g s pos :
  run (lit p ++ r)%list g s pos
  = if prefix p s
    then run r g (PyStr.drop (String.length p) s) (pos + String.length p)
    else None.
Proof.
  revert s pos. induction p as [|c p IH]; intros s pos.
  - cbn [lit app String.length PyStr.drop].
    rewrite Nat.add_0_r. now destruct s.
  - cbn [lit app run]. destruct s as [|x s]; [reflexivity|].
    rewrite prefix_cons. unfold only.
    destruct (Ascii.eqb c x); [|reflexivity].
    rewrite IH. cbn [andb String.length PyStr.drop].
    now replace (S pos + String.length p) with (pos + S (String.length p))
      by lia.
Qed.

(** A greedy or lazy repetition succeeds only where its continuation
    does. *)
Lemma greedy_some p k s pos res :
  greedy p k s pos = Some res ->
  exists n, k (PyStr.drop n s) (pos + n) = Some res.
Proof.
  revert pos. induction s as [|c s IH]; intros pos H; cbn [greedy] in H.
  - exists 0. now rewrite Nat.add_0_r.
  - destruct (p c).
    + destruct (greedy p k s (S pos)) as [r|] eqn:Hg.
      * injection H as <-. destruct (IH _ Hg) as [n Hn].
        exists (S n). cbn [PyStr.drop]. now rewrite Nat.add_succ_r.
      * exists 0. now rewrite Nat.add_0_r.
    + exists 0. now rewrite Nat.add_0_r.
Qed.

Lemma lazy_some p k s pos res :
  lazy p k s pos = Some res ->
  exists n, k (PyStr.drop n s) (pos + n) = Some res.
Proof.
  revert pos. induction s as [|c s IH]; intros pos H; cbn [lazy] in H.
  - destruct (k "" pos) eqn:Hk; [|discriminate].
    exists 0. now rewrite Nat.add_0_r, <- H.
  - destruct (k (String c s) pos) eqn:Hk.
    + exists 0. now rewrite Nat.add_0_r, <- H.
    + destruct (p c); [|discriminate].
      destruct (IH _ H) as [n Hn].
      exists (S n). cbn [PyStr.drop]. now rewrite Nat.add_succ_r.
Qed.

(** A pattern that ends in a literal matches only a text that holds
    the literal. *)
Lemma run_tail_literal p r :
  forall g s pos res,
    run (r ++ lit p)%list g s pos = Some res -> PyStr.contains p s = true.
Proof.
  induction r as [|a r IH]; intros g s pos res H.
  - cbn [app] in H. rewrite <- (app_nil_r (lit p)), run_lit in H.
    destruct (prefix p s) eqn:Hp; [|discriminate].
    now apply contains_prefix.
  - cbn [app run] in H. destruct a as [q|[|] q| |].
    + destruct s as [|c s]; [discriminate|].
      destruct (q c); [|discriminate].
      apply (contains_drop p (String c s) 1). cbn [PyStr.drop].
      exact (IH _ _ _ _ H).
    + destruct (greedy_some _ _ _ _ _ H) as [n Hn].
      apply (contains_drop p s n). exact (IH _ _ _ _ Hn).
    + destruct (lazy_some _ _ _ _ _ H) as [n Hn].
      apply (contains_drop p s n). exact (IH _ _ _ _ Hn).
    + exact (IH _ _ _ _ H).
    + exact (IH _ _ _ _ H).
Qed.

Lemma search_from_tail_literal p r s pos m :
  search_from (r ++ lit p)%list s pos = Some m -> PyStr.contains p s = true.
Proof.
  revert pos. induction s as [|c s IH]; intros pos H; cbn [search_from] in H.
  - destruct (run (r ++ lit p)%list (None, None) "" pos) as [[e g]|] eqn:Hr;
      [|discriminate].
    exact (run_tail_literal _ _ _ _ _ _ Hr).
  - destruct (run (r ++ lit p)%list (None, None) (String c s) pos)
      as [[e g]|] eqn:Hr.
    + exact (run_tail_literal _ _ _ _ _ _ Hr).
    + apply (contains_drop p (String c s) 1). cbn [PyStr.drop].
      exact (IH _ H).
Qed.

(** A pattern that starts with a literal is tried at the first
    occurrence of the literal. *)
Lemma search_from_first p r s :
  forall pos i e g,
    PyStr.find p s = Some i ->
    run r (None, None) (PyStr.drop (i + String.length p) s)
        (pos + i + String.length p) = Some (e, g) ->
    search_from (lit p ++ r)%list s pos = Some (mkMatch (pos + i) e g).
Proof.
  induction s as [|c s IH]; intros pos i e g Hfind Hrun.
  - destruct (find_some _ _ _ Hfind) as [Hp [Hi _]]. simpl in Hi.
    assert (i = 0) by lia. subst i. cbn [search_from].
    rewrite run_lit. cbn [PyStr.drop] in Hp. rewrite Hp.
    rewrite Nat.add_0_r in *. cbn [Nat.add] in Hrun. now rewrite Hrun.
  - rewrite find_cons in Hfind. cbn [search_from]. rewrite run_lit.
    destruct (prefix p (String c s)) eqn:Hp.
    + injection Hfind as <-. rewrite Nat.add_0_r in *.
      cbn [Nat.add] in Hrun. now rewrite Hrun.
    + destruct (PyStr.find p s) as [k|] eqn:Hk; [|discriminate].
      injection Hfind as <-.
      replace (pos + S k) with (S pos + k) in * by lia.
      apply IH; [reflexivity|]. exact Hrun.
Qed.

(** A search for a literal alone is [find]. *)
Lemma search_literal p s :
  search (lit p) s
  = match PyStr.find p s with
    | Some i => Some (mkMatch i (i + String.length p) (None, None))
    | None => None
    end.
Proof.
  unfold search.
  destruct (PyStr.find p s) as [i|] eqn:Hf.
  - rewrite <- (app_nil_r (lit p)).
    apply (search_from_first p [] s 0 i); [exact Hf|reflexivity].
  - assert (H : forall pos, search_from (lit p) s pos = None);
      [|apply H].
    clear -Hf. intros pos. revert pos.
    induction s as [|c s IH]; intros pos; cbn [search_from];
      rewrite <- (app_nil_r (lit p)), run_lit, ?app_nil_r.
    + pose proof (find_none p "" 0 Hf) as Hp. cbn [PyStr.drop] in Hp.
      now rewrite Hp.
    + pose proof (find_none p (String c s) 0 Hf) as Hp.
      cbn [PyStr.drop] in Hp. rewrite Hp. apply IH.
      rewrite find_cons in Hf.
      destruct (prefix p (String c s)); [discriminate|].
      now destruct (PyStr.find p s).
Qed.

(** *** The matcher and the texts of a pattern *)

Lemma greedy_sound p k s pos res :
  greedy p k s pos = Some res ->
  exists x y,
    s = x ++ y /\ all_chars p x = true
    /\ k y (pos + String.length x) = Some res.
Proof.
  revert pos. induction s as [|c s IH]; intros pos H; cbn [greedy] in H.
  - exists "", "". cbn. now rewrite Nat.add_0_r.
  - destruct (p c) eqn:Hc.
    + destruct (greedy p k s (S pos)) as [r|] eqn:Hg.
      * injection H as <-. destruct (IH _ Hg) as (x & y & -> & Hx & Hk).
        exists (String c x), y. cbn [append all_chars String.length].
        rewrite Hc, Hx, Nat.add_succ_r. now repeat split.
      * exists "", (String c s). cbn. now rewrite Nat.add_0_r.
    + exists "", (String c s). cbn. now rewrite Nat.add_0_r.
Qed.

Lemma lazy_sound p k s pos res :
  lazy p k s pos = Some res ->
  exists x y,
    s = x ++ y /\ all_chars p x = true
    /\ k y (pos + String.length x) = Some res.
Proof.
  revert pos. induction s as [|c s IH]; intros pos H; cbn [lazy] in H.
  - destruct (k "" pos) eqn:Hk; [|discriminate].
    exists "", "". cbn. now rewrite Nat.add_0_r, <- H.
  - destruct (k (String c s) pos) eqn:Hk.
    + exists "", (String c s). cbn. now rewrite Nat.add_0_r, <- H.
    + destruct (p c) eqn:Hc; [|discriminate].
      destruct (IH _ H) as (x & y & -> & Hx & Hy).
      exists (String c x), y. cbn [append all_chars String.length].
      rewrite Hc, Hx, Nat.add_succ_r. now repeat split.
Qed.

Lemma matches_star_run b p r x y :
  all_chars p x = true ->
  matches (Star b p :: r) y -> matches (Star b p :: r) (x ++ y).
Proof.
  induction x as [|c x IH]; intros Hx Hy; [exact Hy|].
  cbn [all_chars] in Hx. apply andb_true_iff in Hx as [Hc Hx].
  cbn [append]. apply matches_star_more; auto.
Qed.

(** Where the matcher succeeds, the pattern matches a beginning of
    the text. *)
Lemma run_sound r :
  forall g s pos res,
    run r g s pos = Some res ->
    exists a rest, s = a ++ rest /\ matches r a.
Proof.
  induction r as [|a r IH]; intros g s pos res H.
  - exists "", s. split; [reflexivity|constructor].
  - cbn [run] in H. destruct a as [p|[|] p| |].
    + destruct s as [|c s]; [discriminate|].
      destruct (p c) eqn:Hc; [|discriminate].
      destruct (IH _ _ _ _ H) as (x & rest & -> & Hx).
      exists (String c x), rest. split; [reflexivity|].
      now apply matches_chr.
    + destruct (greedy_sound _ _ _ _ _ H) as (x & y & -> & Hx & Hk).
      destruct (IH _ _ _ _ Hk) as (z & rest & -> & Hz).
      exists (x ++ z), rest. split; [now rewrite append_assoc|].
      apply matches_star_run; [exact Hx|now apply matches_star_stop].
    + destruct (lazy_sound _ _ _ _ _ H) as (x & y & -> & Hx & Hk).
      destruct (IH _ _ _ _ Hk) as (z & rest & -> & Hz).
      exists (x ++ z), rest. split; [now rewrite append_assoc|].
      apply matches_star_run; [exact Hx|now apply matches_star_stop].
    + destruct (IH _ _ _ _ H) as (x & rest & -> & Hx).
      exists x, rest. split; [reflexivity|now apply matches_open].
    + destruct (IH _ _ _ _ H) as (x & rest & -> & Hx).
      exists x, rest. split; [reflexivity|now apply matches_close].
Qed.

(** Where the pattern matches a beginning of the text, the matcher
    succeeds. *)
Lemma run_complete r a :
  matches r a ->
  forall g rest pos, exists res, run r g (a ++ rest) pos = Some res.
Proof.
  induction 1 as [|p r c s Hc Hs IH|b p r s Hs IH|b p r c s Hc Hs IH
                  |r s Hs IH|r s Hs IH]; intros g rest pos.
  - eexists. reflexivity.
  - cbn [append run]. rewrite Hc. apply IH.
  - destruct (IH g rest pos) as [res Hres]. cbn [run].
    destruct b.
    + destruct (s ++ rest) as [|c t]; cbn [greedy];
        [now exists res|].
      destruct (p c); [|now exists res].
      destruct (greedy p (run r g) t (S pos)) as [r0|];
        [now exists r0|now exists res].
    + exists res. destruct (s ++ rest); cbn [lazy]; now rewrite Hres.
  - destruct (IH g rest pos) as [res Hres]. cbn [run] in Hres |- *.
    cbn [append]. destruct b.
    + cbn [greedy]. rewrite Hc.
      destruct (greedy p (run r g) (s ++ rest) (S pos)) as [r0|] eqn:Hg.
      * now exists r0.
      * specialize (IH g rest (S pos)). cbn [run] in IH.
        rewrite Hg in IH. destruct IH as [r1 Hr1]. discriminate.
    + cbn [lazy].
      destruct (run r g (String c (s ++ rest)) pos) as [r0|];
        [now exists r0|].
      rewrite Hc. specialize (IH g rest (S pos)). cbn [run] in IH.
      exact IH.
  - cbn [run]. apply IH.
  - cbn [run]. apply IH.
Qed.

Lemma search_from_sound r s :
  forall pos m,
    search_from r s pos = Some m ->
    exists pre a post, s = pre ++ a ++ post /\ matches r a.
Proof.
  induction s as [|c s IH]; intros pos m H; cbn [search_from] in H.
  - destruct (run r (None, None) "" pos) as [[e g]|] eqn:Hr;
      [|discriminate].
    destruct (run_sound _ _ _ _ _ Hr) as (a & rest & Heq & Ha).
    now exists "", a, rest.
  - destruct (run r (None, None) (String c s) pos) as [[e g]|] eqn:Hr.
    + destruct (run_sound _ _ _ _ _ Hr) as (a & rest & Heq & Ha).
      now exists "", a, rest.
    + destruct (IH _ _ H) as (pre & a & post & -> & Ha).
      now exists (String c pre), a, post.
Qed.

Lemma search_from_complete r a pre post :
  matches r a ->
  forall pos, exists m, search_from r (pre ++ a ++ post) pos = Some m.
Proof.
  intros Ha. induction pre as [|c pre IH]; intros pos.
  - destruct (run_complete r a Ha (None, None) post pos) as [[e g] Hr].
    cbn [append].
    destruct (a ++ post); cbn [search_from]; rewrite Hr; eexists;
      reflexivity.
  - cbn [append search_from].
    destruct (run r (None, None) (String c (pre ++ a ++ post)) pos)
      as [[e g]|]; [eexists; reflexivity|apply IH].
Qed.

(** A search finds a match exactly in a text that holds a text of the
    pattern. *)
Lemma search_matches r s :
  (exists m, search r s = Some m)
  <-> exists pre a post, s = pre ++ a ++ post /\ matches r a.
Proof.
  split.
  - intros [m H]. exact (search_from_sound _ _ _ _ H).
  - intros (pre & a & post & -> & Ha).
    exact (search_from_complete r a pre post Ha 0).
Qed.

Lemma matches_lit p r a :
  matches (lit p ++ r)%list a <-> exists a', a = p ++ a' /\ matches r a'.
Proof.
  revert a. induction p as [|c p IH]; intros a; cbn [lit app].
  - split; [intros H; now exists a|intros (a' & -> & H); exact H].
  - split.
    + intros H. inversion H as [|q r' x s Hx Hs| | | |]; subst.
      apply IH in Hs as (a' & -> & Ha').
      unfold only in Hx. apply Ascii.eqb_eq in Hx as <-.
      now exists a'.
    + intros (a' & -> & Ha'). cbn [append]. apply matches_chr.
      * apply Ascii.eqb_refl.
      * apply IH. now exists a'.
Qed.

Lemma matches_any b r a :
  matches (Star b anychar :: r) a
  <-> exists x y, a = x ++ y /\ matches r y.
Proof.
  split.
  - remember (Star b anychar :: r) as r0 eqn:Hr0.
    induction 1 as [|p r' c s Hc Hs IH|b' p r' s Hs IH|b' p r' c s Hc Hs IH
                    |r' s Hs IH|r' s Hs IH]; try discriminate.
    + injection Hr0 as -> -> ->. now exists "", s.
    + destruct (IH Hr0) as (x & y & -> & Hy).
      now exists (String c x), y.
  - intros (x & y & -> & Hy). apply matches_star_run.
    + clear. induction x; [reflexivity|exact IHx].
    + now apply matches_star_stop.
Qed.

End Matcher.

(* ================================================================= *)
(** ** What the working copy keeps of the text

    The normalization cuts fences out and puts newlines for line-break
    tags.  A run of word characters of the working copy is a run of the
    text: a cut is followed by a character that is no word character,
    and a newline is none. *)

Lemma contains_cons p c s :
  PyStr.contains p (String c s) = prefix p (String c s) || PyStr.contains p s.
Proof.
  unfold PyStr.contains. rewrite find_cons.
  destruct (prefix p (String c s)); [reflexivity|].
  now destruct (PyStr.find p s).
Qed.

Lemma contains_app_r p d s :
  PyStr.contains p s = true -> PyStr.contains p (d ++ s) = true.
Proof.
  intros H. induction d as [|c d IH]; [exact H|].
  cbn [append]. rewrite contains_cons, IH. apply orb_true_r.
Qed.

Lemma prefix_nil_l s : prefix "" s = true.
Proof. now destruct s. Qed.

Lemma contains_nil p : p <> "" -> PyStr.contains p "" = false.
Proof. destruct p; [intros H; now elim H|reflexivity]. Qed.

Section Edits.

Lemma edits_starts s o :
  edits s o -> starts_nonword s = true -> starts_nonword o = true.
Proof.
  induction 1 as [|c s o _ _|d s o Hs _ IH|d ins s o Hne Hins _ _];
    intros Hstart.
  - reflexivity.
  - exact Hstart.
  - exact (IH Hs).
  - destruct ins as [|i ins]; [now elim Hne|].
    cbn [all_chars] in Hins. apply andb_true_iff in Hins as [Hi _].
    exact Hi.
Qed.

Lemma edits_prefix s o :
  edits s o ->
  forall w, all_chars PyStr.is_word w = true ->
            prefix w o = true -> prefix w s = true.
Proof.
  induction 1 as [|c s o He IH|d s o Hs He IH|d ins s o Hne Hins He IH];
    intros w Hw Hp.
  - destruct w; [reflexivity|discriminate].
  - destruct w as [|x w]; [reflexivity|].
    rewrite prefix_cons in Hp |- *.
    apply andb_true_iff in Hp as [Hx Hp]. rewrite Hx.
    cbn [all_chars] in Hw. apply andb_true_iff in Hw as [_ Hw].
    exact (IH w Hw Hp).
  - destruct w as [|x w]; [apply prefix_nil_l|].
    pose proof (edits_starts s o He Hs) as Ho.
    destruct o as [|y o]; [discriminate|].
    rewrite prefix_cons in Hp. apply andb_true_iff in Hp as [Hx _].
    apply Ascii.eqb_eq in Hx. subst y.
    cbn [all_chars] in Hw. apply andb_true_iff in Hw as [Hw _].
    cbn [starts_nonword] in Ho. unfold non_word in Ho.
    rewrite Hw in Ho. discriminate.
  - destruct w as [|x w]; [apply prefix_nil_l|].
    destruct ins as [|i ins]; [now elim Hne|].
    cbn [append] in Hp. rewrite prefix_cons in Hp.
    apply andb_true_iff in Hp as [Hx _].
    apply Ascii.eqb_eq in Hx. subst i.
    cbn [all_chars] in Hw, Hins.
    apply andb_true_iff in Hw as [Hw _].
    apply andb_true_iff in Hins as [Hi _].
    unfold non_word in Hi. rewrite Hw in Hi. discriminate.
Qed.

Lemma contains_after_nonword p ins o :
  all_chars PyStr.is_word p = true -> p <> "" ->
  all_chars non_word ins = true ->
  PyStr.contains p (ins ++ o) = true -> PyStr.contains p o = true.
Proof.
  intros Hp Hne. induction ins as [|i ins IH]; intros Hins H; [exact H|].
  cbn [all_chars] in Hins. apply andb_true_iff in Hins as [Hi Hins].
  cbn [append] in H. rewrite contains_cons in H.
  apply orb_true_iff in H as [H|H]; [|exact (IH Hins H)].
  destruct p as [|x p]; [now elim Hne|].
  rewrite prefix_cons in H. apply andb_true_iff in H as [Hx _].
  apply Ascii.eqb_eq in Hx. subst i.
  cbn [all_chars] in Hp. apply andb_true_iff in Hp as [Hp _].
  unfold non_word in Hi. rewrite Hp in Hi. discriminate.
Qed.

(** A word of the edited text is a word of the text. *)
Lemma edits_contains s o :
  edits s o ->
  forall p, all_chars PyStr.is_word p = true -> p <> "" ->
            PyStr.contains p o = true -> PyStr.contains p s = true.
Proof.
  induction 1 as [|c s o He IH|d s o Hs He IH|d ins s o Hne Hins He IH];
    intros p Hp Hnep H.
  - now rewrite (contains_nil p Hnep) in H.
  - rewrite contains_cons in H |- *.
    apply orb_true_iff in H as [H|H].
    + now rewrite (edits_prefix _ _ (edit_copy c s o He) p Hp H).
    + rewrite (IH p Hp Hnep H). apply orb_true_r.
  - apply contains_app_r. exact (IH p Hp Hnep H).
  - apply contains_app_r. apply (IH p Hp Hnep).
    exact (contains_after_nonword p ins o Hp Hnep Hins H).
Qed.

End Edits.

(* ----------------------------------------------------------------- *)
(** *** [str.replace] as an edit *)

Lemma replace_from_drop old new k s :
  PyStr.replace_from k old new s
  = PyStr.replace_from 0 old new (PyStr.drop k s).
Proof.
  revert s. induction k as [|k IH]; intros s; [reflexivity|].
  destruct s as [|c s]; [reflexivity|]. cbn [PyStr.replace_from PyStr.drop].
  apply IH.
Qed.

Lemma replace_edits old new :
  old <> "" -> new <> "" -> all_chars non_word new = true ->
  forall s, edits s (PyStr.replace old new s).
Proof.
  intros Hold Hnew Hnw s. unfold PyStr.replace.
  remember (String.length s) as n eqn:Hn.
  assert (Hle : String.length s <= n) by lia. clear Hn.
  revert s Hle. induction n as [|n IH]; intros s Hle.
  - destruct s; [apply edit_end|simpl in Hle; lia].
  - destruct s as [|c s]; [apply edit_end|].
    cbn [PyStr.replace_from].
    destruct (prefix old (String c s)) eqn:Hp.
    + rewrite replace_from_drop.
      pose proof (prefix_split _ _ Hp) as Hsplit.
      assert (Hd : PyStr.drop (String.length old - 1) s
                   = PyStr.drop (String.length old) (String c s)).
      { destruct old as [|x old]; [now elim Hold|].
        simpl. now rewrite Nat.sub_0_r. }
      rewrite Hd. rewrite Hsplit at 1.
      apply edit_put; [exact Hnew|exact Hnw|].
      apply IH. rewrite <- Hd, drop_length. simpl in Hle. lia.
    + apply edit_copy. apply IH. simpl in Hle. lia.
Qed.

(* ----------------------------------------------------------------- *)
(** *** The removal of fences as an edit *)

Lemma lstrip_suffix p s :
  exists x, s = x ++ PyStr.lstrip_by p s.
Proof.
  induction s as [|c s [x Hx]]; [now exists ""|].
  cbn [PyStr.lstrip_by]. destruct (p c).
  - exists (String c x). cbn [append]. now rewrite <- Hx.
  - now exists "".
Qed.

Lemma lstrip_length p s : String.length (PyStr.lstrip_by p s) <= String.length s.
Proof.
  induction s as [|c s IH]; [reflexivity|].
  cbn [PyStr.lstrip_by]. destruct (p c); simpl; lia.
Qed.

Lemma lstrip_head p s :
  match PyStr.lstrip_by p s with
  | String c _ => p c = false
  | EmptyString => True
  end.
Proof.
  induction s as [|c s IH]; [exact I|].
  cbn [PyStr.lstrip_by]. destruct (p c) eqn:Hc; [exact IH|exact Hc].
Qed.

Section FencePattern.

Import Re.

(** A greedy repetition before a continuation that never fails stops
    where the class ends. *)
Lemma greedy_run p k s pos :
  (forall s' pos', k s' pos' <> None) ->
  greedy p k s pos
  = k (PyStr.lstrip_by p s)
      (pos + (String.length s - String.length (PyStr.lstrip_by p s))).
Proof.
  intros Hk. revert pos. induction s as [|c s IH]; intros pos.
  - cbn [greedy PyStr.lstrip_by String.length]. now rewrite Nat.add_0_r.
  - cbn [greedy PyStr.lstrip_by]. destruct (p c).
    + rewrite IH. pose proof (lstrip_length p s) as Hl.
      replace (S pos + (String.length s - String.length (PyStr.lstrip_by p s)))
        with (pos + (String.length (String c s)
                     - String.length (PyStr.lstrip_by p s)))
        by (cbn [String.length]; lia).
      destruct (k (PyStr.lstrip_by p s) _) eqn:Hr; [reflexivity|].
      now elim (Hk _ _ Hr).
    + now rewrite Nat.sub_diag, Nat.add_0_r.
Qed.

Lemma run_fence g s pos :
  run fence_re g s pos
  = if prefix "```" s
    then Some (pos + (String.length s - String.length (after_fence s)), g)
    else None.
Proof.
  change fence_re
    with (lit "```" ++ [Star true (only backtick); Star true tag_char])%list.
  rewrite run_lit. destruct (prefix "```" s) eqn:Hp; [|reflexivity].
  cbn [run]. rewrite greedy_run.
  - rewrite greedy_run; [|discriminate]. cbn [run]. unfold after_fence.
    pose proof (prefix_split _ _ Hp) as Hs.
    assert (Hlen : String.length s = 3 + String.length (PyStr.drop 3 s)).
    { rewrite Hs at 1. now rewrite length_append. }
    pose proof (lstrip_length (only backtick) (PyStr.drop 3 s)) as H1.
    pose proof (lstrip_length tag_char
                  (PyStr.lstrip_by (only backtick) (PyStr.drop 3 s))) as H2.
    change (String.length "```") with 3.
    do 2 f_equal. lia.
  - intros s' pos'. rewrite greedy_run; [|discriminate]. discriminate.
Qed.

Lemma after_fence_suffix s :
  prefix "```" s = true ->
  exists x, s = x ++ after_fence s
            /\ String.length x = String.length s - String.length (after_fence s)
            /\ 3 <= String.length x.
Proof.
  intros Hp. unfold after_fence.
  destruct (lstrip_suffix (only backtick) (PyStr.drop 3 s)) as [a Ha].
  destruct (lstrip_suffix tag_char
              (PyStr.lstrip_by (only backtick) (PyStr.drop 3 s))) as [b Hb].
  exists ("```" ++ a ++ b).
  assert (Hs : s = ("```" ++ a ++ b)
                   ++ PyStr.lstrip_by tag_char
                        (PyStr.lstrip_by (only backtick) (PyStr.drop 3 s))).
  { rewrite !append_assoc, <- Hb, <- Ha. exact (prefix_split _ _ Hp). }
  split; [exact Hs|].
  pose proof (f_equal String.length Hs) as Hl.
  rewrite length_append in Hl.
  split; [lia|].
  rewrite length_append. change (String.length "```") with 3. lia.
Qed.

Lemma after_fence_starts s : starts_nonword (after_fence s) = true.
Proof.
  unfold after_fence.
  pose proof (lstrip_head tag_char
                (PyStr.lstrip_by (only backtick) (PyStr.drop 3 s))) as H.
  destruct (PyStr.lstrip_by tag_char _) as [|c r]; [reflexivity|].
  cbn [starts_nonword]. unfold non_word, tag_char in *.
  apply orb_false_iff in H as [H _]. now rewrite H.
Qed.

Lemma finditer_skip k :
  forall s pos,
    finditer_from fence_re k s pos
    = finditer_from fence_re 0 (PyStr.drop k s) (pos + k).
Proof.
  induction k as [|k IH]; intros s pos.
  - cbn [PyStr.drop]. now rewrite Nat.add_0_r.
  - destruct s as [|c s]; [reflexivity|].
    cbn [finditer_from PyStr.drop]. rewrite IH. f_equal. lia.
Qed.

Lemma finditer_starts r :
  forall s skip pos,
    Forall (fun m => pos <= m_start m) (finditer_from r skip s pos).
Proof.
  assert (Hweak : forall pos ms,
             Forall (fun m => S pos <= m_start m) ms ->
             Forall (fun m => pos <= m_start m) ms).
  { intros pos ms H. eapply Forall_impl; [|exact H]. intros m Hm.
    cbn beta in Hm. lia. }
  induction s as [|c s IH]; intros skip pos.
  - destruct skip; cbn [finditer_from]; [|constructor].
    destruct (run r (None, None) "" pos) as [[e g]|]; constructor;
      [simpl; lia|constructor].
  - destruct skip as [|k]; cbn [finditer_from].
    + destruct (run r (None, None) (String c s) pos) as [[e g]|].
      * constructor; [simpl; lia|]. apply Hweak, IH.
      * apply Hweak, IH.
    + apply Hweak, IH.
Qed.

Lemma delete_spans_copy ms last text c rest :
  PyStr.drop last text = String c rest ->
  Forall (fun m => S last <= m_start m) ms ->
  delete_spans ms last text = String c (delete_spans ms (S last) text).
Proof.
  intros Hdrop Hms. destruct ms as [|m ms]; cbn [delete_spans].
  - now rewrite (drop_succ _ _ _ _ Hdrop).
  - inversion Hms as [|? ? Hm _]; subst.
    rewrite !slice_take_drop, Hdrop, (drop_succ _ _ _ _ Hdrop).
    replace (m_start m - last) with (S (m_start m - S last)) by lia.
    reflexivity.
Qed.

(** Removing the fences cuts the text before characters that are no
    word characters. *)
Lemma sub_fence_edits text : edits text (sub_empty fence_re text).
Proof.
  unfold sub_empty, finditer.
  assert (H : forall n s pos,
             String.length s <= n -> PyStr.drop pos text = s ->
             edits s (delete_spans (finditer_from fence_re 0 s pos) pos text));
    [|exact (H _ text 0 (le_n _) eq_refl)].
  induction n as [|n IH]; intros s pos Hle Hs.
  - destruct s; [|simpl in Hle; lia].
    cbn [finditer_from]. rewrite run_fence. cbn [prefix delete_spans].
    rewrite Hs. apply edit_end.
  - destruct s as [|c s].
    { cbn [finditer_from]. rewrite run_fence. cbn [prefix delete_spans].
      rewrite Hs. apply edit_end. }
    pose proof (drop_succ _ _ _ _ Hs) as Hs'.
    cbn [finditer_from]. rewrite run_fence.
    destruct (prefix "```" (String c s)) eqn:Hp.
    + destruct (after_fence_suffix _ Hp) as [x [Hx [Hlen H3]]].
      set (e := pos + (String.length (String c s)
                       - String.length (after_fence (String c s)))).
      assert (He : e = pos + String.length x) by (unfold e; lia).
      rewrite finditer_skip.
      assert (Hrest : PyStr.drop (e - pos - 1) s = after_fence (String c s)).
      { replace (e - pos - 1) with (String.length x - 1) by lia.
        change (PyStr.drop (String.length x - 1) s)
          with (PyStr.drop (S (String.length x - 1)) (String c s)).
        replace (S (String.length x - 1)) with (String.length x) by lia.
        rewrite Hx at 1. apply drop_app. }
      rewrite Hrest.
      replace (S pos + (e - pos - 1)) with e by lia.
      cbn [delete_spans m_start m_end].
      rewrite slice_take_drop, Nat.sub_diag. cbn [PyStr.take append].
      rewrite Hx at 1.
      apply edit_cut; [apply after_fence_starts|].
      apply IH.
      * pose proof (f_equal String.length Hx) as Hl.
        rewrite length_append in Hl. simpl in Hle, Hl. lia.
      * rewrite He, <- drop_drop, Hs. rewrite Hx at 1. apply drop_app.
    + rewrite (delete_spans_copy _ pos text c s Hs (finditer_starts _ _ _ _)).
      apply edit_copy. apply IH; [simpl in Hle; lia|exact Hs'].
Qed.

End FencePattern.

(** A run of word characters of the working copy is in the text. *)
Lemma normalize_keeps_words p raw_text :
  all_chars PyStr.is_word p = true -> p <> "" ->
  PyStr.contains p (normalize_for_json raw_text) = true ->
  PyStr.contains p raw_text = true.
Proof.
  intros Hp Hne H. unfold normalize_for_json in H.
  apply (edits_contains _ _ (sub_fence_edits raw_text) p Hp Hne).
  apply (edits_contains _ _
           (replace_edits "<br/>" nl ltac:(discriminate) ltac:(discriminate)
              eq_refl _) p Hp Hne).
  exact (edits_contains _ _
           (replace_edits "<br>" nl ltac:(discriminate) ltac:(discriminate)
              eq_refl _) p Hp Hne H).
Qed.

(** The anchor key is such a run: a working copy without the key comes
    from every text without it. *)
Lemma normalize_keeps_anchor raw_text :
  PyStr.find anchor_key raw_text = None ->
  PyStr.find anchor_key (normalize_for_json raw_text) = None.
Proof.
  intros H.
  destruct (PyStr.find anchor_key (normalize_for_json raw_text)) as [i|] eqn:Hf;
    [|reflexivity].
  assert (Hc : PyStr.contains anchor_key raw_text = true).
  { apply normalize_keeps_words; [reflexivity|discriminate|].
    unfold PyStr.contains. now rewrite Hf. }
  unfold PyStr.contains in Hc. now rewrite H in Hc.
Qed.

(* ================================================================= *)
(** ** The marker pattern *)

Section MarkerPattern.

Import Re.

Lemma lazy_any_skip k gap rest pos :
  (forall c s p, Ascii.eqb c "{"%char = false -> k (String c s) p = None) ->
  has_char "{"%char gap = false ->
  lazy anychar k (gap ++ rest) pos
  = lazy anychar k rest (pos + String.length gap).
Proof.
  intros Hk. revert pos. induction gap as [|x gap IH]; intros pos H.
  - cbn [append String.length]. now rewrite Nat.add_0_r.
  - cbn [has_char] in H. apply orb_false_iff in H as [Hx Hgap].
    cbn [append lazy String.length]. rewrite (Hk _ _ _ Hx).
    unfold anychar at 1. rewrite (IH _ Hgap). f_equal. lia.
Qed.

Lemma lazy_any_literal p g s pos :
  lazy anychar (run (lit p) g) s pos
  = match PyStr.find p s with
    | Some i => Some (pos + i + String.length p, g)
    | None => None
    end.
Proof.
  revert pos. induction s as [|c s IH]; intros pos.
  - cbn [lazy]. rewrite <- (app_nil_r (lit p)), run_lit. cbn [run].
    unfold PyStr.find. cbn [PyStr.find_from].
    destruct (prefix p ""); [|reflexivity].
    now rewrite Nat.add_0_r.
  - cbn [lazy]. rewrite <- (app_nil_r (lit p)), run_lit, ?app_nil_r.
    cbn [run]. rewrite find_cons.
    destruct (prefix p (String c s)).
    + now rewrite Nat.add_0_r.
    + unfold anychar at 1. rewrite IH.
      destruct (PyStr.find p s) as [i|]; cbn [option_map]; [|reflexivity].
      do 2 f_equal. lia.
Qed.

Lemma greedy_any_none k t pos :
  (forall n q, k (PyStr.drop n t) q = None) -> greedy anychar k t pos = None.
Proof.
  revert pos. induction t as [|c t IH]; intros pos H; cbn [greedy].
  - exact (H 0 pos).
  - unfold anychar at 1. rewrite IH.
    + exact (H 0 pos).
    + intros n q. exact (H (S n) q).
Qed.

(** The greedy repetition stops at the last place where the rest of
    the pattern matches. *)
Lemma greedy_any_last k pre c t pos res :
  (forall n q, k (PyStr.drop n t) q = None) ->
  k (String c t) (pos + String.length pre) = Some res ->
  greedy anychar k (pre ++ String c t) pos = Some res.
Proof.
  intros Hnone. revert pos. induction pre as [|x pre IH]; intros pos Hk.
  - cbn [append String.length greedy] in *. rewrite Nat.add_0_r in Hk.
    unfold anychar at 1. now rewrite (greedy_any_none k t _ Hnone).
  - cbn [append greedy]. unfold anychar at 1.
    rewrite (IH (S pos)); [reflexivity|].
    cbn [String.length] in Hk.
    now replace (S pos + String.length pre)
      with (pos + S (String.length pre)) by lia.
Qed.

Lemma after_group_cons p c s q :
  after_group p (String c s) q
  = if Ascii.eqb "}"%char c then
      match PyStr.find "### JSON_END" s with
      | Some i => Some (S q + i + 12, (Some p, Some (S q)))
      | None => None
      end
    else None.
Proof.
  unfold after_group. cbn [run]. unfold only at 1.
  destruct (Ascii.eqb "}"%char c); [|reflexivity].
  cbn [fst]. exact (lazy_any_literal "### JSON_END" _ s (S q)).
Qed.

Lemma after_group_clean p t :
  clean_tail t = true -> forall n q, after_group p (PyStr.drop n t) q = None.
Proof.
  induction t as [|c t IH]; intros H n q.
  - now rewrite drop_nil.
  - cbn [clean_tail] in H. apply andb_true_iff in H as [Hc Ht].
    destruct n as [|n]; [|exact (IH Ht n q)].
    cbn [PyStr.drop]. rewrite after_group_cons, Ascii.eqb_sym.
    destruct (Ascii.eqb c "}"%char); [|reflexivity].
    cbn [andb] in Hc. apply negb_true_iff in Hc.
    unfold PyStr.contains in Hc.
    now destruct (PyStr.find "### JSON_END" t).
Qed.

(** The pattern behind the start marker: the first [{], the longest
    span up to a [}] that has the end marker after it. *)
Lemma marker_body_run gap body tail pos i :
  has_char "{"%char gap = false ->
  clean_tail tail = true ->
  PyStr.find "### JSON_END" tail = Some i ->
  let p := pos + String.length gap in
  let q := S p + String.length body in
  run ([Star false anychar; Open; Chr (only "{"%char);
        Star true anychar; Chr (only "}"%char); Close;
        Star false anychar] ++ lit "### JSON_END")%list
      (None, None) (gap ++ "{" ++ body ++ "}" ++ tail) pos
  = Some (S q + i + 12, (Some p, Some (S q))).
Proof.
  intros Hgap Hclean Hi p q.
  set (k1 := run ([Open; Chr (only "{"%char);
                   Star true anychar; Chr (only "}"%char); Close;
                   Star false anychar] ++ lit "### JSON_END")%list
                 (None, None)).
  change (lazy anychar k1 (gap ++ "{" ++ body ++ "}" ++ tail) pos
          = Some (S q + i + 12, (Some p, Some (S q)))).
  rewrite lazy_any_skip; [|intros c s0 p0 Hc|exact Hgap].
  - fold p.
    assert (Hk1 : k1 ("{" ++ body ++ "}" ++ tail) p
                  = Some (S q + i + 12, (Some p, Some (S q)))).
    { change (greedy anychar (after_group p) (body ++ String "}"%char tail)
                     (S p)
              = Some (S q + i + 12, (Some p, Some (S q)))).
      apply greedy_any_last; [now apply after_group_clean|].
      fold q. rewrite after_group_cons, Hi.
      now change (Ascii.eqb "}"%char "}"%char) with true. }
    cbn [append] in Hk1 |- *. cbn [lazy]. now rewrite Hk1.
  - unfold k1. cbn [app run]. unfold only at 1.
    now rewrite Ascii.eqb_sym, Hc.
Qed.

(** The marker pattern on a working copy of the form
    [npre ### JSON_START gap { body } tail]. *)
Lemma marker_match npre gap body tail :
  let text :=
    npre ++ "### JSON_START" ++ gap ++ "{" ++ body ++ "}" ++ tail in
  PyStr.find "### JSON_START" text = Some (String.length npre) ->
  has_char "{"%char gap = false ->
  clean_tail tail = true ->
  PyStr.contains "### JSON_END" tail = true ->
  exists m,
    search marker_re text = Some m
    /\ group1 text m = "{" ++ body ++ "}".
Proof.
  intros text Hfind Hgap Hclean Hend.
  set (p := String.length npre + 14 + String.length gap).
  set (q := S p + String.length body).
  unfold PyStr.contains in Hend.
  destruct (PyStr.find "### JSON_END" tail) as [i|] eqn:Hi; [|discriminate].
  exists (mkMatch (String.length npre) (S q + i + 12) (Some p, Some (S q))).
  split.
  - change marker_re
      with (lit "### JSON_START"
            ++ [Star false anychar; Open; Chr (only "{"%char);
                Star true anychar; Chr (only "}"%char); Close;
                Star false anychar]
            ++ lit "### JSON_END")%list.
    unfold search.
    rewrite (search_from_first "### JSON_START" _ text 0
               (String.length npre) (S q + i + 12) (Some p, Some (S q)) Hfind);
      [reflexivity|].
    unfold text. rewrite <- (append_assoc npre "### JSON_START").
    replace (String.length npre + String.length "### JSON_START")
      with (String.length (npre ++ "### JSON_START"))
      by (now rewrite length_append).
    rewrite drop_app.
    exact (marker_body_run gap body tail _ i Hgap Hclean Hi).
  - unfold group1. cbn [m_caps]. rewrite slice_take_drop.
    unfold text.
    rewrite <- (append_assoc npre "### JSON_START"),
            <- (append_assoc (npre ++ "### JSON_START") gap).
    replace p with (String.length ((npre ++ "### JSON_START") ++ gap))
      by (rewrite !length_append; reflexivity).
    rewrite drop_app.
    replace (S q - String.length ((npre ++ "### JSON_START") ++ gap))
      with (String.length ("{" ++ body ++ "}")).
    + rewrite <- (take_app ("{" ++ body ++ "}") tail) at 2.
      now rewrite !append_assoc.
    + unfold q, p. rewrite !length_append. cbn [String.length append].
      rewrite ?length_append. cbn [String.length]. lia.
Qed.

(** The texts of the marker pattern. *)
Lemma marker_matches a :
  matches marker_re a
  <-> exists gap body mid,
        a = "### JSON_START" ++ gap ++ "{" ++ body ++ "}" ++ mid
            ++ "### JSON_END".
Proof.
  unfold marker_re. rewrite matches_lit. split.
  - intros (a1 & -> & H). cbn [app] in H.
    apply matches_any in H as (gap & a2 & -> & H).
    inversion H as [| | | |r2 s2 H2|]; subst. clear H.
    inversion H2 as [|p r3 c a3 Hc H3| | | |]; subst. clear H2.
    unfold only in Hc. apply Ascii.eqb_eq in Hc as <-.
    apply matches_any in H3 as (body & a4 & -> & H).
    inversion H as [|p r5 c a5 Hc H5| | | |]; subst. clear H.
    unfold only in Hc. apply Ascii.eqb_eq in Hc as <-.
    inversion H5 as [| | | | |r6 s6 H6]; subst. clear H5.
    apply matches_any in H6 as (mid & a7 & -> & H).
    change (matches (lit "### JSON_END" ++ [])%list a7) in H.
    apply matches_lit in H as (a8 & -> & H).
    inversion H; subst.
    exists gap, body, mid. reflexivity.
  - intros (gap & body & mid & ->). eexists. split; [reflexivity|].
    cbn [app]. apply matches_any.
    exists gap, ("{" ++ body ++ "}" ++ mid ++ "### JSON_END").
    split; [reflexivity|].
    apply matches_open. cbn [append]. apply matches_chr; [reflexivity|].
    apply matches_any. exists body, ("}" ++ mid ++ "### JSON_END").
    split; [reflexivity|]. cbn [append].
    apply matches_chr; [reflexivity|]. apply matches_close.
    apply matches_any. exists mid, "### JSON_END". split; [reflexivity|].
    change (matches (lit "### JSON_END" ++ [])%list "### JSON_END").
    apply matches_lit. exists "". split; [reflexivity|constructor].
Qed.

(** The marker pattern is found exactly in a text that holds a start
    marker, a span in braces and an end marker, in this order. *)
Lemma marker_search s :
  (exists m, search marker_re s = Some m) <-> marker_pattern s.
Proof.
  rewrite search_matches. unfold marker_pattern. split.
  - intros (pre & a & post & -> & Ha).
    apply marker_matches in Ha as (gap & body & mid & ->).
    exists pre, gap, body, mid, post. now rewrite !append_assoc.
  - intros (pre & gap & body & mid & post & ->).
    exists pre, ("### JSON_START" ++ gap ++ "{" ++ body ++ "}" ++ mid
                 ++ "### JSON_END"), post.
    split; [now rewrite !append_assoc|].
    apply marker_matches. now exists gap, body, mid.
Qed.

End MarkerPattern.

(* ================================================================= *)
(** ** Splitting the correlation text *)

Lemma rstrip_keep p s c :
  p c = false ->
  PyStr.rstrip_by p (s ++ String c "") = s ++ String c "".
Proof.
  intros Hc. induction s as [|x s IH].
  - cbn [append PyStr.rstrip_by]. now rewrite Hc.
  - cbn [append PyStr.rstrip_by]. rewrite IH.
    destruct (s ++ String c "") eqn:Hs; [|reflexivity].
    destruct s; discriminate.
Qed.

Lemma strip_braces body :
  PyStr.strip ("{" ++ body ++ "}") = "{" ++ body ++ "}".
Proof.
  unfold PyStr.strip. cbn [append PyStr.lstrip_by].
  change (PyStr.is_space "{"%char) with false. cbv iota.
  change (String "{"%char (body ++ "}"))
    with ((String "{"%char body) ++ String "}"%char "").
  now apply rstrip_keep.
Qed.

Section SplitFacts.

Variable json_loads : string -> result pyval.

Lemma start_marker_search raw :
  Re.search start_marker_re raw
  = match PyStr.find "### JSON_START" raw with
    | Some i => Some (Re.mkMatch i (i + 14) (None, None))
    | None => None
    end.
Proof. exact (search_literal "### JSON_START" raw). Qed.

(** The explanation after the marker stage, whatever the findings. *)
Lemma split_explanation raw :
  fst (split json_loads raw)
  = match Re.search marker_re (normalize_for_json raw),
          PyStr.find "### JSON_START" raw with
    | Some _, Some i => PyStr.strip (PyStr.take i raw)
    | _, _ => raw
    end.
Proof.
  unfold split, marker_stage. rewrite start_marker_search.
  destruct (Re.search marker_re (normalize_for_json raw)) as [m|];
    [|reflexivity].
  now destruct (PyStr.find "### JSON_START" raw).
Qed.

Lemma marker_needs_end s m :
  Re.search marker_re s = Some m -> PyStr.contains "### JSON_END" s = true.
Proof.
  change marker_re
    with ((Re.lit "### JSON_START"
           ++ [Re.Star false Re.anychar; Re.Open; Re.Chr (Re.only "{"%char);
               Re.Star true Re.anychar; Re.Chr (Re.only "}"%char); Re.Close;
               Re.Star false Re.anychar])
          ++ Re.lit "### JSON_END")%list.
  apply search_from_tail_literal.
Qed.

End SplitFacts.

(** C3 (as amended): when the text does not hold the anchor key and the
    marker and fenced stages gave no findings, the third stage takes the
    whole working copy, trimmed, as its candidate: the findings are what
    [json.loads] makes of it when it starts with [{] and ends with [}],
    and null otherwise. *)
Theorem split_without_anchor
    (json_loads : string -> result pyval) (raw_text : string) :
  PyStr.find anchor_key raw_text = None ->
  snd (marker_stage json_loads raw_text (normalize_for_json raw_text)) = PNone ->
  fenced_stage json_loads (normalize_for_json raw_text) = PNone ->
  snd (split json_loads raw_text)
  = let candidate := PyStr.strip (normalize_for_json raw_text) in
    if PyStr.startswith "{" candidate && PyStr.endswith "}" candidate
    then loads_or_none json_loads candidate
    else PNone.
Proof.
  intros Hkey Hmarker Hfenced. unfold split.
  destruct (marker_stage json_loads raw_text (normalize_for_json raw_text))
    as [explanation found].
  cbn [snd] in Hmarker |- *. subst found. cbn [Py.is_none].
  rewrite Hfenced. cbn [Py.is_none].
  unfold anchor_stage, candidate_bounds.
  rewrite (normalize_keeps_anchor _ Hkey).
  now rewrite slice_full.
Qed.

Lemma split_without_anchor_witness :
  snd (split RefLib.json_loads (json_cause "disk full"))
  = PDict [("probable_cause", PStr "disk full")].
Proof.
  exact (split_without_anchor RefLib.json_loads (json_cause "disk full")
           eq_refl eq_refl eq_refl).
Defined.

(** C3 (as stated) fails: a text that is a JSON object, with no anchor
    key, no markers and no fence, yields findings. *)
Lemma split_without_anchor_counterexample :
  let raw_text := json_cause "disk full" in
  PyStr.find anchor_key raw_text = None
  /\ PyStr.find anchor_key (normalize_for_json raw_text) = None
  /\ snd (marker_stage RefLib.json_loads raw_text (normalize_for_json raw_text))
     = PNone
  /\ fenced_stage RefLib.json_loads (normalize_for_json raw_text) = PNone
  /\ split RefLib.json_loads raw_text
     = (raw_text, PDict [("probable_cause", PStr "disk full")]).
Proof. repeat split. Qed.

(** C7 (as amended): when no stage yields findings, the explanation is
    the original text unchanged, except when the working copy holds, in
    this order, a start marker, a span from a [{] to a [}] and an end
    marker: then it is the original text before its first start marker,
    trimmed (the original text itself when it holds no start marker).
    A start marker that no such span and end marker follow does not
    shorten the explanation; so it is with a working copy in which no
    start marker has an end marker after it. *)
Theorem split_failure_explanation
    (json_loads : string -> result pyval) (raw_text : string) :
  snd (split json_loads raw_text) = PNone ->
  (marker_pattern (normalize_for_json raw_text) ->
   split json_loads raw_text
   = (match PyStr.find "### JSON_START" raw_text with
      | Some i => PyStr.strip (PyStr.take i raw_text)
      | None => raw_text
      end, PNone))
  /\ (~ marker_pattern (normalize_for_json raw_text) ->
      split json_loads raw_text = (raw_text, PNone))
  /\ ((forall pre rest,
         normalize_for_json raw_text = pre ++ "### JSON_START" ++ rest ->
         PyStr.contains "### JSON_END" rest = false) ->
      split json_loads raw_text = (raw_text, PNone)).
Proof.
  intros Hnone.
  rewrite (surjective_pairing (split json_loads raw_text)), Hnone.
  rewrite split_explanation.
  assert (Hno : ~ marker_pattern (normalize_for_json raw_text) ->
                (match Re.search marker_re (normalize_for_json raw_text),
                       PyStr.find "### JSON_START" raw_text with
                 | Some _, Some i => PyStr.strip (PyStr.take i raw_text)
                 | _, _ => raw_text
                 end, PNone) = (raw_text, PNone)).
  { intros Hp.
    destruct (Re.search marker_re (normalize_for_json raw_text)) as [m|] eqn:Hm;
      [|reflexivity].
    elim Hp. apply marker_search. now exists m. }
  split; [|split].
  - intros Hp. apply marker_search in Hp as [m Hm]. now rewrite Hm.
  - exact Hno.
  - intros Hend. apply Hno.
    intros (pre & gap & body & mid & post & Hform).
    specialize (Hend pre _ Hform).
    assert (Hc : PyStr.contains "### JSON_END"
                   ((gap ++ "{" ++ body ++ "}" ++ mid)
                    ++ "### JSON_END" ++ post) = true).
    { apply contains_app_r, contains_prefix, prefix_app. }
    rewrite !append_assoc in Hc. cbn [append] in Hc, Hend. congruence.
Qed.

Lemma split_failure_explanation_witness :
  split RefLib.json_loads broken_region = ("intro", PNone).
Proof.
  refine (proj1 (split_failure_explanation RefLib.json_loads broken_region
                   eq_refl) _).
  exists "intro ", " ", "broken", " ", " tail". reflexivity.
Defined.

(** C7 (as stated) fails: a start marker was seen and nothing parsed,
    yet the explanation is the full text, not the text before the
    marker. *)
Lemma split_failure_explanation_counterexample :
  split RefLib.json_loads start_without_end = (start_without_end, PNone)
  /\ PyStr.find "### JSON_START" start_without_end = Some 6
  /\ Doc.marker_prefix start_without_end = "intro ".
Proof. repeat split. Qed.

(** C6 (as amended): when the working copy (fences removed, line-break
    tags turned into newlines) reads [npre ### JSON_START gap { body }
    tail], with the start marker first found there, no [{] in [gap], the
    end marker in [tail] and no [}] of [tail] before an end marker, and
    [json.loads] makes a non-null value of [{ body }], then the findings
    are that value, whatever else the text holds (a fenced json block is
    not looked at), and the explanation is the original text before its
    first start marker, trimmed. *)
Theorem split_marker_region
    (json_loads : string -> result pyval)
    (raw_text npre gap body tail : string) (v : pyval) (i : nat) :
  normalize_for_json raw_text
  = npre ++ "### JSON_START" ++ gap ++ "{" ++ body ++ "}" ++ tail ->
  PyStr.find "### JSON_START" (normalize_for_json raw_text)
  = Some (String.length npre) ->
  has_char "{"%char gap = false ->
  clean_tail tail = true ->
  PyStr.contains "### JSON_END" tail = true ->
  json_loads ("{" ++ body ++ "}") = Ok v ->
  Py.is_none v = false ->
  PyStr.find "### JSON_START" raw_text = Some i ->
  split json_loads raw_text = (PyStr.strip (PyStr.take i raw_text), v).
Proof.
  intros Hform Hfirst Hgap Hclean Hend Hloads Hv Hstart.
  rewrite Hform in Hfirst.
  destruct (marker_match npre gap body tail Hfirst Hgap Hclean Hend)
    as [m [Hm Hgroup]].
  unfold split, marker_stage. rewrite Hform, Hm, Hgroup.
  rewrite start_marker_search, Hstart. cbn [Re.m_start].
  rewrite strip_braces. unfold loads_or_none. rewrite Hloads.
  cbv beta iota zeta. rewrite Hv. cbv iota. now rewrite Hv.
Qed.

Lemma split_marker_region_witness :
  split RefLib.json_loads (marker_then_fence (json_cause "disk full"))
  = ("intro", PDict [("probable_cause", PStr "disk full")]).
Proof.
  exact (split_marker_region RefLib.json_loads
           (marker_then_fence (json_cause "disk full"))
           "intro " nl
           (quoted "probable_cause" ++ ": " ++ quoted "disk full")
           (nl ++ "### JSON_END" ++ nl ++ nl ++ json_cause "other" ++ nl)
           (PDict [("probable_cause", PStr "disk full")]) 6
           eq_refl eq_refl eq_refl eq_refl eq_refl eq_refl eq_refl eq_refl).
Defined.

(** C6 (as stated) fails: the marker region holds a JSON object whose
    string contains a fence; the findings are the object read from the
    working copy, where the fence and the word after it are gone, and
    the explanation is trimmed. *)
Lemma split_marker_region_counterexample :
  let raw_text := marker_then_fence json_fenced_command in
  split RefLib.json_loads raw_text
  = ("intro", PDict [("fix", PStr "run  get pods")])
  /\ RefLib.json_loads json_fenced_command
     = Ok (PDict [("fix", PStr "run ```oc get pods```")])
  /\ PyStr.find "### JSON_START" raw_text = Some 6
  /\ PyStr.take 6 raw_text = "intro ".
Proof. repeat split. Qed.

(* ================================================================= *)
(** * Configuration and ingestion: the proofs *)

(* ================================================================= *)
(** ** Trimming *)

Lemma all_chars_app p a b :
  all_chars p (a ++ b) = all_chars p a && all_chars p b.
Proof.
  induction a as [|c a IH]; [reflexivity|].
  cbn [append all_chars]. now rewrite IH, andb_assoc.
Qed.

Lemma rstrip_empty p s :
  PyStr.rstrip_by p s = "" <-> all_chars p s = true.
Proof.
  induction s as [|c s IH]; [now split|].
  cbn [PyStr.rstrip_by all_chars].
  destruct (PyStr.rstrip_by p s) as [|x r] eqn:Hr.
  - assert (Hs : all_chars p s = true) by now apply IH.
    rewrite Hs, andb_true_r. destruct (p c); split; intros H;
      try reflexivity; discriminate.
  - assert (Hs : all_chars p s = false).
    { destruct (all_chars p s); [|reflexivity].
      assert (Hn : String x r = "") by now apply IH. discriminate. }
    rewrite Hs, andb_false_r. split; discriminate.
Qed.

Lemma rstrip_cons p c s :
  PyStr.rstrip_by p (String c s)
  = if all_chars p s then (if p c then "" else String c "")
    else String c (PyStr.rstrip_by p s).
Proof.
  cbn [PyStr.rstrip_by].
  destruct (PyStr.rstrip_by p s) as [|x r] eqn:Hr.
  - assert (Hs : all_chars p s = true) by now apply rstrip_empty.
    now rewrite Hs.
  - destruct (all_chars p s) eqn:Hs; [|reflexivity].
    apply rstrip_empty in Hs. rewrite Hs in Hr. discriminate.
Qed.

Lemma rstrip_all p s :
  all_chars p (PyStr.rstrip_by p s) = true -> PyStr.rstrip_by p s = "".
Proof.
  induction s as [|c s IH]; [reflexivity|].
  rewrite rstrip_cons. destruct (all_chars p s) eqn:Hs.
  - destruct (p c) eqn:Hc; [reflexivity|].
    cbn [all_chars]. rewrite Hc. discriminate.
  - cbn [all_chars]. intros H. apply andb_true_iff in H as [_ H].
    apply IH in H. apply rstrip_empty in H. rewrite H in Hs. discriminate.
Qed.

Lemma rstrip_idem p s :
  PyStr.rstrip_by p (PyStr.rstrip_by p s) = PyStr.rstrip_by p s.
Proof.
  induction s as [|c s IH]; [reflexivity|].
  rewrite rstrip_cons. destruct (all_chars p s) eqn:Hs.
  - destruct (p c) eqn:Hc; [reflexivity|].
    cbn [PyStr.rstrip_by]. now rewrite Hc.
  - rewrite rstrip_cons, IH.
    destruct (all_chars p (PyStr.rstrip_by p s)) eqn:Hr; [|reflexivity].
    apply rstrip_all, rstrip_empty in Hr. rewrite Hr in Hs. discriminate.
Qed.

Lemma lstrip_fixed p c s :
  p c = false -> PyStr.lstrip_by p (String c s) = String c s.
Proof. intros H. cbn [PyStr.lstrip_by]. now rewrite H. Qed.

(** The text between the white space is left as it is. *)
Lemma strip_idem s : PyStr.strip (PyStr.strip s) = PyStr.strip s.
Proof.
  unfold PyStr.strip.
  pose proof (lstrip_head PyStr.is_space s) as Hh.
  destruct (PyStr.lstrip_by PyStr.is_space s) as [|c t]; [reflexivity|].
  assert (Hl : PyStr.lstrip_by PyStr.is_space
                 (PyStr.rstrip_by PyStr.is_space (String c t))
               = PyStr.rstrip_by PyStr.is_space (String c t)).
  { rewrite rstrip_cons. destruct (all_chars PyStr.is_space t).
    - rewrite Hh. now apply lstrip_fixed.
    - now apply lstrip_fixed. }
  rewrite Hl. apply rstrip_idem.
Qed.

Lemma nonempty_true s : PyStr.nonempty s = true <-> s <> "".
Proof. destruct s; simpl; split; intros H; easy. Qed.

Lemma nonempty_false s : PyStr.nonempty s = false <-> s = "".
Proof. destruct s; simpl; split; intros H; easy. Qed.

(* ----------------------------------------------------------------- *)
(** *** The end of a text *)

Lemma rev_acc_app s acc : PyStr.rev_acc s acc = PyStr.rev_acc s "" ++ acc.
Proof.
  revert acc. induction s as [|c s IH]; intros acc; [reflexivity|].
  cbn [PyStr.rev_acc]. rewrite IH, (IH (String c "")).
  now rewrite append_assoc.
Qed.

Lemma rev_cons c s : PyStr.rev (String c s) = PyStr.rev s ++ String c "".
Proof. unfold PyStr.rev. cbn [PyStr.rev_acc]. apply rev_acc_app. Qed.

Lemma rev_empty s : PyStr.rev s = "" -> s = "".
Proof.
  destruct s as [|c s]; [reflexivity|]. rewrite rev_cons.
  destruct (PyStr.rev s); discriminate.
Qed.

(** [s.endswith(c)] looks at the last character. *)
Lemma endswith_cons c x s :
  PyStr.endswith (String c "") (String x s)
  = match s with
    | EmptyString => Ascii.eqb c x
    | String _ _ => PyStr.endswith (String c "") s
    end.
Proof.
  unfold PyStr.endswith.
  change (PyStr.rev (String c "")) with (String c "").
  rewrite rev_cons.
  destruct s as [|y s].
  - change (PyStr.rev "") with "". cbn [append].
    rewrite prefix_cons. cbn [prefix]. apply andb_true_r.
  - destruct (PyStr.rev (String y s)) as [|z r] eqn:Hr.
    + apply rev_empty in Hr. discriminate.
    + cbn [append]. rewrite !prefix_cons, !prefix_nil_l. reflexivity.
Qed.

Lemma endswith_nil c : PyStr.endswith (String c "") "" = false.
Proof. reflexivity. Qed.

Lemma all_chars_endswith p c s :
  p c = false -> all_chars p s = true ->
  PyStr.endswith (String c "") s = false.
Proof.
  intros Hc. induction s as [|x s IH]; [reflexivity|].
  cbn [all_chars]. intros H. apply andb_true_iff in H as [Hx Hs].
  rewrite endswith_cons. destruct s as [|y s]; [|now apply IH].
  destruct (Ascii.eqb_spec c x) as [->|]; [congruence|reflexivity].
Qed.

(** What [rstrip] returns does not end with a character of the class. *)
Lemma rstrip_end p c s :
  p c = true -> PyStr.endswith (String c "") (PyStr.rstrip_by p s) = false.
Proof.
  intros Hc. induction s as [|x s IH]; [reflexivity|].
  rewrite rstrip_cons. destruct (all_chars p s) eqn:Hs.
  - destruct (p x) eqn:Hx; [reflexivity|].
    rewrite endswith_cons. destruct (Ascii.eqb_spec c x) as [->|]; congruence.
  - rewrite endswith_cons.
    destruct (PyStr.rstrip_by p s) as [|y r] eqn:Hr; [|exact IH].
    apply rstrip_empty in Hr. congruence.
Qed.

(* ----------------------------------------------------------------- *)
(** *** Characters of a part of a text *)

Lemma has_char_lstrip p c s :
  has_char c s = false -> has_char c (PyStr.lstrip_by p s) = false.
Proof.
  induction s as [|x s IH]; [reflexivity|].
  cbn [PyStr.lstrip_by]. destruct (p x); [|easy].
  cbn [has_char]. intros H. apply orb_false_iff in H as [_ H]. now apply IH.
Qed.

Lemma has_char_rstrip p c s :
  has_char c s = false -> has_char c (PyStr.rstrip_by p s) = false.
Proof.
  induction s as [|x s IH]; [reflexivity|].
  cbn [has_char]. intros H. apply orb_false_iff in H as [Hx Hs].
  rewrite rstrip_cons. destruct (all_chars p s).
  - destruct (p x); [reflexivity|]. cbn [has_char]. now rewrite Hx.
  - cbn [has_char]. now rewrite Hx, IH.
Qed.

Lemma has_char_strip c s :
  has_char c s = false -> has_char c (PyStr.strip s) = false.
Proof. intros H. now apply has_char_rstrip, has_char_lstrip. Qed.

(* ================================================================= *)
(** ** The environment *)

(** Without a default, a variable counts when its trimmed value is not
    empty. *)
Lemma get_env_optional_none env name :
  _get_env_optional env name None
  = if PyStr.nonempty (var_text env name) then Some (var_text env name)
    else None.
Proof.
  unfold _get_env_optional, getenv, var_text.
  destruct (env name) as [v|]; reflexivity.
Qed.

(** With a default that is blank, the default stands for a variable
    that is not set or blank. *)
Lemma get_env_optional_text env name d :
  PyStr.strip d = d ->
  or_text (_get_env_optional env name (Some d)) d
  = if PyStr.nonempty (var_text env name) then var_text env name else d.
Proof.
  intros Hd. unfold _get_env_optional, getenv, var_text, or_text.
  destruct (env name) as [v|].
  - destruct (PyStr.nonempty (PyStr.strip v)) eqn:Hv; [now rewrite Hv|].
    now destruct (PyStr.nonempty d).
  - cbn [PyStr.strip]. rewrite Hd.
    destruct (PyStr.nonempty d) eqn:Hn; now rewrite ?Hn.
Qed.

Lemma or_else_vars env a b :
  or_else (_get_env_optional env a None) (_get_env_optional env b None)
  = if PyStr.nonempty (first_var env a b) then Some (first_var env a b)
    else None.
Proof.
  rewrite !get_env_optional_none. unfold or_else, first_var.
  destruct (PyStr.nonempty (var_text env a)) eqn:Ha.
  - cbn [truthy_text]. now rewrite Ha.
  - cbn [truthy_text]. reflexivity.
Qed.

Lemma var_text_stripped env name :
  PyStr.strip (var_text env name) = var_text env name.
Proof.
  unfold var_text. destruct (env name); [apply strip_idem|reflexivity].
Qed.

Lemma first_var_stripped env a b :
  PyStr.strip (first_var env a b) = first_var env a b.
Proof.
  unfold first_var.
  destruct (PyStr.nonempty (var_text env a)); apply var_text_stripped.
Qed.

(** X1: [_get_env_optional] returns a non-empty text without
    surrounding white space, or else the default as it was given; it
    returns [None] only when the default is [None]. *)
Theorem get_env_optional_clean
    (env : environ) (name : string) (default : option string) :
  match _get_env_optional env name default with
  | Some v =>
      (PyStr.nonempty v = true /\ PyStr.strip v = v) \/ default = Some v
  | None => default = None
  end.
Proof.
  unfold _get_env_optional, getenv.
  destruct (env name) as [v|].
  - destruct (PyStr.nonempty (PyStr.strip v)) eqn:Hv.
    + left. split; [exact Hv|apply strip_idem].
    + destruct default; [now right|reflexivity].
  - destruct default as [d|]; [|reflexivity].
    destruct (PyStr.nonempty (PyStr.strip d)) eqn:Hd.
    + left. split; [exact Hd|apply strip_idem].
    + now right.
Qed.

(** X2: the two prompt builders return the trimmed value of the first
    of their two variables that holds more than white space, and raise
    when neither does. *)
Theorem prompt_builders (env : environ) :
  build_mcp_instructions env
  = (let prompt := first_var env "K8S_MCP_AGENT_PROMPT" "MCP_PROMPT" in
     if PyStr.nonempty prompt then Returns prompt
     else RuntimeError mcp_prompt_missing)
  /\ build_rag_correlation_instructions env
     = (let prompt := first_var env "RAG_CORRELATION_AGENT_PROMPT" "RAG_PROMPT" in
        if PyStr.nonempty prompt then Returns prompt
        else RuntimeError rag_prompt_missing).
Proof.
  unfold build_mcp_instructions, build_rag_correlation_instructions.
  rewrite !or_else_vars. cbv zeta.
  split.
  - destruct (PyStr.nonempty (first_var env "K8S_MCP_AGENT_PROMPT" "MCP_PROMPT"))
      eqn:H; [now rewrite H|reflexivity].
  - destruct (PyStr.nonempty
                (first_var env "RAG_CORRELATION_AGENT_PROMPT" "RAG_PROMPT"))
      eqn:H; [now rewrite H|reflexivity].
Qed.

(* ================================================================= *)
(** ** The access-log filter *)

Lemma contains_middle a b c s :
  PyStr.contains (a ++ b ++ c) s = true -> PyStr.contains b s = true.
Proof.
  unfold PyStr.contains at 1.
  destruct (PyStr.find (a ++ b ++ c) s) as [i|] eqn:Hf; [|discriminate].
  intros _. destruct (find_some _ _ _ Hf) as [Hp _].
  apply prefix_split in Hp. apply (contains_drop b s i). rewrite Hp.
  rewrite !append_assoc. apply contains_app_r, contains_prefix, prefix_app.
Qed.

(** X3: the filter drops only records whose message names the health
    path: a message without [/healthz] is kept. *)
Theorem healthz_filter_drops (msg : string) :
  SuppressHealthzFilter_filter msg = false ->
  PyStr.contains "/healthz" msg = true.
Proof.
  unfold SuppressHealthzFilter_filter.
  destruct (PyStr.contains "GET /healthz" msg) eqn:H1.
  - intros _. exact (contains_middle "GET " "/healthz" "" msg H1).
  - destruct (PyStr.contains " /healthz " msg) eqn:H2; [|discriminate].
    intros _. exact (contains_middle " " "/healthz" " " msg H2).
Qed.

Lemma healthz_filter_drops_witness :
  PyStr.contains "/healthz" "10.0.0.7 - GET /healthz HTTP/1.1 200" = true.
Proof.
  exact (healthz_filter_drops "10.0.0.7 - GET /healthz HTTP/1.1 200" eq_refl).
Defined.

(* ================================================================= *)
(** ** The model *)

Lemma preferred_model_id_text env :
  preferred_model_id env
  = if PyStr.nonempty (first_var env "MODEL_ID" "PREFERRED_MODEL_ID")
    then Some (first_var env "MODEL_ID" "PREFERRED_MODEL_ID") else None.
Proof. apply or_else_vars. Qed.

Lemma preferred_model_id_nonempty env id :
  preferred_model_id env = Some id -> PyStr.nonempty id = true.
Proof.
  rewrite preferred_model_id_text.
  destruct (PyStr.nonempty (first_var env "MODEL_ID" "PREFERRED_MODEL_ID"))
    eqn:H; [|discriminate].
  intros E. injection E as <-. exact H.
Qed.

Lemma eq_str_true v s : Py.eq_str v s = true -> v = PStr s.
Proof.
  destruct v; try discriminate. cbn [Py.eq_str]. intros H.
  apply String.eqb_eq in H. now subst.
Qed.

(** A value with an attribute that is not [None] is an object. *)
Lemma getattr_object m name :
  Py.getattr m name <> PNone -> Py.truthy m = true.
Proof. destruct m; cbn [Py.getattr]; intros H; try now elim H. reflexivity. Qed.

Lemma named_truthy id m : named id m = true -> Py.truthy m = true.
Proof.
  unfold named, model_name. intros H. apply eq_str_true in H.
  destruct m; try discriminate. reflexivity.
Qed.

Lemma is_llm_truthy m : is_llm m = true -> Py.truthy m = true.
Proof.
  unfold is_llm. intros H. apply eq_str_true in H.
  apply (getattr_object m "model_type"). now rewrite H.
Qed.

Lemma find_existsb {A : Type} (p : A -> bool) l :
  existsb p l = match find p l with Some _ => true | None => false end.
Proof.
  induction l as [|x l IH]; [reflexivity|].
  cbn [existsb find]. destruct (p x); [reflexivity|exact IH].
Qed.

Lemma is_vllm_is_llm m : is_vllm_llm m = true -> is_llm m = true.
Proof. unfold is_vllm_llm, is_llm. intros H. now apply andb_true_iff in H. Qed.

(** The automatic choice: the first LLM served by [vllm-inference],
    else the first LLM, else the error. *)
Lemma auto_select_cases models :
  auto_select models
  = match find is_vllm_llm models with
    | Some m => Returns (model_name m)
    | None =>
        match find is_llm models with
        | Some m => Returns (model_name m)
        | None => RuntimeError "No LLM models available on Llama Stack"
        end
    end.
Proof.
  unfold auto_select, next_or_none.
  destruct (find is_vllm_llm models) as [m|] eqn:Hv.
  - apply List.find_some in Hv as [_ Hv].
    now rewrite (is_llm_truthy m (is_vllm_is_llm m Hv)).
  - cbn [Py.truthy]. destruct (find is_llm models) as [m|] eqn:Hl.
    + apply List.find_some in Hl as [_ Hl]. now rewrite (is_llm_truthy m Hl).
    + reflexivity.
Qed.

Lemma select_model_cases env models :
  select_model env models
  = match preferred_model_id env with
    | Some id =>
        match find (named id) models with
        | Some m => Returns (model_name m)
        | None => auto_select models
        end
    | None => auto_select models
    end.
Proof.
  unfold select_model.
  destruct (preferred_model_id env) as [id|] eqn:Hp; [|reflexivity].
  rewrite (preferred_model_id_nonempty env id Hp).
  unfold next_or_none. fold (named id).
  destruct (find (named id) models) as [m|] eqn:Hf; [|reflexivity].
  apply List.find_some in Hf as [_ Hf]. now rewrite (named_truthy id m Hf).
Qed.

(** X4: when the preferred model id is configured and a listed model
    carries it, [select_model] returns that id, whatever else is
    listed. *)
Theorem select_model_preferred
    (env : environ) (models : list pyval) (id : string) :
  preferred_model_id env = Some id ->
  existsb (named id) models = true ->
  select_model env models = Returns (PStr id).
Proof.
  intros Hp Hex. rewrite select_model_cases, Hp.
  rewrite find_existsb in Hex.
  destruct (find (named id) models) as [m|] eqn:Hf; [|discriminate].
  apply List.find_some in Hf as [_ Hf]. unfold named in Hf.
  now rewrite (eq_str_true _ _ Hf).
Qed.

Lemma select_model_preferred_witness :
  select_model sample_env sample_models = Returns (PStr "granite-8b").
Proof.
  exact (select_model_preferred sample_env sample_models "granite-8b"
           eq_refl eq_refl).
Defined.

(** X5: [select_model] raises exactly when no listed model is an LLM and
    none carries the preferred id. *)
Theorem select_model_error (env : environ) (models : list pyval) :
  select_model env models
  = RuntimeError "No LLM models available on Llama Stack"
  <-> existsb is_llm models = false
      /\ match preferred_model_id env with
         | Some id => existsb (named id) models = false
         | None => True
         end.
Proof.
  rewrite select_model_cases, !find_existsb.
  assert (Hauto :
            auto_select models
            = RuntimeError "No LLM models available on Llama Stack"
            <-> find is_llm models = None).
  { rewrite auto_select_cases.
    destruct (find is_vllm_llm models) as [m|] eqn:Hv.
    - apply List.find_some in Hv as [Hin Hv]. apply is_vllm_is_llm in Hv.
      split; [discriminate|]. intros Hn.
      now rewrite (List.find_none _ _ Hn m Hin) in Hv.
    - destruct (find is_llm models); split; intros H;
        try reflexivity; discriminate. }
  destruct (preferred_model_id env) as [id|].
  - rewrite find_existsb.
    destruct (find (named id) models) as [m|].
    + split; [discriminate|]. intros [_ H]. discriminate.
    + rewrite Hauto. destruct (find is_llm models); split; intros H;
        try (now split); try discriminate; now destruct H.
  - rewrite Hauto. destruct (find is_llm models); split; intros H;
      try (now split); try discriminate; now destruct H.
Qed.

(** X6: what [select_model] returns is the name of a listed model, and
    that model is an LLM unless its name is the preferred id. *)
Theorem select_model_listed
    (env : environ) (models : list pyval) (v : pyval) :
  select_model env models = Returns v ->
  exists m,
    In m models /\ v = model_name m
    /\ (is_llm m = true
        \/ exists id, preferred_model_id env = Some id /\ v = PStr id).
Proof.
  rewrite select_model_cases.
  assert (Hauto : auto_select models = Returns v ->
                  exists m, In m models /\ v = model_name m /\ is_llm m = true).
  { rewrite auto_select_cases.
    destruct (find is_vllm_llm models) as [m|] eqn:Hv.
    - apply List.find_some in Hv as [Hin Hv]. intros E. injection E as <-.
      exists m. repeat split; [exact Hin|now apply is_vllm_is_llm].
    - destruct (find is_llm models) as [m|] eqn:Hl; [|discriminate].
      apply List.find_some in Hl as [Hin Hl]. intros E. injection E as <-.
      exists m. now repeat split. }
  destruct (preferred_model_id env) as [id|].
  - destruct (find (named id) models) as [m|] eqn:Hf.
    + apply List.find_some in Hf as [Hin Hf]. intros E. injection E as <-.
      exists m. repeat split; [exact Hin|]. right. exists id.
      split; [reflexivity|]. now apply eq_str_true.
    + intros H. destruct (Hauto H) as [m [Hin [Hv Hl]]].
      exists m. repeat split; [exact Hin|exact Hv|now left].
  - intros H. destruct (Hauto H) as [m [Hin [Hv Hl]]].
    exists m. repeat split; [exact Hin|exact Hv|now left].
Qed.

Lemma select_model_listed_witness :
  exists m,
    In m sample_models /\ PStr "granite-8b" = model_name m
    /\ (is_llm m = true
        \/ exists id,
             preferred_model_id sample_env = Some id
             /\ PStr "granite-8b" = PStr id).
Proof.
  exact (select_model_listed sample_env sample_models (PStr "granite-8b")
           eq_refl).
Defined.

(* ================================================================= *)
(** ** The vector stores *)

Lemma split_from_fields sep field s :
  has_char sep field = false ->
  Forall (fun f => has_char sep f = false) (PyText.split_from sep field s).
Proof.
  revert field. induction s as [|c s IH]; intros field Hf.
  - now constructor.
  - cbn [PyText.split_from]. destruct (Ascii.eqb_spec c sep) as [->|Hne].
    + constructor; [exact Hf|]. now apply IH.
    + apply IH. rewrite has_char_app, Hf. cbn [has_char].
      apply Ascii.eqb_neq in Hne. now rewrite Hne.
Qed.

Lemma comma_fields_clean raw :
  Forall (fun id => PyStr.nonempty id = true /\ PyStr.strip id = id
                    /\ has_char ","%char id = false)
         (PyText.comma_fields raw).
Proof.
  unfold PyText.comma_fields, PyText.split.
  pose proof (split_from_fields ","%char "" raw eq_refl) as H.
  induction H as [|f l Hf _ IH]; [constructor|].
  cbn [filter]. destruct (PyStr.nonempty (PyStr.strip f)) eqn:Hn; [|exact IH].
  cbn [map]. constructor; [|exact IH].
  repeat split; [exact Hn|apply strip_idem|now apply has_char_strip].
Qed.

Lemma var_or_empty env name : var_or env name "" = var_text env name.
Proof.
  unfold var_or. destruct (PyStr.nonempty (var_text env name)) eqn:H;
    [reflexivity|]. now apply nonempty_false in H.
Qed.

(** The ids of [VECTOR_STORE_IDS] if there are any, or else the one of
    [VECTOR_DB_ID]. *)
Lemma get_vector_store_ids_cases env :
  get_vector_store_ids env
  = let ids := PyText.comma_fields (var_text env "VECTOR_STORE_IDS") in
    if Py.truthy_list ids then ids
    else if PyStr.nonempty (var_text env "VECTOR_DB_ID")
         then [var_text env "VECTOR_DB_ID"] else [].
Proof.
  unfold get_vector_store_ids.
  rewrite !(get_env_optional_text _ _ "" eq_refl).
  fold (var_or env "VECTOR_STORE_IDS" "") (var_or env "VECTOR_DB_ID" "").
  rewrite !var_or_empty. cbv zeta.
  destruct (PyStr.nonempty (var_text env "VECTOR_STORE_IDS")) eqn:Hn;
    [reflexivity|].
  apply nonempty_false in Hn. rewrite Hn. reflexivity.
Qed.

(** X7: every id that [get_vector_store_ids] returns is a non-empty
    text without surrounding white space. *)
Theorem vector_store_ids_clean (env : environ) :
  Forall (fun id => PyStr.nonempty id = true /\ PyStr.strip id = id)
         (get_vector_store_ids env).
Proof.
  rewrite get_vector_store_ids_cases. cbv zeta.
  destruct (Py.truthy_list (PyText.comma_fields (var_text env "VECTOR_STORE_IDS"))).
  - eapply Forall_impl; [|apply comma_fields_clean].
    intros id [H1 [H2 _]]. now split.
  - destruct (PyStr.nonempty (var_text env "VECTOR_DB_ID")) eqn:Hn;
      [|constructor].
    constructor; [|constructor]. split; [exact Hn|apply var_text_stripped].
Qed.

(** X8: when [VECTOR_STORE_IDS] holds a field of more than white space,
    the ids are its fields between the commas, trimmed, the blank ones
    left out; none holds a comma, and [VECTOR_DB_ID] is not read. *)
Theorem vector_store_ids_listed (env : environ) :
  Py.truthy_list (PyText.comma_fields (var_text env "VECTOR_STORE_IDS")) = true ->
  get_vector_store_ids env
  = PyText.comma_fields (var_text env "VECTOR_STORE_IDS")
  /\ Forall (fun id => has_char ","%char id = false) (get_vector_store_ids env).
Proof.
  intros H. rewrite get_vector_store_ids_cases. cbv zeta. rewrite H.
  split; [reflexivity|].
  eapply Forall_impl; [|apply comma_fields_clean]. now intros id [_ [_ Hc]].
Qed.

Lemma vector_store_ids_listed_witness :
  get_vector_store_ids sample_env = ["vs_a"; "vs_b"]
  /\ Forall (fun id => has_char ","%char id = false)
            (get_vector_store_ids sample_env).
Proof. exact (vector_store_ids_listed sample_env eq_refl). Defined.

(* ================================================================= *)
(** ** The server addresses *)

(** X9: the base URL of the client never ends with a slash, and it is
    the built-in address when [LLAMA_BASE_URL] is not set or blank. *)
Theorem base_url_clean (env : environ) :
  PyStr.endswith "/" (base_url env) = false
  /\ base_url env
     = PyText.rstrip_char "/"%char
         (var_or env "LLAMA_BASE_URL" default_base_url).
Proof.
  unfold base_url. split; [now apply rstrip_end|].
  rewrite get_env_optional_none. unfold var_or, or_text.
  destruct (PyStr.nonempty (var_text env "LLAMA_BASE_URL")) eqn:H;
    [now rewrite H|reflexivity].
Qed.

Section ConfigFacts.

Variable py_str : pyval -> string.

Lemma configured_mcp_url_text env :
  configured_mcp_url env
  = if PyStr.nonempty (first_var env "MCP_SERVER_URL" "REMOTE_OCP_MCP_URL")
    then Some (first_var env "MCP_SERVER_URL" "REMOTE_OCP_MCP_URL")
    else None.
Proof. apply or_else_vars. Qed.

Lemma mcp_label_text env :
  or_text (_get_env_optional env "MCP_SERVER_LABEL" (Some "kubernetes-mcp"))
          "kubernetes-mcp"
  = var_or env "MCP_SERVER_LABEL" "kubernetes-mcp".
Proof. now rewrite get_env_optional_text. Qed.

Lemma var_or_nonempty env name d :
  PyStr.nonempty d = true -> PyStr.nonempty (var_or env name d) = true.
Proof.
  intros Hd. unfold var_or.
  now destruct (PyStr.nonempty (var_text env name)) eqn:H.
Qed.

(** X10: a server URL that is configured is used as it is, without its
    trailing slashes, and the client is not consulted. *)
Theorem mcp_server_explicit (env : environ) (client : result pyval) :
  PyStr.nonempty (first_var env "MCP_SERVER_URL" "REMOTE_OCP_MCP_URL") = true ->
  get_mcp_server py_str env client
  = Returns (PyText.rstrip_char "/"%char
               (first_var env "MCP_SERVER_URL" "REMOTE_OCP_MCP_URL"),
             var_or env "MCP_SERVER_LABEL" "kubernetes-mcp").
Proof.
  intros H. unfold get_mcp_server.
  rewrite configured_mcp_url_text, H. cbn [truthy_text]. rewrite H.
  cbn [negb]. now rewrite H, mcp_label_text.
Qed.

(** X11: the URL that [get_mcp_server] returns does not end with a
    slash, and the label is not empty. *)
Theorem mcp_server_clean
    (env : environ) (client : result pyval) (url label : string) :
  get_mcp_server py_str env client = Returns (url, label) ->
  PyStr.endswith "/" url = false /\ PyStr.nonempty label = true.
Proof.
  unfold get_mcp_server. rewrite mcp_label_text.
  set (chosen := if negb (truthy_text (configured_mcp_url env)) then _
                 else configured_mcp_url env).
  destruct chosen as [u|]; [|discriminate].
  destruct (PyStr.nonempty u); [|discriminate].
  intros E. injection E as <- <-.
  split; [now apply rstrip_end|now apply var_or_nonempty].
Qed.

(** X12: without a configured URL, the server is the [uri] of the
    endpoint, an object or a dict, of the first tool group whose
    identifier is [MCP_TOOLGROUP_ID] ([mcp::kubernetes] by default). *)
Theorem mcp_server_discovered
    (env : environ) (groups : list pyval) (g : pyval) (uri : string) :
  (forall s, py_str (PStr s) = s) ->
  PyStr.nonempty (first_var env "MCP_SERVER_URL" "REMOTE_OCP_MCP_URL") = false ->
  find (fun g => Py.eq_str (Py.getattr g "identifier")
                   (var_or env "MCP_TOOLGROUP_ID" "mcp::kubernetes"))
       groups = Some g ->
  endpoint_uri (Py.getattr g "mcp_endpoint") = PStr uri ->
  PyStr.nonempty uri = true ->
  get_mcp_server py_str env (Ok (client_with groups))
  = Returns (PyText.rstrip_char "/"%char uri,
             var_or env "MCP_SERVER_LABEL" "kubernetes-mcp").
Proof.
  intros Hstr Hnone Hfind Huri Hne. unfold get_mcp_server.
  rewrite configured_mcp_url_text, Hnone. cbn [truthy_text negb].
  assert (Hd : discover_mcp_url py_str env (Ok (client_with groups))
               = Ok (Some uri)).
  { unfold discover_mcp_url, client_with, attr. cbn [bind].
    cbn [Py.hasattr Py.getattr Py.lookup String.eqb Ascii.eqb Bool.eqb].
    cbn [bind Py.call_method Py.lookup String.eqb Ascii.eqb Bool.eqb
         Py.iterate].
    rewrite (get_env_optional_text _ _ "mcp::kubernetes" eq_refl).
    fold (var_or env "MCP_TOOLGROUP_ID" "mcp::kubernetes").
    unfold next_or_none. rewrite Hfind.
    apply List.find_some in Hfind as [_ Hg]. apply eq_str_true in Hg.
    assert (Ht : Py.truthy g = true).
    { apply (getattr_object g "identifier"). now rewrite Hg. }
    rewrite Ht.
    destruct (Py.getattr g "mcp_endpoint") as [| | | | |d|t a| |] eqn:Hm;
      cbn [endpoint_uri Py.getattr] in Huri; try discriminate.
    - cbn [Py.is_none Py.getattr Py.truthy negb Py.is_dict andb Py.get
           Py.get_default bind].
      fold (Py.dict_get d "uri"). rewrite Huri.
      cbn [Py.truthy]. now rewrite Hne, Hstr.
    - cbn [Py.is_none Py.getattr]. rewrite Huri.
      cbn [Py.truthy Py.is_dict]. rewrite Hne.
      cbn [negb andb bind Py.truthy]. now rewrite Hne, Hstr. }
  rewrite Hd. cbv zeta. now rewrite Hne, mcp_label_text.
Qed.

End ConfigFacts.

Lemma mcp_server_explicit_witness :
  get_mcp_server RefLib.py_str sample_env (Raise TypeError)
  = Returns ("http://mcp.local:8080/sse", "kubernetes-mcp").
Proof.
  exact (mcp_server_explicit RefLib.py_str sample_env (Raise TypeError) eq_refl).
Defined.

Lemma mcp_server_clean_witness :
  PyStr.endswith "/" "http://mcp.local:8080/sse" = false
  /\ PyStr.nonempty "kubernetes-mcp" = true.
Proof.
  exact (mcp_server_clean RefLib.py_str sample_env (Raise TypeError)
           "http://mcp.local:8080/sse" "kubernetes-mcp" eq_refl).
Defined.

Lemma py_str_of_str s : RefLib.py_str (PStr s) = s.
Proof. reflexivity. Qed.

Lemma mcp_server_discovered_witness :
  get_mcp_server RefLib.py_str discovery_env (Ok (client_with sample_groups))
  = Returns ("http://ocp-mcp:8080/sse", "ocp").
Proof.
  exact (mcp_server_discovered RefLib.py_str discovery_env sample_groups
           (PObj "ToolGroup"
                 [("identifier", PStr "mcp::ocp");
                  ("mcp_endpoint",
                   PDict [("uri", PStr "http://ocp-mcp:8080/sse/")])])
           "http://ocp-mcp:8080/sse/"
           py_str_of_str eq_refl eq_refl eq_refl eq_refl).
Defined.

(* ================================================================= *)
(** ** The extractors and the question *)

(** X13: for a value that is no dict, neither extractor raises: whatever
    goes wrong while the attributes are probed is swallowed, and the
    text of the value itself is the last resort. *)
Theorem text_extractors_total (py_str : pyval -> string) (r : pyval) :
  Py.is_dict r = false ->
  (exists v, extract_output_text py_str r = Ok v)
  /\ (exists v, _get_text_from_turn_like_notebook py_str r = Ok v).
Proof.
  intros Hd.
  assert (He : exists v, extract_output_text py_str r = Ok v).
  { unfold extract_output_text.
    assert (Hp : dict_path py_str r = Ok (PStr (py_str r)))
      by (destruct r; try reflexivity; discriminate).
    destruct (attr_paths r) as [[text|]|e]; rewrite ?Hp; eauto. }
  split; [exact He|].
  unfold _get_text_from_turn_like_notebook.
  destruct (turn_stages r) as [[text|]|e]; eauto.
Qed.

Lemma text_extractors_total_witness :
  (exists v, extract_output_text RefLib.py_str broken_response = Ok v)
  /\ (exists v,
        _get_text_from_turn_like_notebook RefLib.py_str broken_response = Ok v).
Proof. exact (text_extractors_total RefLib.py_str broken_response eq_refl). Defined.

(** X14: the question put to the model is never empty, whatever the
    payload, and the summary of the payload in it has at most 4000
    characters. *)
Theorem incident_question_nonempty
    (py_str : pyval -> string) (json_dumps : pyval -> result string)
    (payload : pyval) :
  PyStr.nonempty (incident_question py_str json_dumps payload) = true
  /\ String.length (summarize_incident_payload py_str json_dumps payload)
     <= 4000.
Proof.
  split.
  - unfold incident_question.
    match goal with
    | |- PyStr.nonempty (if PyStr.nonempty ?q then _ else _) = true =>
        destruct (PyStr.nonempty q) eqn:Hq; [exact Hq|reflexivity]
    end.
  - unfold summarize_incident_payload.
    destruct (json_dumps payload); apply take_length.
Qed.

(* ================================================================= *)
(** ** The pseudo tool calls *)

Lemma lstrip_split p s :
  exists x, s = x ++ PyStr.lstrip_by p s /\ all_chars p x = true.
Proof.
  induction s as [|c s [x [Hx Hp]]]; [now exists ""|].
  cbn [PyStr.lstrip_by]. destruct (p c) eqn:Hc.
  - exists (String c x). cbn [append all_chars]. rewrite Hc, Hp.
    split; [now rewrite <- Hx|reflexivity].
  - now exists "".
Qed.

Lemma lstrip_app_all p x s :
  all_chars p x = true -> PyStr.lstrip_by p (x ++ s) = PyStr.lstrip_by p s.
Proof.
  induction x as [|c x IH]; [reflexivity|].
  cbn [all_chars append PyStr.lstrip_by]. intros H.
  apply andb_true_iff in H as [Hc Hx]. rewrite Hc. now apply IH.
Qed.

Section ToolCalls.

Import Re.

(** A greedy repetition before a continuation that fails on the
    characters of the class stops where the class ends. *)
Lemma greedy_exact p k s pos :
  (forall c s' q, p c = true -> k (String c s') q = None) ->
  greedy p k s pos
  = k (PyStr.lstrip_by p s)
      (pos + (String.length s - String.length (PyStr.lstrip_by p s))).
Proof.
  intros Hk. revert pos. induction s as [|c s IH]; intros pos.
  - cbn [greedy PyStr.lstrip_by String.length]. now rewrite Nat.add_0_r.
  - cbn [greedy PyStr.lstrip_by]. destruct (p c) eqn:Hc.
    + rewrite IH. pose proof (lstrip_length p s) as Hl.
      replace (S pos + (String.length s - String.length (PyStr.lstrip_by p s)))
        with (pos + (String.length (String c s)
                     - String.length (PyStr.lstrip_by p s)))
        by (cbn [String.length]; lia).
      destruct (k (PyStr.lstrip_by p s) _) eqn:Hr; [reflexivity|].
      now apply Hk.
    + now rewrite Nat.sub_diag, Nat.add_0_r.
Qed.

(** The pattern matches a line that reads: white space, an opening
    bracket, a name, an opening parenthesis. *)
Lemma re_match_tool_call ln :
  re_match tool_call_re ln
  = match PyStr.lstrip_by PyStr.is_space ln with
    | String b (String c t) =>
        Ascii.eqb "["%char b && is_name_char c
        && prefix "(" (PyStr.lstrip_by is_name_char t)
    | _ => false
    end.
Proof.
  unfold re_match, tool_call_re. cbn [run].
  rewrite greedy_exact.
  2:{ intros c s' q Hc. unfold only.
      destruct (Ascii.eqb_spec "["%char c) as [<-|]; [discriminate|reflexivity]. }
  destruct (PyStr.lstrip_by PyStr.is_space ln) as [|b [|c t]];
    [reflexivity| |].
  - unfold only. now destruct (Ascii.eqb "["%char b).
  - unfold only at 1. destruct (Ascii.eqb "["%char b); [|reflexivity].
    destruct (is_name_char c); [|reflexivity]. cbn [andb].
    rewrite greedy_exact.
    2:{ intros x s' q Hx. unfold only.
        destruct (Ascii.eqb_spec "("%char x) as [<-|]; [discriminate|reflexivity]. }
    destruct (PyStr.lstrip_by is_name_char t) as [|x r]; [reflexivity|].
    rewrite prefix_cons, prefix_nil_l, andb_true_r. unfold only.
    now destruct (Ascii.eqb "("%char x).
Qed.

End ToolCalls.

(** X15: a line counts as the echo of a tool call exactly when it reads:
    white space, an opening bracket, a name of letters and underscores,
    an opening parenthesis, any text, and ends, apart from white space,
    with a closing parenthesis. *)
Theorem tool_call_echo_shape (ln : string) :
  is_tool_call_echo ln = true
  <-> exists ws name rest,
        ln = ws ++ "[" ++ name ++ "(" ++ rest
        /\ all_chars PyStr.is_space ws = true
        /\ PyStr.nonempty name = true
        /\ all_chars is_name_char name = true
        /\ PyStr.endswith ")" (PyStr.strip ln) = true.
Proof.
  unfold is_tool_call_echo. rewrite re_match_tool_call. split.
  - intros H. apply andb_true_iff in H as [Hm Hend].
    destruct (lstrip_split PyStr.is_space ln) as [ws [Hln Hws]].
    destruct (PyStr.lstrip_by PyStr.is_space ln) as [|b [|c t]];
      try discriminate.
    apply andb_true_iff in Hm as [Hm Hp].
    apply andb_true_iff in Hm as [Hb Hc]. apply Ascii.eqb_eq in Hb. subst b.
    destruct (lstrip_split is_name_char t) as [name [Ht Hname]].
    apply prefix_split in Hp. cbn [String.length PyStr.drop append] in Hp.
    exists ws, (String c name),
      (PyStr.drop 1 (PyStr.lstrip_by is_name_char t)).
    repeat split; [|exact Hws|cbn [all_chars]; now rewrite Hc|exact Hend].
    rewrite Hln at 1. cbn [append]. do 3 f_equal.
    rewrite Ht at 1. f_equal. exact Hp.
  - intros [ws [name [rest [Hln [Hws [Hne [Hname Hend]]]]]]].
    rewrite Hend, andb_true_r. rewrite Hln.
    rewrite (lstrip_app_all _ _ _ Hws). cbn [append PyStr.lstrip_by].
    change (PyStr.is_space "["%char) with false. cbv iota.
    destruct name as [|c name]; [discriminate|].
    cbn [all_chars] in Hname. apply andb_true_iff in Hname as [Hc Hname].
    cbn [append]. rewrite Hc, Ascii.eqb_refl. cbn [andb].
    rewrite (lstrip_app_all _ _ _ Hname). cbn [append PyStr.lstrip_by].
    change (is_name_char "("%char) with false. cbv iota.
    rewrite prefix_cons, prefix_nil_l. reflexivity.
Qed.

Lemma lstrip_has_head p c t s :
  PyStr.lstrip_by p s = String c t -> has_char c s = true.
Proof.
  induction s as [|x s IH]; [discriminate|].
  cbn [PyStr.lstrip_by has_char]. destruct (p x).
  - intros H. rewrite (IH H). apply orb_true_r.
  - intros H. injection H as -> _. now rewrite Ascii.eqb_refl.
Qed.

Lemma no_bracket_no_echo ln :
  has_char "["%char ln = false -> is_tool_call_echo ln = false.
Proof.
  intros H. unfold is_tool_call_echo. rewrite re_match_tool_call.
  destruct (PyStr.lstrip_by PyStr.is_space ln) as [|b [|c t]] eqn:Hl;
    try reflexivity.
  destruct (Ascii.eqb_spec "["%char b) as [<-|]; [|reflexivity].
  apply lstrip_has_head in Hl. congruence.
Qed.

Lemma splitlines_from_chars c n :
  forall s line,
    String.length s <= n ->
    has_char c line = false -> has_char c s = false ->
    Forall (fun l => has_char c l = false) (PyStr.splitlines_from line s).
Proof.
  induction n as [|n IH]; intros s line Hn Hline Hs.
  - destruct s; [|simpl in Hn; lia]. cbn [PyStr.splitlines_from].
    destruct (PyStr.is_empty line); repeat constructor. exact Hline.
  - destruct s as [|x s].
    { cbn [PyStr.splitlines_from].
      destruct (PyStr.is_empty line); repeat constructor. exact Hline. }
    cbn [has_char] in Hs. apply orb_false_iff in Hs as [Hx Hs].
    cbn [String.length] in Hn. cbn [PyStr.splitlines_from].
    destruct (Ascii.eqb x "013"%char).
    + destruct s as [|y s'].
      * constructor; [exact Hline|]. apply IH; [simpl; lia|reflexivity|reflexivity].
      * cbn [has_char] in Hs. apply orb_false_iff in Hs as [Hy Hs'].
        cbn [String.length] in Hn.
        destruct (Ascii.eqb_spec y "010"%char) as [->|Hne].
        -- constructor; [exact Hline|].
           apply IH; [lia|reflexivity|exact Hs'].
        -- assert (Hgoal :
                     Forall (fun l => has_char c l = false)
                            (line :: PyStr.splitlines_from "" (String y s'))).
           { constructor; [exact Hline|].
             apply IH; [cbn [String.length]; lia|reflexivity|].
             cbn [has_char]. now rewrite Hy, Hs'. }
           destruct y as [[] [] [] [] [] [] [] []]; try exact Hgoal.
           now elim Hne.
    + destruct (PyStr.is_linebreak x).
      * constructor; [exact Hline|]. apply IH; [lia|reflexivity|exact Hs].
      * apply IH; [lia| |exact Hs]. rewrite has_char_app, Hline.
        cbn [has_char]. now rewrite Hx.
Qed.

Lemma filter_all {A : Type} (p : A -> bool) l :
  Forall (fun x => p x = true) l -> filter p l = l.
Proof.
  induction 1 as [|x l Hx _ IH]; [reflexivity|].
  cbn [filter]. now rewrite Hx, IH.
Qed.

(** X16: a findings text without an opening bracket loses no line: it is
    its lines, joined by newlines and trimmed. *)
Theorem findings_without_bracket (mcp_findings : string) :
  has_char "["%char mcp_findings = false ->
  drop_tool_call_echoes mcp_findings
  = PyStr.strip (PyStr.join nl (PyStr.splitlines mcp_findings)).
Proof.
  intros H. unfold drop_tool_call_echoes. cbv zeta. rewrite filter_all;
    [reflexivity|].
  eapply Forall_impl;
    [|exact (splitlines_from_chars "["%char _ mcp_findings "" (le_n _)
               eq_refl H)].
  intros l Hl. cbv beta in Hl. now rewrite no_bracket_no_echo.
Qed.

Lemma findings_without_bracket_witness :
  drop_tool_call_echoes ("pod web-1 is pending" ++ nl ++ "  (no node fits) ")
  = "pod web-1 is pending" ++ nl ++ "  (no node fits)".
Proof.
  exact (findings_without_bracket
           ("pod web-1 is pending" ++ nl ++ "  (no node fits) ") eq_refl).
Defined.

(* ================================================================= *)
(** ** Substitution, match by match *)

Section Substitution.

Import Re.

Lemma finditer_from_skip r k :
  forall s pos,
    k <= String.length s ->
    finditer_from r k s pos = finditer_from r 0 (PyStr.drop k s) (pos + k).
Proof.
  induction k as [|k IH]; intros s pos Hk.
  - cbn [PyStr.drop]. now rewrite Nat.add_0_r.
  - destruct s as [|c s]; [simpl in Hk; lia|].
    cbn [finditer_from PyStr.drop]. cbn [String.length] in Hk.
    rewrite IH by lia. f_equal. lia.
Qed.

Lemma replace_spans_copy repl ms last text c rest :
  PyStr.drop last text = String c rest ->
  Forall (fun m => S last <= m_start m) ms ->
  ReSub.replace_spans repl ms last text
  = String c (ReSub.replace_spans repl ms (S last) text).
Proof.
  intros Hdrop Hms. destruct ms as [|m ms]; cbn [ReSub.replace_spans].
  - now rewrite (drop_succ _ _ _ _ Hdrop).
  - inversion Hms as [|? ? Hm _]; subst.
    rewrite !slice_take_drop, Hdrop, (drop_succ _ _ _ _ Hdrop).
    replace (m_start m - last) with (S (m_start m - S last)) by lia.
    reflexivity.
Qed.

Lemma delete_spans_replace ms last s :
  delete_spans ms last s = ReSub.replace_spans "" ms last s.
Proof.
  revert last. induction ms as [|m ms IH]; intros last; [reflexivity|].
  cbn [delete_spans ReSub.replace_spans append]. now rewrite IH.
Qed.

Lemma sub_empty_sub r s : sub_empty r s = ReSub.sub r "" s.
Proof. apply delete_spans_replace. Qed.

Variable r : regex.
Variable repl : string.

(** What is left of a text behind the match at its start. *)
Variable after : string -> option string.

Hypothesis run_after :
  forall s pos,
    match after s with
    | Some rest =>
        exists g,
          run r (None, None) s pos
          = Some (pos + (String.length s - String.length rest), g)
    | None => run r (None, None) s pos = None
    end.

Hypothesis after_suffix :
  forall s rest,
    after s = Some rest -> exists x, s = x ++ rest /\ 1 <= String.length x.

Variable P : string -> string -> Prop.

Hypothesis at_end : P "" "".
Hypothesis at_match :
  forall s rest o, after s = Some rest -> P rest o -> P s (repl ++ o).
Hypothesis at_char :
  forall c s o, after (String c s) = None -> P s o -> P (String c s) (String c o).

(** A substitution is read off from left to right: at a match the
    replacement is written and the scan goes on behind it, elsewhere
    a character is copied. *)
Lemma sub_ind text : P text (ReSub.sub r repl text).
Proof.
  unfold ReSub.sub, finditer.
  assert (H : forall n s pos,
             String.length s <= n -> PyStr.drop pos text = s ->
             P s (ReSub.replace_spans repl (finditer_from r 0 s pos) pos text));
    [|exact (H _ text 0 (le_n _) eq_refl)].
  assert (Hnil : after "" = None).
  { destruct (after "") as [rest|] eqn:Ha; [|reflexivity].
    destruct (after_suffix _ _ Ha) as [x [Hx Hl]].
    destruct x; [simpl in Hl; lia|discriminate]. }
  assert (Hempty : forall pos,
             PyStr.drop pos text = "" ->
             P "" (ReSub.replace_spans repl (finditer_from r 0 "" pos) pos text)).
  { intros pos Hs. cbn [finditer_from].
    pose proof (run_after "" pos) as Hr. rewrite Hnil in Hr. rewrite Hr.
    cbn [ReSub.replace_spans]. rewrite Hs. exact at_end. }
  induction n as [|n IH]; intros s pos Hle Hs.
  - destruct s; [|simpl in Hle; lia]. now apply Hempty.
  - destruct s as [|c s]; [now apply Hempty|].
    pose proof (drop_succ _ _ _ _ Hs) as Hs'.
    cbn [finditer_from]. pose proof (run_after (String c s) pos) as Hr.
    destruct (after (String c s)) as [rest|] eqn:Ha.
    + destruct Hr as [g Hr]. rewrite Hr.
      destruct (after_suffix _ _ Ha) as [x [Hx Hlen]].
      pose proof (f_equal String.length Hx) as Hl.
      rewrite length_append in Hl.
      set (e := pos + (String.length (String c s) - String.length rest)).
      assert (He : e = pos + String.length x) by (unfold e; lia).
      rewrite finditer_from_skip by (cbn [String.length] in Hl; lia).
      assert (Hrest : PyStr.drop (e - pos - 1) s = rest).
      { replace (e - pos - 1) with (String.length x - 1) by lia.
        change (PyStr.drop (String.length x - 1) s)
          with (PyStr.drop (S (String.length x - 1)) (String c s)).
        replace (S (String.length x - 1)) with (String.length x) by lia.
        rewrite Hx at 1. apply drop_app. }
      rewrite Hrest.
      replace (S pos + (e - pos - 1)) with e by lia.
      cbn [ReSub.replace_spans m_start m_end].
      rewrite slice_take_drop, Nat.sub_diag. cbn [PyStr.take append].
      apply (at_match _ rest); [exact Ha|].
      apply IH.
      * cbn [String.length] in Hle, Hl. lia.
      * rewrite He, <- drop_drop, Hs. rewrite Hx at 1. apply drop_app.
    + rewrite Hr.
      rewrite (replace_spans_copy _ _ pos text c s Hs
                 (finditer_starts _ _ _ _)).
      apply at_char; [exact Ha|].
      apply IH; [simpl in Hle; lia|exact Hs'].
Qed.

End Substitution.

(* ================================================================= *)
(** ** The fenced block is never found *)

Lemma leading_prefix s :
  prefix "```" s = Nat.leb 3 (leading (Re.only backtick) s).
Proof.
  unfold Re.only, backtick.
  destruct s as [|a [|b [|c s]]]; cbn [leading];
    rewrite ?prefix_cons;
    repeat match goal with
           | |- context [Ascii.eqb "`"%char ?x] =>
               destruct (Ascii.eqb "`"%char x); cbn [andb leading]
           end; rewrite ?prefix_nil_l; reflexivity.
Qed.

Lemma contains_false_cons p c s :
  PyStr.contains p (String c s) = false ->
  prefix p (String c s) = false /\ PyStr.contains p s = false.
Proof. rewrite contains_cons. apply orb_false_iff. Qed.

Lemma sub_fence_free text : fence_free text (Re.sub_empty fence_re text).
Proof.
  rewrite sub_empty_sub.
  apply (sub_ind fence_re ""
           (fun s => if prefix "```" s then Some (after_fence s) else None)).
  - intros s pos. rewrite run_fence.
    destruct (prefix "```" s); [now exists (None, None)|reflexivity].
  - intros s rest H. cbv beta in H.
    destruct (prefix "```" s) eqn:Hp; [|discriminate].
    injection H as <-. destruct (after_fence_suffix s Hp) as [x [Hx [_ Hl]]].
    exists x. split; [exact Hx|lia].
  - split; reflexivity.
  - intros s rest o H [Ho _]. cbv beta in H.
    destruct (prefix "```" s) eqn:Hp; [|discriminate].
    split; [exact Ho|intros Hq; congruence].
  - intros c s o H [Ho Hlead]. cbv beta in H.
    destruct (prefix "```" (String c s)) eqn:Hp; [discriminate|].
    assert (Hl : leading (Re.only backtick) (String c o)
                 = leading (Re.only backtick) (String c s)).
    { cbn [leading]. destruct (Re.only backtick c) eqn:Hc; [|reflexivity].
      f_equal. apply Hlead. rewrite leading_prefix in Hp |- *.
      cbn [leading] in Hp. rewrite Hc in Hp.
      apply Nat.leb_gt in Hp. apply Nat.leb_gt. lia. }
    split; [|intros _; exact Hl].
    rewrite contains_cons, Ho, orb_false_r, leading_prefix, Hl,
      <- leading_prefix. exact Hp.
Qed.

(** [str.replace], match by match. *)
Lemma replace_ind old new (P : string -> string -> Prop) :
  old <> "" ->
  P "" "" ->
  (forall s o,
      prefix old s = true -> P (PyStr.drop (String.length old) s) o ->
      P s (new ++ o)) ->
  (forall c s o,
      prefix old (String c s) = false -> P s o -> P (String c s) (String c o)) ->
  forall s, P s (PyStr.replace old new s).
Proof.
  intros Hold Hend Hmatch Hchar s. unfold PyStr.replace.
  remember (String.length s) as n eqn:Hn.
  assert (Hle : String.length s <= n) by lia. clear Hn.
  revert s Hle. induction n as [|n IH]; intros s Hle.
  - destruct s; [exact Hend|simpl in Hle; lia].
  - destruct s as [|c s]; [exact Hend|].
    cbn [PyStr.replace_from].
    destruct (prefix old (String c s)) eqn:Hp.
    + rewrite replace_from_drop.
      assert (Hd : PyStr.drop (String.length old - 1) s
                   = PyStr.drop (String.length old) (String c s)).
      { destruct old as [|x old]; [now elim Hold|].
        simpl. now rewrite Nat.sub_0_r. }
      rewrite Hd. apply Hmatch; [exact Hp|].
      apply IH. rewrite <- Hd, drop_length. simpl in Hle. lia.
    + apply Hchar; [exact Hp|]. apply IH. simpl in Hle. lia.
Qed.

Lemma contains_drop_false p s n :
  PyStr.contains p s = false -> PyStr.contains p (PyStr.drop n s) = false.
Proof.
  intros H. destruct (PyStr.contains p (PyStr.drop n s)) eqn:Hd; [|reflexivity].
  apply contains_drop in Hd. congruence.
Qed.

(** A line break put for a tag joins no backticks. *)
Lemma replace_keeps_fence_free old s :
  old <> "" ->
  PyStr.contains "```" s = false ->
  PyStr.contains "```" (PyStr.replace old nl s) = false.
Proof.
  intros Hold.
  enough (H : PyStr.contains "```" s = false ->
              PyStr.contains "```" (PyStr.replace old nl s) = false
              /\ leading (Re.only backtick) (PyStr.replace old nl s)
                 <= leading (Re.only backtick) s)
    by (intros Hs; now apply H).
  apply (replace_ind old nl
           (fun s o => PyStr.contains "```" s = false ->
                       PyStr.contains "```" o = false
                       /\ leading (Re.only backtick) o
                          <= leading (Re.only backtick) s)); [exact Hold| | |].
  - intros _. split; [reflexivity|apply Nat.le_refl].
  - intros s0 o Hp IH Hs.
    destruct (IH (contains_drop_false _ _ _ Hs)) as [Ho _].
    split; [|cbn [nl append leading]; apply Nat.le_0_l].
    unfold nl. cbn [append]. rewrite contains_cons, Ho, orb_false_r.
    now rewrite prefix_cons.
  - intros c s0 o _ IH Hs. apply contains_false_cons in Hs as [Hp Hs].
    destruct (IH Hs) as [Ho Hl].
    assert (Hlead : leading (Re.only backtick) (String c o)
                    <= leading (Re.only backtick) (String c s0)).
    { cbn [leading]. destruct (Re.only backtick c); lia. }
    split; [|exact Hlead].
    rewrite contains_cons, Ho, orb_false_r, leading_prefix.
    rewrite leading_prefix in Hp. apply Nat.leb_gt in Hp. apply Nat.leb_gt. lia.
Qed.

Lemma normalize_fence_free raw_text :
  PyStr.contains "```" (normalize_for_json raw_text) = false.
Proof.
  unfold normalize_for_json.
  apply replace_keeps_fence_free; [discriminate|].
  apply replace_keeps_fence_free; [discriminate|].
  apply sub_fence_free.
Qed.

Lemma search_from_absent p r s :
  PyStr.find p s = None ->
  forall pos, Re.search_from (Re.lit p ++ r)%list s pos = None.
Proof.
  induction s as [|c s IH]; intros Hf pos; cbn [Re.search_from];
    rewrite run_lit.
  - pose proof (find_none p "" 0 Hf) as Hp. cbn [PyStr.drop] in Hp.
    now rewrite Hp.
  - pose proof (find_none p (String c s) 0 Hf) as Hp.
    cbn [PyStr.drop] in Hp. rewrite Hp. apply IH.
    rewrite find_cons in Hf.
    destruct (prefix p (String c s)); [discriminate|].
    now destruct (PyStr.find p s).
Qed.

(** X17: the working copy holds no three backticks in a row, so the
    search for a fenced [json] block in it finds nothing: the second
    strategy never yields findings. *)
Theorem fenced_stage_dead
    (json_loads : string -> result pyval) (raw_text : string) :
  PyStr.contains "```" (normalize_for_json raw_text) = false
  /\ fenced_stage json_loads (normalize_for_json raw_text) = PNone.
Proof.
  pose proof (normalize_fence_free raw_text) as Hfree.
  split; [exact Hfree|]. unfold fenced_stage, Re.search.
  assert (Hf : PyStr.find "```json" (normalize_for_json raw_text) = None).
  { destruct (PyStr.find "```json" (normalize_for_json raw_text)) eqn:Hf;
      [|reflexivity].
    assert (Hc : PyStr.contains ("" ++ "```" ++ "json")
                   (normalize_for_json raw_text) = true)
      by (unfold PyStr.contains; cbn [append]; now rewrite Hf).
    apply contains_middle in Hc. congruence. }
  unfold fenced_json_re.
  now rewrite (search_from_absent "```json" _ _ Hf 0).
Qed.

(* ================================================================= *)
(** ** The rendered work note *)

(* ----------------------------------------------------------------- *)
(** *** Blocks *)

Lemma blocks_app a b : blocks a -> blocks b -> blocks (a ++ b)%list.
Proof.
  intros Ha Hb.
  induction Ha as [|items rest Hne Hit _ IH|lines rest Hl _ IH|rest _ IH
                   |line rest _ IH]; cbn [app].
  - exact Hb.
  - rewrite <- app_assoc. cbn [app]. now apply blocks_list.
  - rewrite <- app_assoc. cbn [app]. now apply blocks_code.
  - now apply blocks_break.
  - now apply blocks_para.
Qed.

Lemma blocks_list_end done items :
  blocks done -> items <> [] -> Forall list_item items ->
  blocks (done ++ "<ul>" :: items ++ ["</ul>"])%list.
Proof.
  intros Hd Hne Hit. apply blocks_app; [exact Hd|].
  apply blocks_list; [exact Hne|exact Hit|apply blocks_end].
Qed.

Lemma blocks_code_end done lines :
  blocks done -> Forall code_line lines ->
  blocks (done ++ "<pre><code>" :: lines ++ ["</code></pre>"])%list.
Proof.
  intros Hd Hl. apply blocks_app; [exact Hd|].
  apply blocks_code; [exact Hl|apply blocks_end].
Qed.

Lemma app_cons_assoc {A : Type} (done : list A) x l y :
  ((done ++ x :: l) ++ [y] = done ++ x :: l ++ [y])%list.
Proof. now rewrite <- app_assoc. Qed.

Lemma snoc_not_nil {A : Type} (l : list A) x : (l ++ [x])%list <> [].
Proof. destruct l; discriminate. Qed.

(** One line keeps the parts in shape. *)
Lemma md_line_open st raw : open_parts st -> open_parts (md_line st raw).
Proof.
  intros [done [Hd Hst]]. unfold md_line.
  destruct st as [parts inl inc]. cbn [in_code in_list html_parts] in Hst.
  destruct (PyStr.startswith "```" (PyStr.strip (PyStr.rstrip_cr raw))).
  - (* a fence *)
    cbn [in_code]. destruct inc.
    + destruct Hst as [-> [lines [Hl ->]]].
      exists (done ++ "<pre><code>" :: lines ++ ["</code></pre>"])%list.
      split; [now apply blocks_code_end|].
      cbn [set_code emit in_code in_list html_parts]. unfold push.
      apply app_cons_assoc.
    + cbn [in_list]. destruct inl.
      * destruct Hst as [items [Hne [Hit ->]]].
        exists (done ++ "<ul>" :: items ++ ["</ul>"])%list.
        split; [now apply blocks_list_end|].
        cbn [set_code set_list emit in_code in_list html_parts]. unfold push.
        split; [reflexivity|]. exists []. split; [constructor|].
        f_equal. apply app_cons_assoc.
      * subst parts. exists done. split; [exact Hd|].
        cbn [set_code emit in_code in_list html_parts]. unfold push.
        split; [reflexivity|]. exists []. now split.
  - cbn [in_code]. destruct inc.
    + (* a line of a code block *)
      destruct Hst as [-> [lines [Hl ->]]].
      exists done. split; [exact Hd|].
      cbn [emit in_code in_list html_parts]. unfold push.
      split; [reflexivity|].
      exists (lines ++ [Html.escape (PyStr.rstrip_cr raw)])%list.
      split; [|apply app_cons_assoc].
      apply Forall_app. split; [exact Hl|].
      constructor; [|constructor]. now eexists.
    + destruct (PyStr.startswith "* " (PyStr.strip (PyStr.rstrip_cr raw))
                || PyStr.startswith "- " (PyStr.strip (PyStr.rstrip_cr raw))).
      * (* a list item *)
        cbn [in_list]. destruct inl.
        -- destruct Hst as [items [Hne [Hit ->]]].
           exists done. split; [exact Hd|].
           cbn [emit in_code in_list html_parts]. unfold push.
           eexists (items ++ [_])%list.
           split; [apply snoc_not_nil|].
           split; [|apply app_cons_assoc].
           apply Forall_app. split; [exact Hit|].
           constructor; [|constructor]. now eexists.
        -- subst parts. exists done. split; [exact Hd|].
           cbn [emit set_list in_code in_list html_parts]. unfold push.
           eexists [_]. split; [discriminate|].
           split; [|now rewrite <- app_assoc].
           constructor; [|constructor]. now eexists.
      * (* a break or a paragraph *)
        cbn [in_list].
        assert (Hclosed :
                  exists done',
                    blocks done'
                    /\ (if inl then set_list false (emit (mkMd parts inl false) "</ul>")
                        else mkMd parts inl false)
                       = mkMd done' false false).
        { destruct inl.
          - destruct Hst as [items [Hne [Hit ->]]].
            exists (done ++ "<ul>" :: items ++ ["</ul>"])%list.
            split; [now apply blocks_list_end|].
            unfold set_list, emit, push. cbn [in_code in_list html_parts].
            now rewrite app_cons_assoc.
          - subst parts. now exists done. }
        destruct Hclosed as [done' [Hd' ->]].
        destruct (String.eqb (PyStr.strip (PyStr.rstrip_cr raw)) "").
        -- exists (done' ++ ["<br/>"])%list.
           split; [|reflexivity].
           apply blocks_app; [exact Hd'|]. apply blocks_break, blocks_end.
        -- eexists (done' ++ [_])%list.
           split; [|reflexivity].
           apply blocks_app; [exact Hd'|]. apply blocks_para, blocks_end.
Qed.

Lemma md_fold_open lines :
  forall st, open_parts st -> open_parts (fold_left md_line lines st).
Proof.
  induction lines as [|raw lines IH]; intros st H; [exact H|].
  cbn [fold_left]. apply IH. now apply md_line_open.
Qed.

Lemma md_parts_blocks text : blocks (md_parts text).
Proof.
  unfold md_parts.
  assert (H0 : open_parts (mkMd [] false false)).
  { exists []. split; [apply blocks_end|reflexivity]. }
  pose proof (md_fold_open (PyStr.splitlines text) _ H0) as [done [Hd Hst]].
  destruct (fold_left md_line (PyStr.splitlines text) (mkMd [] false false))
    as [parts inl inc].
  cbn [in_code in_list html_parts] in Hst |- *. cbv zeta.
  destruct inc.
  - destruct Hst as [-> [lines [Hl ->]]].
    cbn [in_list in_code emit html_parts]. unfold push.
    rewrite app_cons_assoc. now apply blocks_code_end.
  - destruct inl.
    + destruct Hst as [items [Hne [Hit ->]]].
      cbn [in_list in_code emit html_parts]. unfold push.
      rewrite app_cons_assoc. now apply blocks_list_end.
    + subst parts. exact Hd.
Qed.

(** X18: the parts that the renderer emits are complete blocks, whatever
    the text: a list is opened before its first item and closed behind
    its last, a code block is closed behind its lines, also where the
    text ends inside a list or a fence that is not closed; and the
    result is these parts joined by newlines. *)
Theorem render_blocks (text : string) :
  blocks (md_parts text)
  /\ render_simple_markdown_to_html text
     = if PyStr.is_empty text then ""
       else PyStr.join nl (md_parts text).
Proof. split; [apply md_parts_blocks|reflexivity]. Qed.

(* ----------------------------------------------------------------- *)
(** *** Escaping *)

Lemma safe_over_app tags a b :
  safe_over tags a -> safe_over tags b -> safe_over tags (a ++ b).
Proof.
  intros Ha Hb. induction Ha as [|c s H1 H2 H3 Hs IH|e s He Hs IH|t s Ht Hs IH].
  - exact Hb.
  - cbn [append]. now apply over_char.
  - rewrite append_assoc. now apply over_entity.
  - rewrite append_assoc. now apply over_tag.
Qed.

Lemma markup_safe_over tags s :
  incl code_tags tags -> markup_safe s -> safe_over tags s.
Proof.
  intros Hin H. induction H as [|c s H1 H2 H3 Hs IH|e s He Hs IH|t s Ht Hs IH].
  - apply over_end.
  - now apply over_char.
  - now apply over_entity.
  - apply over_tag; [now apply Hin|exact IH].
Qed.

Lemma safe_tag_alone tags t : In t tags -> safe_over tags t.
Proof.
  intros H. rewrite <- (append_nil_r t). apply over_tag; [exact H|apply over_end].
Qed.

Lemma safe_wrapped tags a body b :
  In a tags -> In b tags -> safe_over tags body ->
  safe_over tags (a ++ body ++ b).
Proof.
  intros Ha Hb H. apply over_tag; [exact Ha|].
  apply safe_over_app; [exact H|now apply safe_tag_alone].
Qed.

Lemma safe_escape tags s : safe_over tags (Html.escape s).
Proof.
  induction s as [|c s IH]; [apply over_end|].
  rewrite escape_cons.
  destruct (escape_char_cases c) as [He|[-> [H1 [H2 H3]]]].
  - now apply over_entity.
  - cbn [append]. now apply over_char.
Qed.

Lemma safe_inline tags text :
  incl code_tags tags -> safe_over tags (_render_inline_code_escaped text).
Proof.
  intros Hin. apply markup_safe_over; [exact Hin|].
  rewrite render_inline_pieces. apply pieces_html_safe.
Qed.

Lemma safe_join tags parts :
  Forall (safe_over tags) parts -> safe_over tags (PyStr.join nl parts).
Proof.
  unfold PyStr.join. induction 1 as [|p l Hp Hl IH]; [apply over_end|].
  destruct l as [|q l]; [exact Hp|].
  change (String.concat nl (p :: q :: l))
    with (p ++ nl ++ String.concat nl (q :: l)).
  apply safe_over_app; [exact Hp|].
  unfold nl at 1. cbn [append].
  apply over_char; [discriminate..|exact IH].
Qed.

Lemma code_tags_note : incl code_tags note_tags.
Proof. intros t [<-|[<-|[]]]; simpl; tauto. Qed.

Lemma note_tags_report : incl note_tags report_tags.
Proof. intros t H. unfold report_tags. apply in_or_app. now left. Qed.

Lemma safe_over_incl tags tags' s :
  incl tags tags' -> safe_over tags s -> safe_over tags' s.
Proof.
  intros Hin H. induction H as [|c s H1 H2 H3 Hs IH|e s He Hs IH|t s Ht Hs IH].
  - apply over_end.
  - now apply over_char.
  - now apply over_entity.
  - apply over_tag; [now apply Hin|exact IH].
Qed.

Lemma open_code_safe : safe_over note_tags "<pre><code>".
Proof.
  apply (over_tag _ "<pre>" "<code>"); [simpl; tauto|].
  apply safe_tag_alone. simpl; tauto.
Qed.

Lemma close_code_safe : safe_over note_tags "</code></pre>".
Proof.
  apply (over_tag _ "</code>" "</pre>"); [simpl; tauto|].
  apply safe_tag_alone. simpl; tauto.
Qed.

Lemma blocks_safe parts : blocks parts -> Forall (safe_over note_tags) parts.
Proof.
  induction 1 as [|items rest Hne Hit _ IH|lines rest Hl _ IH|rest _ IH
                  |line rest _ IH].
  - constructor.
  - constructor; [apply safe_tag_alone; simpl; tauto|].
    apply Forall_app. split.
    + eapply Forall_impl; [|exact Hit]. intros p [content ->].
      apply safe_wrapped; [simpl; tauto..|].
      apply safe_inline, code_tags_note.
    + constructor; [apply safe_tag_alone; simpl; tauto|exact IH].
  - constructor; [apply open_code_safe|].
    apply Forall_app. split.
    + eapply Forall_impl; [|exact Hl]. intros p [line ->]. apply safe_escape.
    + constructor; [apply close_code_safe|exact IH].
  - constructor; [apply safe_tag_alone; simpl; tauto|exact IH].
  - constructor; [|exact IH].
    apply safe_wrapped; [simpl; tauto..|].
    apply safe_inline, code_tags_note.
Qed.

Lemma render_safe text :
  safe_over note_tags (render_simple_markdown_to_html text).
Proof.
  unfold render_simple_markdown_to_html.
  destruct (PyStr.is_empty text); [apply over_end|].
  apply safe_join, blocks_safe, md_parts_blocks.
Qed.

(** X19: in a rendered work note every [<], [>] and [&] belongs to a
    character entity or to one of the renderer's own tags: no markup of
    the text comes through. *)
Theorem render_markup_safe (text : string) :
  safe_over note_tags (render_simple_markdown_to_html text).
Proof. apply render_safe. Qed.

(* ----------------------------------------------------------------- *)
(** *** The correlation section *)

Ltac plain_safe :=
  repeat (apply over_char; [discriminate|discriminate|discriminate|]);
  apply over_end.

Ltac report_tag := unfold report_tags, note_tags; simpl; tauto.

Ltac heading_safe :=
  unfold h_probable, h_evidence, h_next, h_proposed, h_kb, h_ref;
  apply (over_tag _ "<h4>"); [report_tag|];
  repeat (apply over_char; [discriminate|discriminate|discriminate|]);
  apply safe_tag_alone; report_tag.

Lemma pre_code_safe body :
  safe_over report_tags body -> safe_over report_tags (pre_code body).
Proof.
  intros H. unfold pre_code.
  apply (over_tag _ "<pre>"); [report_tag|].
  apply (over_tag _ "<code>"); [report_tag|].
  apply safe_over_app; [exact H|].
  apply (over_tag _ "</code>" "</pre>"); [report_tag|].
  apply safe_tag_alone. report_tag.
Qed.

Lemma li_safe text : safe_over report_tags (li text).
Proof. unfold li. apply safe_wrapped; [report_tag..|apply safe_escape]. Qed.

Section ReportEscaping.

Variable py_str : pyval -> string.
Variable json_dumps_indent : pyval -> result string.

Lemma evidence_section_safe parts evidence :
  Forall (safe_over report_tags) parts ->
  Forall (safe_over report_tags) (evidence_section py_str parts evidence).
Proof.
  intros H. unfold evidence_section.
  destruct (Py.is_list evidence && Py.truthy evidence); [|exact H].
  apply Forall_app. split; [exact H|].
  apply Forall_app. split.
  - constructor; [heading_safe|].
    constructor; [apply safe_tag_alone; report_tag|constructor].
  - apply Forall_app. split.
    + apply Forall_forall. intros p Hp. apply in_map_iff in Hp as [x [<- _]].
      apply li_safe.
    + constructor; [apply safe_tag_alone; report_tag|constructor].
Qed.

Lemma kb_section_safe parts kb :
  Forall (safe_over report_tags) parts ->
  Forall (safe_over report_tags) (kb_section py_str parts kb).
Proof.
  intros H. unfold kb_section.
  destruct (Py.is_list kb && Py.truthy kb); [|exact H].
  apply Forall_app. split; [exact H|].
  apply Forall_app. split.
  - constructor; [heading_safe|].
    constructor; [apply safe_tag_alone; report_tag|constructor].
  - apply Forall_app. split.
    + apply Forall_forall. intros p Hp. apply in_map_iff in Hp as [x [<- _]].
      apply li_safe.
    + constructor; [apply safe_tag_alone; report_tag|constructor].
Qed.

Lemma push_safe parts p :
  Forall (safe_over report_tags) parts -> safe_over report_tags p ->
  Forall (safe_over report_tags) (push parts p).
Proof.
  intros H Hp. unfold push. apply Forall_app. split; [exact H|].
  now constructor.
Qed.

Lemma next_steps_section_safe parts next_steps parts' :
  next_steps_section parts next_steps = Ok parts' ->
  Forall (safe_over report_tags) parts ->
  Forall (safe_over report_tags) parts'.
Proof.
  unfold next_steps_section. intros E H.
  destruct (Py.is_list next_steps && Py.truthy next_steps).
  - destruct (collect_commands (Py.as_list next_steps) []) as [commands|e];
      [|discriminate].
    cbn [bind] in E.
    assert (Hh : Forall (safe_over report_tags) (push parts h_next))
      by (apply push_safe; [exact H|heading_safe]).
    destruct (Py.truthy_list commands); injection E as <-; [|exact Hh].
    apply push_safe; [exact Hh|]. apply pre_code_safe, safe_escape.
  - now injection E as <-.
Qed.

Lemma proposed_section_safe parts proposed :
  Forall (safe_over report_tags) parts ->
  Forall (safe_over report_tags)
         (proposed_section py_str json_dumps_indent parts proposed).
Proof.
  intros H. unfold proposed_section.
  destruct (Py.is_dict proposed && Py.truthy proposed); [|exact H].
  apply push_safe; [apply push_safe|].
  - exact H.
  - heading_safe.
  - apply pre_code_safe, safe_escape.
Qed.

Lemma ref_section_safe parts ref_doc :
  Forall (safe_over report_tags) parts ->
  Forall (safe_over report_tags) (ref_section parts ref_doc).
Proof.
  intros H. unfold ref_section.
  destruct (Py.is_str ref_doc
            && PyStr.nonempty (PyStr.strip (Py.as_str ref_doc))); [|exact H].
  apply push_safe; [apply push_safe|].
  - exact H.
  - heading_safe.
  - apply (over_tag _ "<p>"); [report_tag|].
    apply (over_tag _ "<em>"); [report_tag|].
    apply safe_over_app; [apply safe_escape|].
    apply (over_tag _ "</em>" "</p>"); [report_tag|].
    apply safe_tag_alone. report_tag.
Qed.

Lemma rag_parts_safe d parts :
  rag_parts py_str json_dumps_indent d = Ok parts ->
  Forall (safe_over report_tags) parts.
Proof.
  unfold rag_parts. cbv zeta. intros E.
  match type of E with
  | bind ?para _ = _ => destruct para as [p|e] eqn:Hpara; [|discriminate]
  end.
  cbn [bind] in E.
  assert (Hp : safe_over report_tags p).
  { destruct (Py.truthy (Py.or_ (Py.dict_get d "probable_cause") (PStr ""))).
    - destruct (Py.or_ (Py.dict_get d "probable_cause") (PStr ""));
        try discriminate.
      cbn [escape_value bind] in Hpara. injection Hpara as <-.
      apply (safe_wrapped _ "<p>" _ "</p>"); [report_tag..|apply safe_escape].
    - injection Hpara as <-. apply over_end. }
  match type of E with
  | bind ?next _ = _ => destruct next as [q|e] eqn:Hnext; [|discriminate]
  end.
  cbn [bind] in E. injection E as <-.
  apply ref_section_safe, kb_section_safe, proposed_section_safe.
  apply (next_steps_section_safe _ _ _ Hnext).
  apply evidence_section_safe.
  constructor; [heading_safe|].
  constructor; [exact Hp|constructor].
Qed.

Lemma filter_safe (p : string -> bool) parts :
  Forall (safe_over report_tags) parts ->
  Forall (safe_over report_tags) (filter p parts).
Proof.
  induction 1 as [|x l Hx _ IH]; [constructor|].
  cbn [filter]. destruct (p x); [now constructor|exact IH].
Qed.

(** X20: in the correlation section every [<], [>] and [&] belongs to a
    character entity or to one of the section's own tags, whether the
    section is assembled from the findings or rendered from the
    explanation: no value of the findings brings markup of its own. *)
Theorem rag_section_markup_safe
    (rag_json : pyval) (rag_explanation html : string) :
  rag_section_html py_str json_dumps_indent rag_json rag_explanation
  = Ok html ->
  safe_over report_tags html.
Proof.
  unfold rag_section_html.
  destruct (Py.is_dict rag_json && Py.truthy rag_json).
  - destruct (rag_parts py_str json_dumps_indent (Py.as_dict rag_json))
      as [parts|e] eqn:Hparts; [|discriminate].
    cbn [bind]. intros E. injection E as <-.
    apply safe_join, filter_safe. exact (rag_parts_safe _ _ Hparts).
  - intros E. injection E as <-.
    apply (safe_over_incl note_tags); [apply note_tags_report|].
    apply render_safe.
Qed.

End ReportEscaping.

Lemma rag_section_markup_safe_witness :
  safe_over report_tags
    ("<h4>1) Probable cause</h4>" ++ nl ++ "<p>a &lt; b</p>").
Proof.
  exact (rag_section_markup_safe RefLib.py_str RefLib.json_dumps_indent
           (PDict [("probable_cause", PStr "a < b")]) "" _ eq_refl).
Defined.

(* ================================================================= *)
(** ** The query *)

Lemma contains_parts p s :
  PyStr.contains p s = true <-> exists a b, s = a ++ p ++ b.
Proof.
  split.
  - unfold PyStr.contains.
    destruct (PyStr.find p s) as [i|] eqn:Hf; [|discriminate]. intros _.
    destruct (find_some _ _ _ Hf) as [Hp _]. apply prefix_split in Hp.
    exists (PyStr.take i s), (PyStr.drop (String.length p) (PyStr.drop i s)).
    now rewrite <- Hp, take_drop.
  - intros [a [b ->]]. apply contains_app_r, contains_prefix, prefix_app.
Qed.

Lemma contains_trans a b c :
  PyStr.contains a b = true -> PyStr.contains b c = true ->
  PyStr.contains a c = true.
Proof.
  intros Hab Hbc. apply contains_parts in Hab as [x [y ->]].
  apply contains_parts in Hbc as [u [v ->]]. apply contains_parts.
  exists (u ++ x), (y ++ v). now rewrite !append_assoc.
Qed.

Lemma contains_refl s : PyStr.contains s s = true.
Proof. apply contains_parts. exists "", "". now rewrite append_nil_r. Qed.

Lemma join_cons sep x y l :
  PyStr.join sep (x :: y :: l) = x ++ sep ++ PyStr.join sep (y :: l).
Proof. reflexivity. Qed.

Lemma contains_join sep x l :
  In x l -> PyStr.contains x (PyStr.join sep l) = true.
Proof.
  induction l as [|y l IH]; [easy|].
  intros [->|Hin].
  - apply contains_parts. exists "". destruct l as [|z l].
    + exists "". cbn [PyStr.join String.concat append]. now rewrite append_nil_r.
    + exists (sep ++ PyStr.join sep (z :: l)). now rewrite join_cons.
  - destruct l as [|z l]; [easy|]. rewrite join_cons.
    apply contains_app_r, contains_app_r. now apply IH.
Qed.

(** The query is the type filter and the clauses, joined by [and]. *)
Lemma build_cql_clauses space_key labels since_hours :
  build_cql space_key labels since_hours
  = PyStr.join " and " ("type=page" :: cql_clauses space_key labels since_hours).
Proof.
  unfold build_cql, cql_of, cql_clauses, push.
  destruct (0 <? since_hours)%Z; destruct (PyStr.nonempty space_key);
    destruct labels; reflexivity.
Qed.

Lemma join_head sep x l :
  PyStr.join sep (x :: l)
  = x ++ match l with [] => "" | _ :: _ => sep ++ PyStr.join sep l end.
Proof. destruct l; [cbn; now rewrite append_nil_r|reflexivity]. Qed.

(** X21: every query starts with the type filter, and it is the type
    filter alone exactly when no filter is asked for: a number of hours
    that is not positive, an empty space key and no labels. *)
Theorem build_cql_base
    (space_key : string) (labels : list string) (since_hours : Z) :
  prefix "type=page" (build_cql space_key labels since_hours) = true
  /\ (build_cql space_key labels since_hours = "type=page"
      <-> (since_hours <= 0)%Z /\ space_key = "" /\ labels = []).
Proof.
  rewrite build_cql_clauses, join_head. split; [apply prefix_app|].
  unfold cql_clauses. split.
  - intros H. rewrite <- (append_nil_r "type=page") in H at 2.
    apply append_inv_head in H.
    destruct (0 <? since_hours)%Z eqn:Hh; [discriminate|].
    destruct (PyStr.nonempty space_key) eqn:Hk; [discriminate|].
    destruct labels as [|l labels]; [|discriminate].
    apply Z.ltb_ge in Hh. apply nonempty_false in Hk. now repeat split.
  - intros [Hh [-> ->]]. apply Z.ltb_ge in Hh. rewrite Hh. reflexivity.
Qed.

(** X22: each label is asked for by its own clause, between quotes. *)
Theorem build_cql_labels
    (space_key : string) (labels : list string) (since_hours : Z)
    (label : string) :
  In label labels ->
  PyStr.contains (label_clause label)
                 (build_cql space_key labels since_hours) = true.
Proof.
  intros Hin. rewrite build_cql_clauses.
  destruct labels as [|l0 labels]; [easy|].
  apply (contains_trans _ (labels_clause (l0 :: labels))).
  - unfold labels_clause. apply contains_app_r.
    apply contains_parts.
    destruct (proj1 (contains_parts _ _)
                (contains_join " OR " (label_clause label)
                   (map label_clause (l0 :: labels))
                   (in_map _ _ _ Hin))) as [a [b Hab]].
    exists a, (b ++ ")"). rewrite Hab. now rewrite !append_assoc.
  - apply contains_join. right. unfold cql_clauses.
    apply in_or_app. right. apply in_or_app. right. now left.
Qed.

Lemma build_cql_labels_witness :
  PyStr.contains (label_clause "runbook")
                 (build_cql "OPS" ["kb"; "runbook"] 24) = true.
Proof.
  exact (build_cql_labels "OPS" ["kb"; "runbook"] 24 "runbook"
           (or_intror (or_introl eq_refl))).
Defined.

(* ================================================================= *)
(** ** The check of the vector store *)

Lemma failed_files_none files :
  failed_files files = Ok [] <-> forallb completed files = true.
Proof.
  induction files as [|f files IH]; [now split|].
  cbn [failed_files forallb]. split.
  - intros H. destruct f; try discriminate.
    cbn [Py.get Py.get_default bind] in H.
    + fold (Py.dict_get entries "status") in H.
      destruct (failed_files files) as [failed|e]; [|discriminate].
      cbn [bind] in H. cbn [completed].
      destruct (status_done (Py.dict_get entries "status")); [|discriminate].
      injection H as ->. now apply IH.
    + cbn [Py.get Py.get_default] in H.
      destruct (Py.lookup "get" attrs); discriminate.
  - intros H. apply andb_true_iff in H as [Hf Hrest].
    destruct f; try discriminate. cbn [completed] in Hf.
    cbn [Py.get Py.get_default bind]. fold (Py.dict_get entries "status").
    rewrite (proj2 IH Hrest). cbn [bind]. now rewrite Hf.
Qed.

Lemma verify_payload_true listed d :
  Py.iterate (match Py.lookup "data" d with
              | Some x => x
              | None => PList []
              end) = Ok listed ->
  verify_payload (PDict d) = Ok true <-> forallb completed listed = true.
Proof.
  intros Hl. unfold verify_payload. cbn [Py.get_default bind]. rewrite Hl.
  cbn [bind]. rewrite <- failed_files_none.
  destruct (failed_files listed) as [[|f failed]|e].
  - cbn [bind]. now split.
  - cbn [bind]. split; [|discriminate].
    destruct (report_failed (f :: failed)); cbn [bind]; discriminate.
  - cbn [bind]. split; discriminate.
Qed.

(** X23: a payload without a [data] key passes the check; a payload with
    a list of files passes exactly when every file is a dict whose
    status is one of the four that count as done, so an empty list
    passes and a file without status does not. *)
Theorem verify_payload_completed (d : list (string * pyval)) :
  (Py.lookup "data" d = None -> verify_payload (PDict d) = Ok true)
  /\ (forall files,
         Py.lookup "data" d = Some (PList files) ->
         (verify_payload (PDict d) = Ok true
          <-> forallb completed files = true)).
Proof.
  split.
  - intros H. apply (verify_payload_true []); [now rewrite H|reflexivity].
  - intros files H. apply verify_payload_true. now rewrite H.
Qed.

(* ================================================================= *)
(** ** The markdown of a page *)

Lemma after_last_newline_suffix s rest :
  after_last_newline s = Some rest ->
  exists x, s = x ++ rest /\ 1 <= String.length x.
Proof.
  revert rest. induction s as [|c s IH]; intros rest H; [discriminate|].
  cbn [after_last_newline] in H.
  destruct (PyStr.is_space c); [|discriminate].
  destruct (after_last_newline s) as [r|].
  - injection H as <-. destruct (IH r eq_refl) as [x [Hx Hl]].
    exists (String c x). cbn [append String.length]. split; [now rewrite <- Hx|lia].
  - destruct (Ascii.eqb "010"%char c); [|discriminate]. injection H as <-.
    exists (String c ""). split; [reflexivity|simpl; lia].
Qed.

Lemma after_last_newline_length s rest :
  after_last_newline s = Some rest -> String.length rest < String.length s.
Proof.
  intros H. destruct (after_last_newline_suffix _ _ H) as [x [Hx Hl]].
  apply (f_equal String.length) in Hx. rewrite length_append in Hx. lia.
Qed.

Section SpaceNewline.

Import Re.

Lemma newline_is_space : PyStr.is_space "010"%char = true.
Proof. reflexivity. Qed.

(** The greedy white space of [\s+\n] gives back up to the last
    newline. *)
Lemma greedy_space_newline g s pos :
  greedy PyStr.is_space (run [Chr (only "010"%char)] g) s pos
  = match after_last_newline s with
    | Some rest => Some (pos + (String.length s - String.length rest), g)
    | None => None
    end.
Proof.
  revert pos. induction s as [|c s IH]; intros pos; [reflexivity|].
  cbn [greedy after_last_newline].
  destruct (PyStr.is_space c) eqn:Hc.
  - rewrite IH. destruct (after_last_newline s) as [rest|] eqn:Ha.
    + f_equal. f_equal. cbn [String.length].
      pose proof (after_last_newline_length _ _ Ha). lia.
    + cbn [run]. unfold only. destruct (Ascii.eqb "010"%char c); [|reflexivity].
      f_equal. f_equal. cbn [String.length]. lia.
  - cbn [run]. unfold only.
    destruct (Ascii.eqb_spec "010"%char c) as [<-|]; [discriminate|reflexivity].
Qed.

Lemma run_space_newline g s pos :
  run space_newline_re g s pos
  = match after_space_newline s with
    | Some rest => Some (pos + (String.length s - String.length rest), g)
    | None => None
    end.
Proof.
  destruct s as [|c s]; [reflexivity|].
  change (run space_newline_re g (String c s) pos)
    with (if PyStr.is_space c
          then greedy PyStr.is_space (run [Chr (only "010"%char)] g) s (S pos)
          else None).
  cbn [after_space_newline]. destruct (PyStr.is_space c); [|reflexivity].
  rewrite greedy_space_newline.
  destruct (after_last_newline s) as [rest|] eqn:Ha; [|reflexivity].
  f_equal. f_equal. cbn [String.length].
  pose proof (after_last_newline_length _ _ Ha). lia.
Qed.

End SpaceNewline.

(** Behind the last newline there is no further one. *)
Lemma after_last_newline_rest s rest :
  after_last_newline s = Some rest -> after_last_newline rest = None.
Proof.
  revert rest. induction s as [|c s IH]; intros rest H; [discriminate|].
  cbn [after_last_newline] in H.
  destruct (PyStr.is_space c); [|discriminate].
  destruct (after_last_newline s) as [r|] eqn:Hs.
  - injection H as <-. now apply IH.
  - destruct (Ascii.eqb "010"%char c); [|discriminate]. now injection H as <-.
Qed.

Lemma after_last_newline_none_head s :
  after_last_newline s = None -> prefix nl s = false.
Proof.
  destruct s as [|c s]; [reflexivity|]. cbn [after_last_newline].
  unfold nl. rewrite prefix_cons, prefix_nil_l, andb_true_r.
  destruct (Ascii.eqb_spec "010"%char c) as [<-|]; [|reflexivity].
  rewrite newline_is_space. now destruct (after_last_newline s).
Qed.

Lemma sub_space_newline_tidied md :
  tidied md (ReSub.sub space_newline_re nl md).
Proof.
  apply (sub_ind space_newline_re nl after_space_newline).
  - intros s pos. rewrite run_space_newline.
    destruct (after_space_newline s); [now exists (None, None)|reflexivity].
  - intros s rest H. destruct s as [|c s]; [discriminate|].
    cbn [after_space_newline] in H.
    destruct (PyStr.is_space c); [|discriminate].
    destruct (after_last_newline_suffix _ _ H) as [x [Hx Hl]].
    exists (String c x). cbn [append String.length].
    split; [now rewrite <- Hx|lia].
  - split; reflexivity.
  - intros s rest o H [Ho Hhead]. destruct s as [|c s]; [discriminate|].
    cbn [after_space_newline] in H.
    destruct (PyStr.is_space c) eqn:Hc; [|discriminate]. split.
    + unfold nl at 1. cbn [append no_space_newline].
      rewrite (Hhead (after_last_newline_rest _ _ H)), andb_false_r. exact Ho.
    + cbn [after_last_newline]. rewrite Hc, H. discriminate.
  - intros c s o H [Ho Hhead]. cbn [after_space_newline] in H. split.
    + cbn [no_space_newline]. rewrite Ho, andb_true_r.
      destruct (PyStr.is_space c); [|reflexivity].
      now rewrite (Hhead H).
    + intros Hn. unfold nl. rewrite prefix_cons, prefix_nil_l, andb_true_r.
      apply after_last_newline_none_head in Hn. unfold nl in Hn.
      now rewrite prefix_cons, prefix_nil_l, andb_true_r in Hn.
Qed.

(* ----------------------------------------------------------------- *)
(** *** The second substitution finds nothing *)

Lemma no_space_newline_tail c s :
  no_space_newline (String c s) = true -> no_space_newline s = true.
Proof. cbn [no_space_newline]. intros H. now apply andb_true_iff in H. Qed.

Lemma run_newlines_tidy s pos :
  no_space_newline s = true ->
  Re.run newlines_re (None, None) s pos = None.
Proof.
  intros H. unfold newlines_re. cbn [Re.run]. unfold Re.only.
  destruct s as [|c s]; [reflexivity|].
  destruct (Ascii.eqb_spec "010"%char c) as [<-|]; [|reflexivity].
  destruct s as [|d s]; [reflexivity|].
  destruct (Ascii.eqb_spec "010"%char d) as [<-|]; [|reflexivity].
  cbn [no_space_newline] in H. unfold nl in H.
  rewrite prefix_cons, prefix_nil_l in H. discriminate.
Qed.

Lemma finditer_newlines_tidy s :
  forall pos,
    no_space_newline s = true ->
    Re.finditer_from newlines_re 0 s pos = [].
Proof.
  induction s as [|c s IH]; intros pos H; cbn [Re.finditer_from];
    rewrite (run_newlines_tidy _ _ H); [reflexivity|].
  apply IH. exact (no_space_newline_tail _ _ H).
Qed.

Lemma sub_newlines_tidy s :
  no_space_newline s = true -> ReSub.sub newlines_re (nl ++ nl) s = s.
Proof.
  intros H. unfold ReSub.sub, Re.finditer.
  now rewrite (finditer_newlines_tidy s 0 H).
Qed.

(* ----------------------------------------------------------------- *)
(** *** Trimming keeps the text tidy *)

Lemma no_space_newline_lstrip p s :
  no_space_newline s = true -> no_space_newline (PyStr.lstrip_by p s) = true.
Proof.
  induction s as [|c s IH]; [reflexivity|].
  intros H. cbn [PyStr.lstrip_by]. destruct (p c); [|exact H].
  apply IH. exact (no_space_newline_tail _ _ H).
Qed.

Lemma rstrip_prefix_char p d s :
  prefix (String d "") (PyStr.rstrip_by p s) = true ->
  prefix (String d "") s = true.
Proof.
  destruct s as [|c s]; [discriminate|]. rewrite rstrip_cons.
  destruct (all_chars p s).
  - destruct (p c); [discriminate|]. now rewrite !prefix_cons, !prefix_nil_l.
  - now rewrite !prefix_cons, !prefix_nil_l.
Qed.

Lemma no_space_newline_rstrip p s :
  no_space_newline s = true -> no_space_newline (PyStr.rstrip_by p s) = true.
Proof.
  induction s as [|c s IH]; [reflexivity|].
  intros H. rewrite rstrip_cons. destruct (all_chars p s).
  - destruct (p c); [reflexivity|]. cbn [no_space_newline prefix].
    now rewrite andb_false_r.
  - cbn [no_space_newline] in H |- *. apply andb_true_iff in H as [Hc Hs].
    rewrite (IH Hs), andb_true_r.
    destruct (PyStr.is_space c); [|reflexivity]. cbn [andb negb] in Hc |- *.
    destruct (prefix nl (PyStr.rstrip_by p s)) eqn:Hp; [|reflexivity].
    apply rstrip_prefix_char in Hp. unfold nl in Hc. now rewrite Hp in Hc.
Qed.

Lemma tidy_markdown_cases md :
  tidy_markdown md = PyStr.strip (ReSub.sub space_newline_re nl md)
  /\ no_space_newline (tidy_markdown md) = true.
Proof.
  unfold tidy_markdown. cbv zeta.
  destruct (sub_space_newline_tidied md) as [Ht _].
  rewrite (sub_newlines_tidy _ Ht). split; [reflexivity|].
  unfold PyStr.strip. now apply no_space_newline_rstrip, no_space_newline_lstrip.
Qed.

Lemma no_space_newline_blank s :
  no_space_newline s = true -> PyStr.contains (nl ++ nl) s = false.
Proof.
  induction s as [|c s IH]; [reflexivity|].
  cbn [no_space_newline]. intros H. apply andb_true_iff in H as [Hc Hs].
  rewrite contains_cons, (IH Hs), orb_false_r.
  unfold nl at 1. cbn [append]. rewrite prefix_cons.
  destruct (Ascii.eqb_spec "010"%char c) as [<-|]; [|reflexivity].
  rewrite newline_is_space in Hc. cbn [andb negb] in Hc |- *.
  now destruct (prefix nl s).
Qed.

Section MarkdownFacts.

Variable html2md : pyval -> result string.

(** X24: in the markdown of a page no newline follows a white-space
    character, so the text has no blank line and no line that ends in
    white space; and it has no white space at its ends. *)
Theorem html_to_markdown_tidy (html : pyval) :
  match html_to_markdown html2md html with
  | Ok md =>
      no_space_newline md = true
      /\ PyStr.contains (nl ++ nl) md = false
      /\ PyStr.strip md = md
  | Raise _ => True
  end.
Proof.
  unfold html_to_markdown.
  destruct (html2md (Py.or_ html (PStr ""))) as [md|e]; [|exact I].
  cbn [bind]. destruct (tidy_markdown_cases md) as [Heq Ht].
  split; [exact Ht|]. split; [now apply no_space_newline_blank|].
  rewrite Heq. apply strip_idem.
Qed.

(** X25: the substitution of two newlines for three or more changes
    nothing: behind the first substitution no two newlines follow one
    another, so the markdown is the converter's text behind the first
    substitution, trimmed. *)
Theorem html_to_markdown_second_sub (html : pyval) :
  html_to_markdown html2md html
  = (md <- html2md (Py.or_ html (PStr "")) ;;
     Ok (PyStr.strip (ReSub.sub space_newline_re nl md)))
  /\ forall md,
       ReSub.sub newlines_re (nl ++ nl) (ReSub.sub space_newline_re nl md)
       = ReSub.sub space_newline_re nl md.
Proof.
  split.
  - unfold html_to_markdown.
    destruct (html2md (Py.or_ html (PStr ""))) as [md|e]; [|reflexivity].
    cbn [bind]. now destruct (tidy_markdown_cases md) as [-> _].
  - intros md. apply sub_newlines_tidy. apply sub_space_newline_tidied.
Qed.

End MarkdownFacts.

(* ================================================================= *)
(** ** Paging *)

Lemma firstn_nil_iff {A : Type} n (l : list A) :
  0 < n -> firstn n l = [] -> l = [].
Proof. destruct n; [lia|]. now destruct l. Qed.

Lemma paged_results data limit start :
  results_of (paged data limit start)
  = Ok (PList (firstn limit (skipn start data))).
Proof. reflexivity. Qed.

Lemma conf_search_pages_from data limit :
  0 < limit ->
  forall fuel start,
    List.length data - start < fuel ->
    conf_search_pages fuel (paged data limit) (Z.of_nat limit) start
    = (skipn start data, Finished).
Proof.
  intros Hlimit. induction fuel as [|fuel IH]; intros start Hfuel; [lia|].
  cbn [conf_search_pages]. rewrite paged_results.
  pose proof (firstn_skipn limit (skipn start data)) as Hsplit.
  pose proof (length_skipn start data) as Hlen.
  destruct (firstn limit (skipn start data)) as [|x page] eqn:Hpage.
  - cbn [Py.truthy negb]. now rewrite (firstn_nil_iff _ _ Hlimit Hpage).
  - cbn [Py.truthy negb Py.iterate]. rewrite <- Hpage.
    pose proof (firstn_le_length limit (skipn start data)) as Hle.
    destruct (Z.of_nat (List.length (firstn limit (skipn start data)))
              <? Z.of_nat limit)%Z eqn:Hlt.
    + apply Z.ltb_lt in Hlt.
      rewrite firstn_all2; [reflexivity|].
      rewrite length_firstn in Hlt. lia.
    + apply Z.ltb_ge in Hlt. rewrite length_firstn in Hlt |- *.
      assert (Hmin : Nat.min limit (List.length (skipn start data)) = limit)
        by lia.
      rewrite Hmin, IH by lia.
      rewrite (Nat.add_comm start limit), <- skipn_skipn.
      now rewrite firstn_skipn.
Qed.

(** X26: from a server that holds a list of pages and answers each
    request with the next [limit] of them, [conf_search_pages] yields
    every page once, in order, and then returns. *)
Theorem conf_search_pages_all
    (data : list pyval) (limit fuel : nat) :
  0 < limit -> List.length data < fuel ->
  conf_search_pages fuel (paged data limit) (Z.of_nat limit) 0
  = (data, Finished).
Proof.
  intros Hlimit Hfuel.
  rewrite (conf_search_pages_from data limit Hlimit) by lia. reflexivity.
Qed.

Lemma conf_search_pages_all_witness :
  conf_search_pages 4 (paged sample_pages 2) 2 0 = (sample_pages, Finished).
Proof.
  apply (conf_search_pages_all sample_pages 2 4); simpl; lia.
Defined.

Section SpaceFacts.

Variable py_str : pyval -> string.

Lemma scan_spaces_dicts space_name results :
  forallb Py.is_dict results = true ->
  scan_spaces py_str space_name results
  = Ok (match find (space_named py_str space_name) results with
        | Some sp => Some (key_of (Some sp))
        | None => None
        end).
Proof.
  induction results as [|sp results IH]; [reflexivity|].
  cbn [forallb]. intros H. apply andb_true_iff in H as [Hsp Hrest].
  destruct sp; try discriminate.
  cbn [scan_spaces space_matches Py.get_default bind find space_named].
  destruct (String.eqb _ _); [reflexivity|]. now apply IH.
Qed.

Lemma forallb_firstn {A : Type} (p : A -> bool) n l :
  forallb p l = true -> forallb p (firstn n l) = true.
Proof.
  revert l. induction n as [|n IH]; intros l H; [reflexivity|].
  destruct l as [|x l]; [reflexivity|]. cbn [forallb firstn] in H |- *.
  apply andb_true_iff in H as [Hx Hl]. now rewrite Hx, IH.
Qed.

Lemma forallb_skipn {A : Type} (p : A -> bool) n l :
  forallb p l = true -> forallb p (skipn n l) = true.
Proof.
  revert l. induction n as [|n IH]; intros l H; [exact H|].
  destruct l as [|x l]; [reflexivity|]. cbn [forallb skipn] in H |- *.
  apply andb_true_iff in H as [Hx Hl]. now apply IH.
Qed.

Lemma find_app {A : Type} (p : A -> bool) l1 l2 :
  find p (l1 ++ l2)
  = match find p l1 with
    | Some x => Some x
    | None => find p l2
    end.
Proof.
  induction l1 as [|x l1 IH]; [reflexivity|].
  cbn [app find]. now destruct (p x).
Qed.

Lemma resolve_from spaces space_name :
  forallb Py.is_dict spaces = true ->
  forall fuel start,
    List.length spaces - start < fuel ->
    resolve_space_key_by_name py_str fuel (paged spaces 50) space_name start
    = Some (Ok (key_of (find (space_named py_str space_name)
                             (skipn start spaces)))).
Proof.
  intros Hd. induction fuel as [|fuel IH]; intros start Hfuel; [lia|].
  cbn [resolve_space_key_by_name]. rewrite paged_results.
  cbn [bind Py.iterate].
  pose proof (length_skipn start spaces) as Hlen.
  rewrite scan_spaces_dicts by now apply forallb_firstn, forallb_skipn.
  cbn [bind].
  assert (Hfind :
            find (space_named py_str space_name) (skipn start spaces)
            = match find (space_named py_str space_name)
                         (firstn 50 (skipn start spaces)) with
              | Some x => Some x
              | None => find (space_named py_str space_name)
                             (skipn 50 (skipn start spaces))
              end).
  { rewrite <- find_app. now rewrite firstn_skipn. }
  rewrite Hfind.
  destruct (find (space_named py_str space_name)
                 (firstn 50 (skipn start spaces))) as [sp|]; [reflexivity|].
  rewrite length_firstn.
  destruct (Nat.ltb (Nat.min 50 (List.length (skipn start spaces))) 50)
    eqn:Hlt.
  - apply Nat.ltb_lt in Hlt.
    rewrite (skipn_all2 (n := 50) (skipn start spaces)) by lia. reflexivity.
  - apply Nat.ltb_ge in Hlt.
    replace (Nat.min 50 (List.length (skipn start spaces))) with 50 by lia.
    rewrite IH by lia.
    now rewrite (Nat.add_comm start 50), <- skipn_skipn.
Qed.

(** X27: from a server that holds a list of spaces, all of them dicts,
    and answers each request with the next fifty,
    [resolve_space_key_by_name] returns the key of the first space
    whose name is the given one, apart from case and from white space
    around it; it returns [None] when there is none. *)
Theorem resolve_space_key_first
    (spaces : list pyval) (space_name : string) (fuel : nat) :
  forallb Py.is_dict spaces = true ->
  List.length spaces < fuel ->
  resolve_space_key_by_name py_str fuel (paged spaces 50) space_name 0
  = Some (Ok (key_of (find (space_named py_str space_name) spaces))).
Proof.
  intros Hd Hfuel. now rewrite (resolve_from spaces space_name Hd) by lia.
Qed.

End SpaceFacts.

Lemma resolve_space_key_first_witness :
  resolve_space_key_by_name RefLib.py_str 4 (paged sample_spaces 50)
                            "SPECIAL payment project " 0
  = Some (Ok (PStr "SPP")).
Proof.
  apply (resolve_space_key_first RefLib.py_str sample_spaces
           "SPECIAL payment project " 4); [reflexivity|simpl; lia].
Defined.

(* ================================================================= *)
(** ** The ingest run *)

Lemma Forall_removelast {A : Type} (P : A -> Prop) (l : list A) :
  Forall P l -> Forall P (removelast l).
Proof.
  induction l as [|x l IH]; [easy|]. intros H. inversion H; subst.
  cbn [removelast]. destruct l; [constructor|]. constructor; auto.
Qed.

Lemma batch_length_pos batch_size : 1 <= batch_length batch_size.
Proof. unfold batch_length. lia. Qed.

Section IngestFacts.

Local Open Scope list_scope.

Variable py_str : pyval -> string.
Variable html2md : pyval -> result string.
Variable search : string -> nat -> result pyval.
Variable insert : list (list Document) -> string -> list Document
                  -> result unit.
Variable conf_cloud_id : string.
Variable batch_size : Z.
Variable vdb_id : string.

Let prepare := page_document py_str html2md conf_cloud_id.
Let step := ingest_page py_str html2md insert conf_cloud_id batch_size vdb_id.
Let loop := ingest_pages py_str html2md insert conf_cloud_id batch_size vdb_id.

(** *** Nothing is lost and nothing is handed over twice *)

Lemma insert_documents_calls st :
  calls (fst (insert_documents insert vdb_id st))
  = calls st ++ [documents st].
Proof.
  unfold insert_documents. now destruct (insert _ _ _).
Qed.

Lemma insert_documents_ok st st' u :
  insert_documents insert vdb_id st = (st', Ok u) ->
  st' = mkBatching (documents st) (prepared st)
                   (inserted st + List.length (documents st))
                   (first_title st) (calls st ++ [documents st]).
Proof.
  unfold insert_documents. destruct (insert _ _ _); intros H.
  - now inversion H.
  - discriminate.
Qed.

Lemma insert_documents_raise st st' e :
  insert_documents insert vdb_id st = (st', Raise e) ->
  st' = mkBatching (documents st) (prepared st) (inserted st)
                   (first_title st) (calls st ++ [documents st]).
Proof.
  unfold insert_documents. destruct (insert _ _ _); intros H.
  - discriminate.
  - now inversion H.
Qed.

Lemma concat_snoc {A : Type} (ls : list (list A)) (l : list A) :
  concat (ls ++ [l]) = concat ls ++ l.
Proof. now rewrite List.concat_app; cbn [concat]; rewrite app_nil_r. Qed.

Lemma step_held st page :
  counted st ->
  match step st page with
  | (st', Ok _) =>
      counted st'
      /\ held st' = held st ++ page_documents prepare [page]
      /\ forall rest,
           page_documents prepare (page :: rest)
           = page_documents prepare [page] ++ page_documents prepare rest
  | (st', Raise _) =>
      forall rest,
        exists waiting,
          held st ++ page_documents prepare (page :: rest)
          = concat (calls st') ++ waiting
  end.
Proof.
  intros [Hi Hp]. unfold step, ingest_page. fold prepare.
  cbn [page_documents].
  destruct (prepare page) as [[[title doc]|]|e].
  - destruct (batch_size <=? _)%Z.
    + destruct (insert_documents insert vdb_id _) as [st' [u|e]] eqn:Hins.
      * apply insert_documents_ok in Hins. subst st'.
        unfold counted, held, clear in *.
        cbn [documents prepared inserted first_title calls].
        rewrite concat_snoc, !app_nil_r, !length_app in *.
        cbn [List.length] in *. repeat split; try lia.
        now rewrite <- app_assoc.
      * apply insert_documents_raise in Hins. subst st'.
        cbn [calls documents]. intros rest.
        exists (page_documents prepare rest). unfold held.
        now rewrite concat_snoc, <- !app_assoc.
    + unfold counted, held in *.
      cbn [documents prepared inserted first_title calls].
      rewrite !length_app in *. cbn [List.length].
      repeat split; try lia. now rewrite app_assoc.
  - repeat split; auto. now rewrite app_nil_r.
  - intros rest. exists (documents st). now rewrite app_nil_r.
Qed.

Lemma loop_held pages :
  forall st,
    counted st ->
    match loop pages st with
    | (st', Ok _) =>
        counted st' /\ held st' = held st ++ page_documents prepare pages
    | (st', Raise _) =>
        exists waiting,
          held st ++ page_documents prepare pages
          = concat (calls st') ++ waiting
    end.
Proof.
  induction pages as [|page rest IH]; intros st Hst.
  - cbn. split; [exact Hst|]. now rewrite app_nil_r.
  - unfold loop in *. cbn [ingest_pages]. fold step.
    pose proof (step_held st page Hst) as Hstep.
    destruct (step st page) as [st1 [u|e]].
    + destruct Hstep as (Hc & Hh & Hsplit).
      specialize (IH st1 Hc). rewrite Hsplit.
      destruct (ingest_pages _ _ _ _ _ _ rest st1) as [st2 [u2|e2]].
      * destruct IH as [Hc2 Hh2]. split; [exact Hc2|].
        now rewrite Hh2, Hh, app_assoc.
      * destruct IH as [waiting Hw]. exists waiting.
        now rewrite app_assoc, <- Hh.
    + apply Hstep.
Qed.

(** X28: the lists that the loop of [main] hands to [insert] are, one
    after the other, a beginning of the documents of the pages that the
    search yields: no document is handed over twice or out of order.
    When the loop and the final batch end without an exception, they
    are all of these documents, and [inserted] and [prepared] are both
    their number. *)
Theorem ingest_hands_over (fuel : nat) (cql : string) :
  (exists waiting,
     page_documents (page_document py_str html2md conf_cloud_id)
                    (fst (conf_search_pages fuel (search cql) 50 0))
     = concat (calls (fst (ingest py_str html2md search insert fuel
                                  conf_cloud_id batch_size vdb_id cql)))
       ++ waiting)
  /\ (snd (ingest py_str html2md search insert fuel
                  conf_cloud_id batch_size vdb_id cql) = Finished ->
      let st := fst (ingest py_str html2md search insert fuel
                            conf_cloud_id batch_size vdb_id cql) in
      concat (calls st)
      = page_documents (page_document py_str html2md conf_cloud_id)
                       (fst (conf_search_pages fuel (search cql) 50 0))
      /\ inserted st = List.length (concat (calls st))
      /\ prepared st = List.length (concat (calls st))).
Proof.
  unfold ingest. fold prepare.
  destruct (conf_search_pages fuel (search cql) 50 0) as [pages generator].
  cbn [fst].
  assert (Hstart : counted (mkBatching [] 0 0 PNone [])) by now split.
  pose proof (loop_held pages _ Hstart) as Hloop. unfold loop in Hloop.
  unfold held at 1 2 in Hloop. cbn [calls documents concat app] in Hloop.
  destruct (ingest_pages _ _ _ _ _ _ pages _) as [st [u|e]].
  - destruct Hloop as [[Hi Hp] Hh]. unfold held in *.
    destruct generator as [|e|start]; cbn [fst snd];
      try (split; [now exists (documents st)|discriminate]).
    destruct (documents st) as [|d ds] eqn:Hd.
    + cbn [fst snd]. rewrite app_nil_r in *.
      split; [exists []; now rewrite app_nil_r|]. intros _.
      cbv zeta. now rewrite Hi, Hp.
    + destruct (insert_documents insert vdb_id st) as [st' [u'|e']] eqn:Hins.
      * apply insert_documents_ok in Hins. subst st'.
        cbn [fst snd calls inserted prepared]. rewrite concat_snoc, Hd.
        split; [exists []; now rewrite app_nil_r|]. intros _. cbv zeta.
        rewrite Hp, Hi, !length_app. auto.
      * apply insert_documents_raise in Hins. subst st'.
        cbn [fst snd calls]. rewrite concat_snoc, Hd.
        split; [exists []; now rewrite app_nil_r|discriminate].
  - cbn [fst snd]. split; [exact Hloop|discriminate].
Qed.

(** *** The sizes of the batches *)

Lemma step_batched st page :
  batched batch_size st ->
  match step st page with
  | (st', Ok _) => batched batch_size st'
  | (st', Raise _) =>
      Forall (fun b => List.length b = batch_length batch_size) (calls st')
  end.
Proof.
  intros [Hc Hd]. unfold step, ingest_page. fold prepare.
  destruct (prepare page) as [[[title doc]|]|e]; [|now split|exact Hc].
  cbn [documents prepared inserted first_title calls].
  rewrite length_app. cbn [List.length].
  destruct (batch_size <=? _)%Z eqn:Hfull.
  - apply Z.leb_le in Hfull.
    assert (Hlen : List.length (documents st ++ [doc])
                   = batch_length batch_size).
    { rewrite length_app. cbn [List.length].
      unfold batch_length in *. lia. }
    destruct (insert_documents insert vdb_id _) as [st' [u|e]] eqn:Hins.
    + apply insert_documents_ok in Hins. subst st'.
      split; cbn [clear documents calls List.length].
      * apply Forall_app. split; [exact Hc|]. now constructor.
      * pose proof (batch_length_pos batch_size). lia.
    + apply insert_documents_raise in Hins. subst st'. cbn [calls].
      apply Forall_app. split; [exact Hc|]. now constructor.
  - apply Z.leb_gt in Hfull. split; cbn [documents calls]; [exact Hc|].
    rewrite length_app. cbn [List.length]. unfold batch_length in *. lia.
Qed.

Lemma loop_batched pages :
  forall st,
    batched batch_size st ->
    match loop pages st with
    | (st', Ok _) => batched batch_size st'
    | (st', Raise _) =>
        Forall (fun b => List.length b = batch_length batch_size) (calls st')
    end.
Proof.
  induction pages as [|page rest IH]; intros st Hst; [exact Hst|].
  unfold loop in *. cbn [ingest_pages]. fold step.
  pose proof (step_batched st page Hst) as Hstep.
  destruct (step st page) as [st1 [u|e]]; [now apply IH|exact Hstep].
Qed.

Lemma full_batches (ls : list (list Document)) :
  Forall (fun b => List.length b = batch_length batch_size) ls ->
  Forall (fun b => List.length b = batch_length batch_size) (removelast ls)
  /\ Forall (fun b => 1 <= List.length b <= batch_length batch_size) ls.
Proof.
  intros H. split; [now apply Forall_removelast|].
  eapply Forall_impl; [|exact H]. cbv beta. intros b Hb.
  pose proof (batch_length_pos batch_size). lia.
Qed.

Lemma last_batch (ls : list (list Document)) (l : list Document) :
  Forall (fun b => List.length b = batch_length batch_size) ls ->
  1 <= List.length l < batch_length batch_size ->
  Forall (fun b => List.length b = batch_length batch_size)
         (removelast (ls ++ [l]))
  /\ Forall (fun b => 1 <= List.length b <= batch_length batch_size)
            (ls ++ [l]).
Proof.
  intros H Hl. rewrite removelast_last. split; [exact H|].
  apply Forall_app. split.
  - eapply Forall_impl; [|exact H]. cbv beta. intros b Hb. lia.
  - constructor; [lia|constructor].
Qed.

(** X29: every list that the loop of [main] hands to [insert], but for
    the last one, has exactly [BATCH_SIZE] documents, one document
    when [BATCH_SIZE] is less than one; the last list has at least one
    document and no more than that number. *)
Theorem ingest_batch_sizes (fuel : nat) (cql : string) :
  Forall (fun b => List.length b = batch_length batch_size)
         (removelast
            (calls (fst (ingest py_str html2md search insert fuel
                                conf_cloud_id batch_size vdb_id cql))))
  /\ Forall (fun b => 1 <= List.length b <= batch_length batch_size)
            (calls (fst (ingest py_str html2md search insert fuel
                                conf_cloud_id batch_size vdb_id cql))).
Proof.
  unfold ingest.
  destruct (conf_search_pages fuel (search cql) 50 0) as [pages generator].
  assert (Hstart : batched batch_size (mkBatching [] 0 0 PNone [])).
  { split; [constructor|]. cbn. apply batch_length_pos. }
  pose proof (loop_batched pages _ Hstart) as Hloop. unfold loop in Hloop.
  destruct (ingest_pages _ _ _ _ _ _ pages _) as [st [u|e]];
    [|now apply full_batches].
  destruct Hloop as [Hc Hd].
  destruct generator as [|e|start]; try now apply full_batches.
  destruct (documents st) as [|d ds] eqn:Hdocs; [now apply full_batches|].
  assert (Hcalls : calls (fst (insert_documents insert vdb_id st))
                   = calls st ++ [d :: ds])
    by now rewrite insert_documents_calls, Hdocs.
  destruct (insert_documents insert vdb_id st) as [st' [u'|e']];
    cbn [fst] in *; rewrite Hcalls; apply last_batch; auto;
    cbn [List.length] in *; lia.
Qed.

End IngestFacts.

(** *** Runs that are refused *)

Lemma getenv_str_strip env name :
  PyStr.strip (getenv_str env name "") = var_text env name.
Proof. unfold getenv_str, var_text. now destruct (env name). Qed.

Lemma missing_truthy env name :
  In name required_names -> var_text env name = "" ->
  Py.truthy_list (missing env) = true.
Proof.
  unfold missing, required. rewrite !getenv_str_strip.
  cbn [filter snd fst map].
  intros [H|[H|[H|[H|[]]]]] Hv; subst name; rewrite Hv;
    cbn [PyStr.nonempty PyStr.is_empty negb map fst Py.truthy_list];
    repeat match goal with
           | |- context [if ?b then _ else _] => destruct b
           end; reflexivity.
Qed.

Lemma vector_db_name_prefix env :
  PyStr.startswith "vs_"
    (PyStr.strip (getenv_str env "VECTOR_DB_ID" "confluence"))
  = vector_store_named env.
Proof.
  unfold getenv_str, vector_store_named.
  now destruct (env "VECTOR_DB_ID").
Qed.

Section MainFacts.

Variable py_str : pyval -> string.
Variable py_int : string -> result Z.
Variable html2md : pyval -> result string.
Variable connect : string -> option string -> result unit.
Variable models_list : result pyval.
Variable spaces : nat -> result pyval.
Variable search : string -> nat -> result pyval.
Variable insert : list (list Document) -> string -> list Document
                  -> result unit.
Variable files : string -> option (result pyval).

(** X30: when one of CONF_CLOUD_ID, CONF_USER, CONF_API_TOKEN and
    SPACE_NAME is not set or holds only white space, or VECTOR_DB_ID is
    not set or its trimmed value does not start with [vs_], [main]
    calls [insert] never, whatever the services answer, and ends with
    the exit code 2 or with an exception. *)
Theorem main_refuses (fuel : nat) (env : environ) :
  (exists name, In name required_names /\ var_text env name = "")
  \/ vector_store_named env = false ->
  refused (main py_str py_int html2md connect models_list spaces search
                insert files fuel env).
Proof.
  intros H. unfold main, try, refused.
  rewrite vector_db_name_prefix.
  destruct (int_or py_int _ 0); [|now split].
  destruct (int_or py_int _ 100); [|now split].
  destruct (Py.truthy_list (missing env)) eqn:Hm; [now split|].
  destruct H as [(name & Hin & Hv)|Hvs].
  { now rewrite (missing_truthy env name Hin Hv) in Hm. }
  rewrite Hvs. cbn [negb].
  destruct (connect _ _); [|now split].
  destruct (bind models_list _) as [[embed_model|]|e]; try now split.
  destruct (attr embed_model "identifier"); now split.
Qed.

End MainFacts.

Lemma main_refuses_witness :
  refused (main RefLib.py_str digits_int text_of (fun _ _ => Ok tt)
                (Ok (PList sample_models)) (paged sample_spaces 50)
                (fun _ => paged sample_search 50) (fun _ _ _ => Ok tt)
                (fun _ => None) 8 ingest_env).
Proof.
  apply (main_refuses RefLib.py_str digits_int text_of (fun _ _ => Ok tt)
           (Ok (PList sample_models)) (paged sample_spaces 50)
           (fun _ => paged sample_search 50) (fun _ _ _ => Ok tt)
           (fun _ => None) 8 ingest_env).
  right. reflexivity.
Defined.
